(** * Timed property graphs of logipy: a shallow embedding

    The development follows [logipy/graphs/timed_property_graph.py] and
    [logipy/logic/logical_operators.py].  Python objects become records,
    the mutable [networkx] multigraph becomes a value that every operation
    returns anew, and Python exceptions become the [Raise] branch of
    [Result]. *)

From Stdlib Require Import List ZArith String Ascii Bool Arith Lia Sorted Permutation.
Import ListNotations.

Local Open Scope string_scope.
Local Open Scope Z_scope.
Local Close Scope list_scope.
Local Open Scope list_scope.

(** ** Exceptions

    The exceptions the code raises or lets escape.  [OutOfFuel] is not a
    Python exception: the loops of the model are bounded by the size of the
    graph, and it marks a bound that was too small. *)

Inductive PyError : Type :=
| Exception (msg : string)
| RuntimeError (msg : string)
| KeyError
| IndexError
| TypeError
| AttributeError
| ValueError
| NodeNotFound
| OutOfFuel.

Inductive Result (A : Type) : Type :=
| Ok (a : A)
| Raise (e : PyError).

Arguments Ok {A} a.
Arguments Raise {A} e.

Definition bind {A B : Type} (c : Result A) (k : A -> Result B) : Result B :=
  match c with
  | Ok a => k a
  | Raise e => Raise e
  end.

Notation "x <- c ;; k" := (bind c (fun x => k))
  (at level 61, c at next level, right associativity).
Notation "' p <- c ;; k" := (bind c (fun p => k))
  (at level 61, p pattern, c at next level, right associativity).

Definition is_ok {A : Type} (c : Result A) : bool :=
  match c with Ok _ => true | Raise _ => false end.

(** Iteration of a fallible body over a list, left to right: a Python
    [for] loop whose body may raise. *)
Fixpoint foldM {A S : Type} (f : S -> A -> Result S) (l : list A) (s : S)
  : Result S :=
  match l with
  | [] => Ok s
  | x :: r => s' <- f s x ;; foldM f r s'
  end.

(** ** Time source and timestamps *)

(** Modelled from the spec: [logipy/monitor/time_source.py] is not part of
    the sources.  A time source is a counter; the operations below only read
    it, so a graph holds the state of the counter it is bound to. *)
Record TimeSource : Type := { get_current_time : Z }.

(** Modelled from the spec: [logipy/logic/timestamps.py] is not part of the
    sources.  [Absolute t] is a tick, [Relative d] resolves to [now + d]
    against the time source it is bound to.  Interval timestamps, which the
    spec gives no order for, are left out.  A relative timestamp is resolved
    against the time source of the graph that owns it: the graph operations
    bind every relative timestamp they store to that source. *)
Inductive Timestamp : Type :=
| Absolute (t : Z)
| Relative (d : Z).

Definition is_absolute (ts : Timestamp) : bool :=
  match ts with Absolute _ => true | Relative _ => false end.

Definition get_absolute_value (now : Z) (ts : Timestamp) : Z :=
  match ts with Absolute t => t | Relative d => now + d end.

(** [a.matches(b)]: absolute against absolute compares the ticks, relative
    against relative compares the offsets, relative against absolute resolves
    the relative one first. *)
Definition matches (now : Z) (a b : Timestamp) : bool :=
  match a, b with
  | Absolute t1, Absolute t2 => t1 =? t2
  | Relative d1, Relative d2 => d1 =? d2
  | Relative d, Absolute t => now + d =? t
  | Absolute t, Relative d => t =? now + d
  end.

(** The order [<]: both sides resolved to ticks. *)
Definition ts_lt (now : Z) (a b : Timestamp) : bool :=
  get_absolute_value now a <? get_absolute_value now b.

Definition Timestamp_eq_dec (a b : Timestamp) : {a = b} + {a <> b}.
Proof. decide equality; apply Z.eq_dec. Defined.

(** Python's [max] and [min] over a sequence: the first extremal element
    wins, the empty sequence raises [ValueError]. *)
Fixpoint max_from (now : Z) (cur : Timestamp) (l : list Timestamp) : Timestamp :=
  match l with
  | [] => cur
  | x :: r => max_from now (if ts_lt now cur x then x else cur) r
  end.

Definition py_max (now : Z) (l : list Timestamp) : Result Timestamp :=
  match l with
  | [] => Raise ValueError
  | x :: r => Ok (max_from now x r)
  end.

Fixpoint min_from (now : Z) (cur : Timestamp) (l : list Timestamp) : Timestamp :=
  match l with
  | [] => cur
  | x :: r => min_from now (if ts_lt now x cur then x else cur) r
  end.

Definition py_min (now : Z) (l : list Timestamp) : Result Timestamp :=
  match l with
  | [] => Raise ValueError
  | x :: r => Ok (min_from now x r)
  end.

(** [max]/[min] over values some of which are [None]: one element is returned
    as it is, any comparison that meets [None] raises [TypeError]. *)
Fixpoint all_some {A : Type} (l : list (option A)) : option (list A) :=
  match l with
  | [] => Some []
  | Some x :: r => option_map (cons x) (all_some r)
  | None :: _ => None
  end.

Definition py_max_opt (now : Z) (l : list (option Timestamp))
  : Result (option Timestamp) :=
  match l with
  | [] => Raise ValueError
  | [x] => Ok x
  | _ => match all_some l with
         | Some ts => t <- py_max now ts ;; Ok (Some t)
         | None => Raise TypeError
         end
  end.

Definition py_min_opt (now : Z) (l : list (option Timestamp))
  : Result (option Timestamp) :=
  match l with
  | [] => Raise ValueError
  | [x] => Ok x
  | _ => match all_some l with
         | Some ts => t <- py_min now ts ;; Ok (Some t)
         | None => Raise TypeError
         end
  end.

(** Modelled from the spec: [timestamp_sequences_matches] of
    [logipy/logic/timestamps.py] is not part of the sources.  Two sequences
    match when they have the same length, match entry by entry, and their
    values are ordered alike. *)
Fixpoint pairwise_matches (now : Z) (a b : list Timestamp) : bool :=
  match a, b with
  | [], [] => true
  | x :: a', y :: b' => matches now x y && pairwise_matches now a' b'
  | _, _ => false
  end.

Definition same_order (now : Z) (a b : list Timestamp) : bool :=
  forallb (fun p =>
    forallb (fun q =>
      Bool.eqb (ts_lt now (fst p) (fst q)) (ts_lt now (snd p) (snd q)))
      (combine a b))
    (combine a b).

Definition timestamp_sequences_matches (now : Z) (a b : list Timestamp) : bool :=
  pairwise_matches now a b && same_order now a b.

(** ** Nodes *)

Inductive OperatorKind : Type := AND | NOT | IMPLIES.

(** Modelled from the spec: the equality of logical operators belongs to
    [logipy/graphs/logical_operators.py], which is not part of the sources.
    A logical operator is identified by its kind and the rendering built from
    its operands; [unique_id] is set once hashing by structure has been
    disabled, which makes the node differ from every node built elsewhere.
    A predicate node is identified by its rendering [name(arg,...)] and a
    monitored variable by its name, as [__eq__] of [PredicateNode] and of
    [MonitoredVariable] has it. *)
Inductive Node : Type :=
| PredicateNode (str : string)
| MonitoredVariable (monitored_variable : string)
| LogicalOperator (kind : OperatorKind) (str_representation : string)
                  (unique_id : option nat).

Definition OperatorKind_eq_dec (a b : OperatorKind) : {a = b} + {a <> b}.
Proof. decide equality. Defined.

Definition Node_eq_dec (a b : Node) : {a = b} + {a <> b}.
Proof.
  decide equality; try apply string_dec.
  - decide equality. apply Nat.eq_dec.
  - apply OperatorKind_eq_dec.
Defined.

Definition node_eqb (a b : Node) : bool :=
  if Node_eq_dec a b then true else false.

Definition node_str (n : Node) : string :=
  match n with
  | PredicateNode s => s
  | MonitoredVariable v => v
  | LogicalOperator _ s _ => s
  end.

(** [PredicateNode.__str__]: ["{}({})".format(predicate, ",".join(args))]
    with every space replaced by an underscore. *)
Fixpoint replace_spaces (s : string) : string :=
  match s with
  | EmptyString => EmptyString
  | String c r =>
      String (if Ascii.eqb c " "%char then "_"%char else c) (replace_spaces r)
  end.

Definition predicate_node (predicate : string) (arguments : list Node) : Node :=
  PredicateNode
    (replace_spaces
       (predicate ++ "(" ++ String.concat "," (map node_str arguments) ++ ")")%string).

(** [list.sort] on strings. *)
Fixpoint insert_sorted (s : string) (l : list string) : list string :=
  match l with
  | [] => [s]
  | x :: r => if String.leb s x then s :: l else x :: insert_sorted s r
  end.

Definition sort_strings (l : list string) : list string :=
  fold_right insert_sorted [] l.

Definition get_operator_symbol (k : OperatorKind) : string :=
  match k with AND => "AND" | NOT => "NOT" | IMPLIES => "-->" end.

Definition operands_order_matters (k : OperatorKind) : bool :=
  match k with IMPLIES => true | _ => false end.

(** [LogicalOperator.__init__]. *)
Definition LogicalOperator_init (k : OperatorKind) (args : list Node) : Node :=
  let args_list := map node_str args in
  let args_list :=
    if operands_order_matters k then args_list else sort_strings args_list in
  LogicalOperator k
    (match args_list with
     | [a] => (get_operator_symbol k ++ a)%string
     | _ => String.concat (get_operator_symbol k) args_list
     end)
    None.

Definition AndOperator (a b : Node) : Node := LogicalOperator_init AND [a; b].
Definition NotOperator (a : Node) : Node := LogicalOperator_init NOT [a].
Definition ImplicationOperator (a b : Node) : Node :=
  LogicalOperator_init IMPLIES [a; b].

Definition is_kind (k : OperatorKind) (n : Node) : bool :=
  match n with
  | LogicalOperator k' _ _ => if OperatorKind_eq_dec k k' then true else false
  | _ => false
  end.

Definition is_predicate (n : Node) : bool :=
  match n with PredicateNode _ => true | _ => false end.

Definition is_logical_operator (n : Node) : bool :=
  match n with LogicalOperator _ _ _ => true | _ => false end.

(** Modelled from the spec: [logically_matches] and
    [disable_hashing_by_structure] belong to
    [logipy/graphs/logical_operators.py], which is not part of the sources.
    Two operators are logically equal when kind and operands agree; the
    operands are what the rendering is built from. *)
Definition logically_matches (a b : Node) : bool :=
  match a, b with
  | LogicalOperator k1 s1 _, LogicalOperator k2 s2 _ =>
      (if OperatorKind_eq_dec k1 k2 then true else false) && String.eqb s1 s2
  | _, _ => false
  end.


(** ** The multigraph

    [networkx.MultiDiGraph] keeps its nodes in insertion order and, for every
    ordered pair of nodes joined by an edge, a dictionary from edge keys to
    attribute dictionaries; the pairs are kept in the order in which their
    first edge was added.  Here the edges form one list in which the edges of
    a pair stay next to each other, so that filtering the list by source (or
    by target) visits the edges in the order [networkx] yields them. *)

Inductive ImplicationPart : Type := ASSUMPTION_GRAPH | CONCLUSION_GRAPH.

Definition ImplicationPart_eq_dec (a b : ImplicationPart) : {a = b} + {a <> b}.
Proof. decide equality. Defined.

(** The attribute dictionary of an edge; an absent key is [None]. *)
Record EdgeData : Type := {
  timestamp : option Timestamp;
  implication : option ImplicationPart
}.

Definition no_data : EdgeData := {| timestamp := None; implication := None |}.

Definition timestamp_data (t : option Timestamp) : EdgeData :=
  {| timestamp := t; implication := None |}.

(** [d1.update(d2)]: the keys of [d2] win. *)
Definition dict_update (d1 d2 : EdgeData) : EdgeData :=
  {| timestamp :=
       match timestamp d2 with Some t => Some t | None => timestamp d1 end;
     implication :=
       match implication d2 with Some i => Some i | None => implication d1 end |}.

Record Edge : Type := {
  edge_src : Node;
  edge_dst : Node;
  edge_key : nat;
  edge_data : EdgeData
}.

(** An edge as the three-tuple [(u, v, key)] or, with [Some] timestamp, as
    the four-tuple [(u, v, key, timestamp)] that paths are made of. *)
Record PathEdge : Type := {
  pe_src : Node;
  pe_dst : Node;
  pe_key : nat;
  pe_timestamp : option Timestamp
}.

Definition Path : Type := list PathEdge.

Definition edge_id (e : Edge) : PathEdge :=
  {| pe_src := edge_src e; pe_dst := edge_dst e; pe_key := edge_key e;
     pe_timestamp := None |}.

Record MultiDiGraph : Type := {
  nodes : list Node;
  edges : list Edge
}.

Definition empty_graph : MultiDiGraph := {| nodes := []; edges := [] |}.

Definition mem_node (n : Node) (l : list Node) : bool := existsb (node_eqb n) l.

Definition has_node (g : MultiDiGraph) (n : Node) : bool := mem_node n (nodes g).

Definition number_of_nodes (g : MultiDiGraph) : nat := List.length (nodes g).

Definition same_pair (u v : Node) (e : Edge) : bool :=
  node_eqb (edge_src e) u && node_eqb (edge_dst e) v.

Definition is_edge (u v : Node) (k : nat) (e : Edge) : bool :=
  same_pair u v e && Nat.eqb (edge_key e) k.

Definition has_edge (g : MultiDiGraph) (u v : Node) : bool :=
  existsb (same_pair u v) (edges g).

(** [G[u][v]], the keyed edges from [u] to [v]. *)
Definition keydict (g : MultiDiGraph) (u v : Node) : list Edge :=
  filter (same_pair u v) (edges g).

Definition get_edge_data (g : MultiDiGraph) (u v : Node) (k : nat)
  : option EdgeData :=
  option_map edge_data (find (is_edge u v k) (edges g)).

(** [G.edges(n, keys=True)] and [G.in_edges(n, keys=True)]. *)
Definition out_edges (g : MultiDiGraph) (u : Node) : list Edge :=
  filter (fun e => node_eqb (edge_src e) u) (edges g).

Definition in_edges (g : MultiDiGraph) (v : Node) : list Edge :=
  filter (fun e => node_eqb (edge_dst e) v) (edges g).

(** [G.edges]: node by node. *)
Definition graph_edges (g : MultiDiGraph) : list Edge :=
  flat_map (out_edges g) (nodes g).

Definition out_degree (g : MultiDiGraph) (n : Node) : nat := List.length (out_edges g n).
Definition in_degree (g : MultiDiGraph) (n : Node) : nat := List.length (in_edges g n).
Definition degree (g : MultiDiGraph) (n : Node) : nat :=
  (in_degree g n + out_degree g n)%nat.

Definition add_node (g : MultiDiGraph) (n : Node) : MultiDiGraph :=
  if has_node g n then g else {| nodes := nodes g ++ [n]; edges := edges g |}.

(** [new_edge_key]: the number of edges of the pair, stepped up while taken. *)
Fixpoint next_free (keys : list nat) (k fuel : nat) : nat :=
  match fuel with
  | O => k
  | S f => if existsb (Nat.eqb k) keys then next_free keys (S k) f else k
  end.

Definition new_edge_key (g : MultiDiGraph) (u v : Node) : nat :=
  let keys := map edge_key (keydict g u v) in
  next_free keys (List.length keys) (S (List.length keys)).

(** A new edge goes behind the last edge of its pair, or to the end. *)
Fixpoint insert_edge (e : Edge) (l : list Edge) : list Edge :=
  match l with
  | [] => [e]
  | x :: r =>
      if same_pair (edge_src e) (edge_dst e) x
         && negb (existsb (same_pair (edge_src e) (edge_dst e)) r)
      then x :: e :: r
      else x :: insert_edge e r
  end.

Definition update_edge (u v : Node) (k : nat) (attr : EdgeData) (e : Edge) : Edge :=
  if is_edge u v k e
  then {| edge_src := edge_src e; edge_dst := edge_dst e; edge_key := edge_key e;
          edge_data := dict_update (edge_data e) attr |}
  else e.

(** [G.add_edge(u, v, key, **attr)]. *)
Definition add_edge (g : MultiDiGraph) (u v : Node) (key : option nat)
    (attr : EdgeData) : MultiDiGraph :=
  let k := match key with Some k => k | None => new_edge_key g u v end in
  let g' := add_node (add_node g u) v in
  {| nodes := nodes g';
     edges :=
       if existsb (is_edge u v k) (edges g)
       then map (update_edge u v k attr) (edges g)
       else insert_edge {| edge_src := u; edge_dst := v; edge_key := k;
                           edge_data := attr |} (edges g) |}.

(** [G.add_edges_from(H.edges(keys=True, data=True))]. *)
Definition add_edges_from (g : MultiDiGraph) (ebunch : list Edge) : MultiDiGraph :=
  fold_left
    (fun g e => add_edge g (edge_src e) (edge_dst e) (Some (edge_key e)) (edge_data e))
    ebunch g.


Definition remove_node (g : MultiDiGraph) (n : Node) : MultiDiGraph :=
  {| nodes := filter (fun m => negb (node_eqb m n)) (nodes g);
     edges := filter (fun e => negb (node_eqb (edge_src e) n)
                               && negb (node_eqb (edge_dst e) n)) (edges g) |}.

Definition remove_nodes_from (g : MultiDiGraph) (ns : list Node) : MultiDiGraph :=
  fold_left remove_node ns g.

(** [G.edges[u, v, k].update(d)]: [KeyError] when the edge is absent. *)
Definition update_edge_data (g : MultiDiGraph) (u v : Node) (k : nat)
    (d : EdgeData) : Result MultiDiGraph :=
  if existsb (is_edge u v k) (edges g)
  then Ok {| nodes := nodes g; edges := map (update_edge u v k d) (edges g) |}
  else Raise KeyError.

Definition in_path (p : list PathEdge) (e : Edge) : bool :=
  existsb (fun x => is_edge (pe_src x) (pe_dst x) (pe_key x) e) p.

(** [G.edge_subgraph(edges).copy()]: the given edges and their end points. *)
Definition edge_subgraph (g : MultiDiGraph) (es : list PathEdge) : MultiDiGraph :=
  let kept := filter (in_path es) (edges g) in
  {| nodes := filter (fun n => existsb (fun e => node_eqb (edge_src e) n
                                                || node_eqb (edge_dst e) n) kept)
                     (nodes g);
     edges := kept |}.

(** [G.subgraph(nodes)]: the given nodes and the edges among them. *)
Definition subgraph (g : MultiDiGraph) (ns : list Node) : MultiDiGraph :=
  {| nodes := filter (fun n => mem_node n ns) (nodes g);
     edges := filter (fun e => mem_node (edge_src e) ns && mem_node (edge_dst e) ns)
                     (edges g) |}.

(** [networkx.dfs_postorder_nodes(G, source)], used only as the set of nodes
    reachable from [source]. *)
Fixpoint reachable (fuel : nat) (g : MultiDiGraph) (seen : list Node) : list Node :=
  match fuel with
  | O => seen
  | S f =>
      reachable f g
        (fold_left (fun acc e =>
                      if mem_node (edge_src e) acc && negb (mem_node (edge_dst e) acc)
                      then acc ++ [edge_dst e] else acc)
                   (edges g) seen)
  end.

Definition dfs_postorder_nodes (g : MultiDiGraph) (source : Node) : list Node :=
  reachable (number_of_nodes g) g [source].

(** [all_simple_edge_paths(G, source, targets)]: depth first over the out
    edges, a path ends at the first target it meets, its length is bounded by
    the number of nodes less one. *)
Fixpoint paths_from (fuel : nat) (g : MultiDiGraph) (targets visited : list Node)
    (u : Node) : list Path :=
  match fuel with
  | O => []
  | S f =>
      flat_map
        (fun e =>
           if mem_node (edge_dst e) targets then [[edge_id e]]
           else if mem_node (edge_dst e) visited then []
           else map (cons (edge_id e))
                    (paths_from f g targets (visited ++ [edge_src e]) (edge_dst e)))
        (out_edges g u)
  end.

Definition all_simple_edge_paths (g : MultiDiGraph) (source : option Node)
    (targets : list Node) : Result (list Path) :=
  match source with
  | None => Raise NodeNotFound
  | Some s =>
      if negb (has_node g s) then Raise NodeNotFound
      else if mem_node s targets then Ok []
      else Ok (paths_from (Nat.pred (number_of_nodes g)) g targets [] s)
  end.

(** The same with a single target node, which has to be in the graph. *)
Definition all_simple_edge_paths_to (g : MultiDiGraph) (source : option Node)
    (target : Node) : Result (list Path) :=
  if has_node g target then all_simple_edge_paths g source [target]
  else Raise NodeNotFound.

(** ** Timed property graphs *)

(** The constant properties of the module: the base class, whose [apply]
    does nothing, and its one subclass.  A constant property is built for a
    graph and registered on that graph; [apply] rewrites it. *)
Inductive ConstantProperty : Type :=
| ConstantProperty_base
| NoPositiveAndNegativePredicatesSimultaneously.

Record TimedPropertyGraph : Type := {
  graph : MultiDiGraph;
  root_node : option Node;
  time_source : TimeSource;
  property_textual_representation : option string;
  constant_properties : list ConstantProperty
}.

(** [TimedPropertyGraph.__init__]. *)
Definition TimedPropertyGraph_init (ts : TimeSource) : TimedPropertyGraph :=
  {| graph := empty_graph; root_node := None; time_source := ts;
     property_textual_representation := None; constant_properties := [] |}.

Definition set_graph (g : TimedPropertyGraph) (gr : MultiDiGraph) : TimedPropertyGraph :=
  {| graph := gr; root_node := root_node g; time_source := time_source g;
     property_textual_representation := property_textual_representation g;
     constant_properties := constant_properties g |}.

Definition set_root_node (g : TimedPropertyGraph) (r : option Node) : TimedPropertyGraph :=
  {| graph := graph g; root_node := r; time_source := time_source g;
     property_textual_representation := property_textual_representation g;
     constant_properties := constant_properties g |}.

Definition now_of (g : TimedPropertyGraph) : Z := get_current_time (time_source g).

Definition add_constant_property (g : TimedPropertyGraph) (c : ConstantProperty)
  : TimedPropertyGraph :=
  {| graph := graph g; root_node := root_node g; time_source := time_source g;
     property_textual_representation := property_textual_representation g;
     constant_properties := constant_properties g ++ [c] |}.

Definition get_root_node (g : TimedPropertyGraph) : option Node := root_node g.

Definition get_graph (g : TimedPropertyGraph) : MultiDiGraph := graph g.

(** [get_leaves]: the nodes of out-degree zero. *)
Definition get_leaves (g : TimedPropertyGraph) : list Node :=
  filter (fun n => Nat.eqb (out_degree (graph g) n) 0) (nodes (graph g)).

(** [_merge_timestamped_data]: both dictionaries are read at the timestamp
    key, which raises [KeyError] when one has none. *)
Definition _merge_timestamped_data (now : Z) (d1 d2 : EdgeData) (keep_newer : bool)
  : Result EdgeData :=
  match timestamp d1, timestamp d2 with
  | Some t1, Some t2 =>
      if keep_newer
      then if ts_lt now t2 t1 then Ok (dict_update d2 d1) else Ok (dict_update d1 d2)
      else if ts_lt now t1 t2 then Ok (dict_update d2 d1) else Ok (dict_update d1 d2)
  | _, _ => Raise KeyError
  end.

(** [_add_edge]. *)
Definition _add_edge (g : TimedPropertyGraph) (start_node end_node : Node)
    (data_dict : EdgeData) (update_if_exists : bool) : Result TimedPropertyGraph :=
  gr <- (if update_if_exists && has_edge (graph g) start_node end_node
         then match keydict (graph g) start_node end_node with
              | e :: _ =>
                  new_data <- _merge_timestamped_data (now_of g) (edge_data e)
                                data_dict true ;;
                  update_edge_data (graph g) start_node end_node (edge_key e) new_data
              | [] => Raise IndexError
              end
         else Ok (add_edge (graph g) start_node end_node None data_dict)) ;;
  Ok (set_root_node (set_graph g gr)
        (match get_root_node g with
         | None => Some start_node
         | Some r => if node_eqb end_node r then Some start_node else Some r
         end)).

(** [_add_node]. *)
Definition _add_node (g : TimedPropertyGraph) (n : Node) : TimedPropertyGraph :=
  let g' := set_graph g (add_node (graph g) n) in
  match root_node g with
  | None => set_root_node g' (Some n)
  | Some _ => g'
  end.

(** [PredicateGraph.__init__]: the predicate node, then one edge without
    attributes to every argument. *)
Definition PredicateGraph (ts : TimeSource) (predicate : string) (args : list Node)
  : Result TimedPropertyGraph :=
  let n := predicate_node predicate args in
  foldM (fun g arg => _add_edge g n arg no_data false) args
        (_add_node (TimedPropertyGraph_init ts) n).

(** [set_timestamp]. *)
Definition set_timestamp (g : TimedPropertyGraph) (t : Timestamp) : TimedPropertyGraph :=
  set_graph g
    {| nodes := nodes (graph g);
       edges := map (fun e => {| edge_src := edge_src e; edge_dst := edge_dst e;
                                edge_key := edge_key e;
                                edge_data := dict_update (edge_data e)
                                               (timestamp_data (Some t)) |})
                    (edges (graph g)) |}.

(** [get_most_recent_timestamp]. *)
Definition get_most_recent_timestamp (g : TimedPropertyGraph)
  : Result (option Timestamp) :=
  match map (fun e => timestamp (edge_data e)) (graph_edges (graph g)) with
  | [] => Ok None
  | l => py_max_opt (now_of g) l
  end.

(** The comparison written out in the orphan clean-up: of two attribute
    dictionaries, keep the entries of the one with the older timestamp. *)
Definition retain_older (now : Z) (d1 d2 : EdgeData) : Result EdgeData :=
  match timestamp d1, timestamp d2 with
  | Some t1, Some t2 =>
      if ts_lt now t1 t2 then Ok (dict_update d2 d1) else Ok (dict_update d1 d2)
  | _, _ => Raise KeyError
  end.

Definition edge_data_of (g : TimedPropertyGraph) (e : Edge) : Result EdgeData :=
  match get_edge_data (graph g) (edge_src e) (edge_dst e) (edge_key e) with
  | Some d => Ok d
  | None => Raise KeyError
  end.

(** [_propagate_edge_data_to_deeper_edges]. *)
Definition _propagate_edge_data_to_deeper_edges (g : TimedPropertyGraph)
    (source_node : Node) (data : EdgeData) : Result TimedPropertyGraph :=
  foldM
    (fun g deeper_edge =>
       deeper_edge_data <- edge_data_of g deeper_edge ;;
       data_to_retain <- retain_older (now_of g) data deeper_edge_data ;;
       gr <- update_edge_data (graph g) (edge_src deeper_edge) (edge_dst deeper_edge)
               (edge_key deeper_edge) data_to_retain ;;
       Ok (set_graph g gr))
    (out_edges (graph g) source_node) g.

(** [_remove_orphan_and_operator]. *)
Definition _remove_orphan_and_operator (g : TimedPropertyGraph) (and_node : Node)
  : Result TimedPropertyGraph :=
  let predecessor_edges := in_edges (graph g) and_node in
  match out_edges (graph g) and_node with
  | [] => Raise IndexError
  | successor_edge :: _ =>
      let successor_data := edge_data successor_edge in
      g' <- match predecessor_edges with
            | _ :: _ =>
                foldM
                  (fun g predecessor_edge =>
                     predecessor_data <- edge_data_of g predecessor_edge ;;
                     data_to_retain <- retain_older (now_of g) predecessor_data
                                         successor_data ;;
                     _add_edge g (edge_src predecessor_edge) (edge_dst successor_edge)
                       data_to_retain false)
                  predecessor_edges g
            | [] =>
                _propagate_edge_data_to_deeper_edges
                  (set_root_node g (Some (edge_dst successor_edge)))
                  (edge_dst successor_edge) successor_data
            end ;;
      Ok (set_graph g' (remove_node (graph g') and_node))
  end.

(** [_remove_orphan_and_operators]: the orphans are listed first, then
    removed one by one. *)
Definition _remove_orphan_and_operators (g : TimedPropertyGraph)
  : Result TimedPropertyGraph :=
  let and_nodes_to_remove :=
    filter (fun n => is_kind AND n && Nat.ltb (out_degree (graph g) n) 2)
           (nodes (graph g)) in
  foldM _remove_orphan_and_operator and_nodes_to_remove g.

(** [_collapse_not_operators_pair]. *)
Definition _collapse_not_operators_pair (g : TimedPropertyGraph) (not1 not2 : Node)
  : Result TimedPropertyGraph :=
  let not1_predecessor_edges := in_edges (graph g) not1 in
  match out_edges (graph g) not2 with
  | [] => Raise IndexError
  | not2_successor_edge :: _ =>
      match get_edge_data (graph g) not1 not2 0 with
      | None => Raise KeyError
      | Some between_data =>
          let not2_out_data := edge_data not2_successor_edge in
          data_to_retain <- retain_older (now_of g) between_data not2_out_data ;;
          g' <- match not1_predecessor_edges with
                | _ :: _ =>
                    foldM
                      (fun g predecessor_edge =>
                         predecessor_data <- edge_data_of g predecessor_edge ;;
                         new_data <- retain_older (now_of g) predecessor_data
                                       data_to_retain ;;
                         _add_edge g (edge_src predecessor_edge)
                           (edge_dst not2_successor_edge) new_data false)
                      not1_predecessor_edges g
                | [] =>
                    _propagate_edge_data_to_deeper_edges
                      (set_root_node g (Some (edge_dst not2_successor_edge)))
                      (edge_dst not2_successor_edge) data_to_retain
                end ;;
          Ok (set_graph g' (remove_nodes_from (graph g') [not1; not2]))
      end
  end.

(** [_collapse_sequential_not_operators]: the [while] loop, one pair per
    round.  A round that finds a pair removes a node, so a bound above the
    number of nodes is never reached. *)
Fixpoint collapse_loop (fuel : nat) (g : TimedPropertyGraph)
  : Result TimedPropertyGraph :=
  match find (fun e => is_kind NOT (edge_src e) && is_kind NOT (edge_dst e))
             (graph_edges (graph g)) with
  | None => Ok g
  | Some e =>
      match fuel with
      | O => Raise OutOfFuel
      | S f =>
          g' <- _collapse_not_operators_pair g (edge_src e) (edge_dst e) ;;
          collapse_loop f g'
      end
  end.

Definition _collapse_sequential_not_operators (g : TimedPropertyGraph)
  : Result TimedPropertyGraph :=
  collapse_loop (number_of_nodes (graph g)) g.

(** [_fix_orphan_logical_operators]. *)
Definition _fix_orphan_logical_operators (g : TimedPropertyGraph)
  : Result TimedPropertyGraph :=
  g' <- _remove_orphan_and_operators g ;;
  _collapse_sequential_not_operators g'.

(** ** Logical removal of paths *)

(** Modelled from the spec: [ColorizableMultiDiGraph]
    ([logipy/graphs/colorizable_multidigraph.py]) is not part of the sources.
    Every edge has an in-color and an out-color; [colorize_path] sets both on
    the edges of a path.  [build_colorization_scheme] propagates: a node is
    in-colorized when all its in-edges are in-colorized and out-colorized when
    all its out-edges are out-colorized; an edge below a node that is not
    in-colorized loses its in-color, an edge above a node that is not
    out-colorized loses its out-color.  [disconnect_fully_colorized_sub_dag]
    deletes the edges that kept both colors and then the nodes left without
    edges. *)
Record Colorization : Type := {
  in_color : list PathEdge;
  out_color : list PathEdge
}.

Definition colorize_path (c : Colorization) (p : Path) : Colorization :=
  {| in_color := in_color c ++ p; out_color := out_color c ++ p |}.

Definition pe_of (g : MultiDiGraph) (x : PathEdge) : list Edge :=
  filter (is_edge (pe_src x) (pe_dst x) (pe_key x)) (edges g).

Definition is_node_in_colorized (g : MultiDiGraph) (c : Colorization) (n : Node) : bool :=
  forallb (in_path (in_color c)) (in_edges g n).

Definition is_node_out_colorized (g : MultiDiGraph) (c : Colorization) (n : Node) : bool :=
  forallb (in_path (out_color c)) (out_edges g n).

Definition propagate_colors (g : MultiDiGraph) (c : Colorization) : Colorization :=
  {| in_color := filter (fun x => is_node_in_colorized g c (pe_src x)) (in_color c);
     out_color := filter (fun x => is_node_out_colorized g c (pe_dst x)) (out_color c) |}.

Definition build_colorization_scheme (g : MultiDiGraph) (c : Colorization)
  : Colorization :=
  Nat.iter (S (List.length (in_color c))) (propagate_colors g) c.

Definition disconnect_fully_colorized_sub_dag (g : MultiDiGraph) (c : Colorization)
  : MultiDiGraph :=
  let kept := filter (fun e => negb (in_path (in_color c) e && in_path (out_color c) e))
                     (edges g) in
  let g' := {| nodes := nodes g; edges := kept |} in
  {| nodes := filter (fun n => negb (Nat.eqb (degree g' n) 0)) (nodes g);
     edges := kept |}.

(** [_logically_remove_path_set]. *)
Definition _logically_remove_path_set (g : TimedPropertyGraph) (paths : list Path)
  : TimedPropertyGraph :=
  let c := fold_left colorize_path paths {| in_color := []; out_color := [] |} in
  let c := build_colorization_scheme (graph g) c in
  set_graph g (disconnect_fully_colorized_sub_dag (graph g) c).

(** ** The constant property *)

(** [count_nots_in_path]; the last element of an empty path raises. *)
Definition count_nots_in_path (path : Path) : Result nat :=
  match rev path with
  | [] => Raise IndexError
  | last :: _ =>
      Ok (List.length (filter (fun e => is_kind NOT (pe_src e)) path)
          + (if is_kind NOT (pe_dst last) then 1 else 0))%nat
  end.

(** [_all_simple_edge_paths_passing_from_node].  Prefixes and suffixes are
    generators and the comprehension runs over the suffixes first: the first
    suffix uses up the prefixes, and the later suffixes find none left. *)
Definition _all_simple_edge_paths_passing_from_node (g : MultiDiGraph)
    (source : option Node) (target : list Node) (intermediate : Node)
  : Result (list Path) :=
  suffixes <- all_simple_edge_paths g (Some intermediate) target ;;
  match suffixes with
  | [] => Ok []
  | suffix :: _ =>
      prefixes <- all_simple_edge_paths_to g source intermediate ;;
      Ok (map (fun prefix => prefix ++ suffix) prefixes)
  end.

(** [TimedPropertyGraph.find_path_timestamp]: the oldest timestamp among the
    edges of the path, read from the graph. *)
Definition graph_find_path_timestamp (g : TimedPropertyGraph) (path : Path)
  : Result (option Timestamp) :=
  ts <- foldM (fun acc e =>
                 match get_edge_data (graph g) (pe_src e) (pe_dst e) (pe_key e) with
                 | Some d => Ok (acc ++ [timestamp d])
                 | None => Raise KeyError
                 end) path [] ;;
  py_min_opt (now_of g) ts.

Record TimestampedPath : Type := {
  tp_path : Path;
  tp_timestamp : option Timestamp
}.

(** [paths.sort(reverse=True, key=...)]: newest first, paths of equal
    timestamp in their former order.  One path is not compared with
    anything; among several, a missing timestamp raises [TypeError]. *)
Fixpoint insert_newest_first (now : Z) (x : Path * Timestamp)
    (l : list (Path * Timestamp)) : list (Path * Timestamp) :=
  match l with
  | [] => [x]
  | y :: r =>
      if ts_lt now (snd x) (snd y)
      then y :: insert_newest_first now x r
      else x :: l
  end.

Definition sort_newest_first (now : Z) (l : list TimestampedPath)
  : Result (list TimestampedPath) :=
  match l with
  | [] | [_] => Ok l
  | _ =>
      match all_some (map tp_timestamp l) with
      | Some ts =>
          Ok (map (fun pt => {| tp_path := fst pt; tp_timestamp := Some (snd pt) |})
                  (fold_right (insert_newest_first now) []
                     (combine (map tp_path l) ts)))
      | None => Raise TypeError
      end
  end.

Definition is_negated (p : Path) : Result bool :=
  n <- count_nots_in_path p ;; Ok (Nat.odd n).

(** The loop that chooses the paths to remove: from the first path whose
    polarity differs from that of the newest one, everything that follows. *)
Fixpoint drop_from_first_difference (is_most_recent_negated : bool)
    (paths : list TimestampedPath) : Result (list TimestampedPath) :=
  match paths with
  | [] => Ok []
  | p :: r =>
      negated <- is_negated (tp_path p) ;;
      if Bool.eqb is_most_recent_negated negated
      then drop_from_first_difference is_most_recent_negated r
      else Ok paths
  end.

Definition paths_to_remove (paths : list TimestampedPath)
  : Result (list TimestampedPath) :=
  match paths with
  | [] => Ok []
  | newest :: _ =>
      is_most_recent_negated <- is_negated (tp_path newest) ;;
      drop_from_first_difference is_most_recent_negated paths
  end.

(** The timestamped paths through a predicate node, newest first. *)
Definition sorted_paths_through (g : TimedPropertyGraph) (pred_node : Node)
  : Result (list TimestampedPath) :=
  paths <- _all_simple_edge_paths_passing_from_node (graph g) (get_root_node g)
             (get_leaves g) pred_node ;;
  stamped <- foldM (fun acc p =>
                      t <- graph_find_path_timestamp g p ;;
                      Ok (acc ++ [{| tp_path := p; tp_timestamp := t |}])) paths [] ;;
  sort_newest_first (now_of g) stamped.

(** The body of [NoPositiveAndNegativePredicatesSimultaneously.apply] for one
    predicate node. *)
Definition apply_to_predicate (g : TimedPropertyGraph) (pred_node : Node)
  : Result TimedPropertyGraph :=
  paths <- sorted_paths_through g pred_node ;;
  match paths with
  | [] => Ok g
  | _ :: _ =>
      to_remove <- paths_to_remove paths ;;
      _fix_orphan_logical_operators
        (_logically_remove_path_set g (map tp_path to_remove))
  end.

(** [NoPositiveAndNegativePredicatesSimultaneously.apply]. *)
Definition NoPositiveAndNegativePredicatesSimultaneously_apply
    (g : TimedPropertyGraph) : Result TimedPropertyGraph :=
  let predicate_nodes := filter is_predicate (nodes (graph g)) in
  foldM apply_to_predicate predicate_nodes g.

Definition ConstantProperty_apply (c : ConstantProperty) (g : TimedPropertyGraph)
  : Result TimedPropertyGraph :=
  match c with
  | ConstantProperty_base => Ok g
  | NoPositiveAndNegativePredicatesSimultaneously =>
      NoPositiveAndNegativePredicatesSimultaneously_apply g
  end.

(** [_apply_all_constant_properties]. *)
Definition _apply_all_constant_properties (g : TimedPropertyGraph)
  : Result TimedPropertyGraph :=
  foldM (fun g c => ConstantProperty_apply c g) (constant_properties g) g.

(** ** Construction operators *)

(** [logical_and].  A graph that has nodes has a root; [AndOperator] on a
    missing root has no counterpart here and is reported as [ValueError]. *)
Definition logical_and (g property_graph : TimedPropertyGraph)
    (timestamp : option Timestamp) : Result TimedPropertyGraph :=
  if Nat.eqb (number_of_nodes (graph property_graph)) 0 then Ok g
  else
    let was_empty := Nat.eqb (number_of_nodes (graph g)) 0 in
    '(timestamp1, timestamp2) <-
       match timestamp with
       | Some t => Ok (Some t, Some t)
       | None =>
           t1 <- get_most_recent_timestamp g ;;
           t2 <- get_most_recent_timestamp property_graph ;;
           Ok (t1, t2)
       end ;;
    let g1 := set_graph g (add_edges_from (graph g) (graph_edges (graph property_graph))) in
    g2 <- (if negb was_empty
           then match get_root_node g1, get_root_node property_graph with
                | Some r1, Some r2 =>
                    let and_node := AndOperator r1 r2 in
                    g' <- _add_edge g1 and_node r1 (timestamp_data timestamp1) false ;;
                    _add_edge g' and_node r2 (timestamp_data timestamp2) false
                | _, _ => Raise ValueError
                end
           else Ok (set_root_node g1 (get_root_node property_graph))) ;;
    _apply_all_constant_properties g2.

(** [logical_not]. *)
Definition logical_not (g : TimedPropertyGraph) (timestamp : option Timestamp)
  : Result TimedPropertyGraph :=
  timestamp <- match timestamp with
               | Some t => Ok (Some t)
               | None => get_most_recent_timestamp g
               end ;;
  match get_root_node g with
  | None => Raise ValueError
  | Some r =>
      let not_node := NotOperator r in
      g' <- _add_edge g not_node r (timestamp_data timestamp) false ;;
      _fix_orphan_logical_operators g'
  end.

(** [logical_implication]. *)
Definition logical_implication (g property_graph : TimedPropertyGraph)
    (timestamp : option Timestamp) : Result TimedPropertyGraph :=
  match get_root_node g with
  | None => Raise (Exception "Implication cannot be performed with an empty assumption.")
  | Some r1 =>
      match get_root_node property_graph with
      | None =>
          Raise (Exception "Implication cannot be performed with an empty conclusion.")
      | Some r2 =>
          let impl_node := ImplicationOperator r1 r2 in
          '(assumption_timestamp, conclusion_timestamp) <-
             match timestamp with
             | None =>
                 t1 <- get_most_recent_timestamp g ;;
                 t2 <- get_most_recent_timestamp property_graph ;;
                 Ok (t1, t2)
             | Some t => Ok (Some t, Some t)
             end ;;
          let g1 := set_graph g (add_edges_from (graph g)
                                   (graph_edges (graph property_graph))) in
          g2 <- _add_edge g1 impl_node r1
                  {| timestamp := assumption_timestamp;
                     implication := Some ASSUMPTION_GRAPH |} false ;;
          _add_edge g2 impl_node r2
            {| timestamp := conclusion_timestamp;
               implication := Some CONCLUSION_GRAPH |} false
      end
  end.

(** [get_copy]: a new object, which starts with an empty list of constant
    properties, given the graph, root, time source and text of this one. *)
Definition get_copy (g : TimedPropertyGraph) : TimedPropertyGraph :=
  let copy_obj := TimedPropertyGraph_init (time_source g) in
  {| graph := graph g;
     root_node := root_node g;
     time_source := time_source g;
     property_textual_representation := property_textual_representation g;
     constant_properties := constant_properties copy_obj |}.

(** [_inflate_property_graph_from_subgraph]; [None] stands for the [None]
    the caller may pass, whose length cannot be taken. *)
Definition _inflate_property_graph_from_subgraph (g : TimedPropertyGraph)
    (sub : option MultiDiGraph) : Result (option TimedPropertyGraph) :=
  match sub with
  | None => Raise TypeError
  | Some sg =>
      if Nat.eqb (number_of_nodes sg) 0 then Ok None
      else
        match rev (filter (fun n => Nat.eqb (in_degree sg n) 0) (nodes sg)) with
        | [] => Raise (Exception "Provided subgraph doesn't contain any root node.")
        | r :: _ =>
            Ok (Some {| graph := sg; root_node := Some r;
                        time_source := time_source g;
                        property_textual_representation :=
                          property_textual_representation g;
                        constant_properties := [] |})
        end
  end.

(** [get_top_level_implication_subgraphs]. *)
Definition get_top_level_implication_subgraphs (g : TimedPropertyGraph)
  : Result (option TimedPropertyGraph * option TimedPropertyGraph) :=
  let '(assumption, conclusion) :=
    match root_node g with
    | Some r =>
        if is_kind IMPLIES r
        then fold_left
               (fun ac edge =>
                  let sub := subgraph (graph g)
                               (dfs_postorder_nodes (graph g) (edge_dst edge)) in
                  match implication (edge_data edge) with
                  | Some ASSUMPTION_GRAPH => (Some sub, snd ac)
                  | Some CONCLUSION_GRAPH => (fst ac, Some sub)
                  | None => ac
                  end)
               (out_edges (graph g) r) (None, None)
        else (None, None)
    | None => (None, None)
    end in
  a <- _inflate_property_graph_from_subgraph g assumption ;;
  c <- _inflate_property_graph_from_subgraph g conclusion ;;
  Ok (a, c).

(** [get_present_time_subgraph]; reading [matches] off a missing timestamp
    raises [AttributeError]. *)
Definition present_time_edges (g : TimedPropertyGraph) : Result (list PathEdge) :=
  foldM (fun acc e =>
           match timestamp (edge_data e) with
           | None => Raise AttributeError
           | Some t =>
               if matches (now_of g) t (Absolute (now_of g))
               then Ok (acc ++ [edge_id e]) else Ok acc
           end)
        (graph_edges (graph g)) [].

Definition get_present_time_subgraph (g : TimedPropertyGraph)
  : Result (option TimedPropertyGraph) :=
  es <- present_time_edges g ;;
  let sub := edge_subgraph (graph g) es in
  present_time_graph <- _inflate_property_graph_from_subgraph g (Some sub) ;;
  match present_time_graph with
  | Some pg => pg' <- _fix_orphan_logical_operators pg ;; Ok (Some pg')
  | None => Ok None
  end.

(** [update_path_timestamp]. *)
Definition update_path_timestamp (g : TimedPropertyGraph) (path : Path)
    (new_timestamp : Timestamp) : Result TimedPropertyGraph :=
  foldM (fun g e =>
           gr <- update_edge_data (graph g) (pe_src e) (pe_dst e) (pe_key e)
                   (timestamp_data (Some new_timestamp)) ;;
           Ok (set_graph g gr))
        path g.

(** ** Subgraph containment *)

(** [_fill_paths_with_timestamps] for one path: the timestamp key of every
    edge is read from the graph. *)
Definition fill_path_with_timestamps (g : MultiDiGraph) (p : Path) : Result Path :=
  foldM (fun acc e =>
           match get_edge_data g (pe_src e) (pe_dst e) (pe_key e) with
           | Some d =>
               match timestamp d with
               | Some t => Ok (acc ++ [{| pe_src := pe_src e; pe_dst := pe_dst e;
                                          pe_key := pe_key e;
                                          pe_timestamp := Some t |}])
               | None => Raise KeyError
               end
           | None => Raise TypeError
           end) p [].

Definition _fill_paths_with_timestamps (g : MultiDiGraph) (paths : list Path)
  : Result (list Path) :=
  foldM (fun acc p => p' <- fill_path_with_timestamps g p ;; Ok (acc ++ [p'])) paths [].

(** The module-level [find_path_timestamp]: the oldest timestamp of a path
    of four-tuples. *)
Definition find_path_timestamp (now : Z) (path : Path) : Result Timestamp :=
  match all_some (map pe_timestamp path) with
  | Some ts => py_min now ts
  | None => Raise IndexError
  end.

(** Indexing a Python list: a negative index counts from the end. *)
Definition py_index {A : Type} (l : list A) (i : Z) : Result A :=
  let n := Z.of_nat (List.length l) in
  let j := if i <? 0 then n + i else i in
  if (j <? 0) || (n <=? j) then Raise IndexError
  else match nth_error l (Z.to_nat j) with
       | Some x => Ok x
       | None => Raise IndexError
       end.

Definition _is_skipable_node (n : Node) : bool :=
  is_kind AND n || is_kind NOT n || is_kind IMPLIES n.

(** The inner [while] of [_paths_logically_match]: step back over the
    skipable nodes of the second path. *)
Fixpoint skip_back (fuel : nat) (path2 : Path) (cur_node_2 : Node) (index_2 : Z)
  : Result (Node * Z) :=
  if (0 <=? index_2) && _is_skipable_node cur_node_2
  then match fuel with
       | O => Raise OutOfFuel
       | S f =>
           e <- py_index path2 index_2 ;;
           skip_back f path2 (pe_src e) (index_2 - 1)
       end
  else Ok (cur_node_2, index_2).

(** The outer [while]: the first path is walked from its tail. *)
Fixpoint match_back (rev_path1 : list PathEdge) (path2 : Path) (index_2 : Z)
  : Result bool :=
  match rev_path1 with
  | [] => Ok true
  | e1 :: r =>
      let cur_node_1 := pe_src e1 in
      if _is_skipable_node cur_node_1 then match_back r path2 index_2
      else
        e2 <- py_index path2 index_2 ;;
        '(cur_node_2, index_2') <-
           skip_back (List.length path2) path2 (pe_src e2) (index_2 - 1) ;;
        if (is_logical_operator cur_node_1 && is_logical_operator cur_node_2
            && logically_matches cur_node_1 cur_node_2)
           || node_eqb cur_node_1 cur_node_2
        then match_back r path2 index_2'
        else Ok false
  end.

(** [_paths_logically_match]. *)
Definition _paths_logically_match (path1 path2 : Path) : Result bool :=
  n1 <- count_nots_in_path path1 ;;
  n2 <- count_nots_in_path path2 ;;
  if negb (Nat.eqb (Nat.modulo n1 2) (Nat.modulo n2 2)) then Ok false
  else
    last1 <- py_index path1 (-1) ;;
    last2 <- py_index path2 (-1) ;;
    if negb (node_eqb (pe_dst last1) (pe_dst last2)) then Ok false
    else match_back (rev path1) path2 (Z.of_nat (List.length path2) - 1).

Definition filterM {A : Type} (f : A -> Result bool) (l : list A) : Result (list A) :=
  foldM (fun acc x => b <- f x ;; Ok (if b then acc ++ [x] else acc)) l [].

(** The loop of [_find_equivalent_path_structure] over the paths of the
    other graph.  These come from a generator: a path is given its
    timestamps only when the loop reaches it. *)
Fixpoint match_other_paths (other_graph : MultiDiGraph) (current_paths : list Path)
    (other_paths : list Path) (matched_paths : list Path)
    (matching_groups : list (list Path))
  : Result (list Path * list (list Path) * bool) :=
  match other_paths with
  | [] => Ok (matched_paths, matching_groups, true)
  | p :: r =>
      other_path <- fill_path_with_timestamps other_graph p ;;
      matchings_paths <-
        filterM (fun cur_path => _paths_logically_match cur_path other_path)
                current_paths ;;
      match matchings_paths with
      | [] => Ok ([], [], false)
      | _ :: _ =>
          match_other_paths other_graph current_paths r
            (matched_paths ++ [other_path]) (matching_groups ++ [matchings_paths])
      end
  end.

(** [_find_equivalent_path_structure]. *)
Definition _find_equivalent_path_structure (g other : TimedPropertyGraph)
  : Result (list Path * list (list Path) * bool) :=
  let other_leaves := get_leaves other in
  if negb (forallb (has_node (graph g)) other_leaves) then Ok ([], [], false)
  else
    current_paths <- all_simple_edge_paths (graph g) (get_root_node g) other_leaves ;;
    current_paths <- _fill_paths_with_timestamps (graph g) current_paths ;;
    other_paths <- all_simple_edge_paths (graph other) (get_root_node other)
                     other_leaves ;;
    match_other_paths (graph other) current_paths other_paths [] [].

(** [itertools.product] over the groups. *)
Fixpoint product {A : Type} (groups : list (list A)) : list (list A) :=
  match groups with
  | [] => [[]]
  | g :: r => flat_map (fun x => map (cons x) (product r)) g
  end.

Definition column {A : Type} (i : nat) (rows : list (list A)) : list A :=
  flat_map (fun l => match nth_error l i with Some x => [x] | None => [] end) rows.

(** [zip] of the rows, which have [n] entries each. *)
Definition transpose {A : Type} (n : nat) (rows : list (list A)) : list (list A) :=
  map (fun i => column i rows) (seq 0 n).

(** A row of the table that [find_equivalent_subgraphs] sorts: the timestamp
    of a path of the other graph, that path, and what every case holds for
    it. *)
Record MatchRow : Type := {
  row_original_timestamp : Timestamp;
  row_matched_path : Path;
  row_cases_timestamps : list Timestamp;
  row_cases : list Path
}.

(** [sorted(rows, key=lambda row: row[0])]. *)
Fixpoint insert_oldest_first (now : Z) (x : MatchRow) (l : list MatchRow)
  : list MatchRow :=
  match l with
  | [] => [x]
  | y :: r =>
      if ts_lt now (row_original_timestamp y) (row_original_timestamp x)
      then y :: insert_oldest_first now x r
      else x :: l
  end.

Definition sort_rows (now : Z) (rows : list MatchRow) : list MatchRow :=
  fold_right (insert_oldest_first now) [] rows.

Fixpoint zip_rows (ts : list Timestamp) (ps : list Path)
    (cts : list (list Timestamp)) (cs : list (list Path)) : list MatchRow :=
  match ts, ps, cts, cs with
  | t :: ts', p :: ps', ct :: cts', c :: cs' =>
      {| row_original_timestamp := t; row_matched_path := p;
         row_cases_timestamps := ct; row_cases := c |} :: zip_rows ts' ps' cts' cs'
  | _, _, _, _ => []
  end.

Record EquivalentSubgraphs : Type := {
  matching_cases : list (list Path);
  matched_paths : list Path;
  original_timestamps : list Timestamp;
  matching_cases_timestamps : list (list Timestamp)
}.

Definition no_equivalent_subgraphs : EquivalentSubgraphs :=
  {| matching_cases := []; matched_paths := []; original_timestamps := [];
     matching_cases_timestamps := [] |}.

(** [find_equivalent_subgraphs].  With no path in the other graph the sorted
    table is empty and its first column cannot be taken. *)
Definition find_equivalent_subgraphs (g other : TimedPropertyGraph)
  : Result EquivalentSubgraphs :=
  '(matched, matching_groups, found) <- _find_equivalent_path_structure g other ;;
  if negb found then Ok no_equivalent_subgraphs
  else
    let now := now_of g in
    original <- foldM (fun acc p => t <- find_path_timestamp now p ;; Ok (acc ++ [t]))
                      matched [] ;;
    groups_timestamps <-
      foldM (fun acc group =>
               ts <- foldM (fun acc p => t <- find_path_timestamp now p ;;
                                         Ok (acc ++ [t])) group [] ;;
               Ok (acc ++ [ts]))
            matching_groups [] ;;
    let cases := product matching_groups in
    let cases_timestamps := product groups_timestamps in
    let n := List.length matched in
    let m := List.length cases in
    let sorted := sort_rows now
                    (zip_rows original matched (transpose n cases_timestamps)
                       (transpose n cases)) in
    match sorted with
    | [] => Raise IndexError
    | _ :: _ =>
        let original := map row_original_timestamp sorted in
        let matched := map row_matched_path sorted in
        let cases_timestamps := transpose m (map row_cases_timestamps sorted) in
        let cases := transpose m (map row_cases sorted) in
        let keep :=
          map (fun ct => timestamp_sequences_matches now original ct) cases_timestamps in
        Ok {| matching_cases :=
                map fst (filter snd (combine cases keep));
              matched_paths := matched;
              original_timestamps := original;
              matching_cases_timestamps :=
                map fst (filter snd (combine cases_timestamps keep)) |}
    end.

(** [contains_property_graph]. *)
Definition contains_property_graph (g property_graph : TimedPropertyGraph)
  : Result bool :=
  r <- find_equivalent_subgraphs g property_graph ;;
  Ok (match matching_cases r with [] => false | _ :: _ => true end).

(** [update_subgraph_timestamp]; the warning on several cases leaves no
    trace in the graph. *)
Definition update_subgraph_timestamp (g sub : TimedPropertyGraph)
    (new_timestamp : Timestamp) : Result TimedPropertyGraph :=
  r <- find_equivalent_subgraphs g sub ;;
  match matching_cases r with
  | [] =>
      Raise (RuntimeError
               "Failed to update timestamps of given subgraph: subgraph not found.")
  | case_to_update :: _ =>
      foldM (fun g path => update_path_timestamp g path new_timestamp)
            case_to_update g
  end.

(** ** Modus ponens *)

(** [TimedPropertyGraph.ModusPonensApplication]; the graph it was generated
    on is the graph [apply_modus_ponens] is called on. *)
Record ModusPonensApplication : Type := {
  implication_graph : TimedPropertyGraph;
  matching_paths : list Path;
  matching_paths_timestamps : list Timestamp
}.

(** [find_all_possible_modus_ponens]. *)
Definition find_all_possible_modus_ponens (g implication_graph : TimedPropertyGraph)
  : Result (list ModusPonensApplication) :=
  '(assumption, conclusion) <- get_top_level_implication_subgraphs implication_graph ;;
  match assumption with
  | None => Raise AttributeError
  | Some assumption =>
      r <- find_equivalent_subgraphs g assumption ;;
      Ok (map (fun ct =>
                 {| implication_graph := implication_graph;
                    matching_paths := fst ct;
                    matching_paths_timestamps := snd ct |})
              (combine (matching_cases r) (matching_cases_timestamps r)))
  end.











(** ** Graphs used in the examples *)

Definition clock (t : Z) : TimeSource := {| get_current_time := t |}.

(** An observed event, as the monitor builds it: the predicate graph with
    every edge stamped. *)
Definition event_graph (now : Z) (predicate : string) (args : list Node)
    (t : Timestamp) : Result TimedPropertyGraph :=
  g <- PredicateGraph (clock now) predicate args ;;
  Ok (set_timestamp g t).

Definition var_x : Node := MonitoredVariable "x".
Definition var_y : Node := MonitoredVariable "y".

(** The property [A(x) => B(y)], the edges of [A] stamped [Relative da] and
    those of [B] stamped [Relative db]. *)
Definition property_A_implies_B (now da db : Z) : Result TimedPropertyGraph :=
  a <- event_graph now "A" [var_x] (Relative da) ;;
  b <- event_graph now "B" [var_y] (Relative db) ;;
  logical_implication a b None.




(** [p(x)] asserted at tick 1 and [not p(x)] at tick 2 on an execution graph
    that carries the constant property. *)
Definition p_at (now t : Z) : Result TimedPropertyGraph :=
  event_graph now "p" [var_x] (Absolute t).



(** A graph with three paths through [p(x)]: negated at tick 3, plain at
    tick 2, negated at tick 1. *)
Definition node_p : Node := predicate_node "p" [var_x].

Definition stamped_edge (u v : Node) (k : nat) (t : Z) : Edge :=
  {| edge_src := u; edge_dst := v; edge_key := k;
     edge_data := timestamp_data (Some (Absolute t)) |}.


(** A graph built with the public operations whose present-time subgraph has
    a [NOT] node with two parents: [not (not q and s(v))] and [not q], all
    edges at tick 1 but those of [s(v)], which are at tick 5. *)
Definition not_q : Result TimedPropertyGraph :=
  q <- PredicateGraph (clock 1) "q" [] ;;
  logical_not q (Some (Absolute 1)).

Definition shared_not_graph : Result TimedPropertyGraph :=
  a <- not_q ;;
  s <- event_graph 1 "s" [MonitoredVariable "v"] (Absolute 5) ;;
  a <- logical_and a s None ;;
  a <- logical_not a (Some (Absolute 1)) ;;
  b <- not_q ;;
  logical_and a b (Some (Absolute 1)).

(** Two events of the same predicate [p(x)], at ticks [t1] and [t2]. *)
Definition p_and_p (now t1 t2 : Z) : Result TimedPropertyGraph :=
  a <- p_at now t1 ;;
  b <- p_at now t2 ;;
  logical_and a b None.

(** [p(x)] at tick 1 and [q(y)] at tick 5, seen at tick 1. *)
Definition p_at_1_and_q_at_5 : Result TimedPropertyGraph :=
  a <- p_at 1 1 ;;
  b <- event_graph 1 "q" [var_y] (Absolute 5) ;;
  logical_and a b None.

(** The graph induced by the present-time edges, before it is cleaned. *)
Definition present_time_induced (g : TimedPropertyGraph)
  : Result (option TimedPropertyGraph) :=
  es <- present_time_edges g ;;
  _inflate_property_graph_from_subgraph g (Some (edge_subgraph (graph g) es)).

(** Every edge of the graph carries a timestamp. *)
Definition stamped (g : MultiDiGraph) : Prop :=
  forall e, In e (edges g) -> timestamp (edge_data e) <> None.

(** The value of a result that is known to be [Ok]. *)
Definition value_or {A : Type} (default : A) (r : Result A) : A :=
  match r with Ok a => a | Raise _ => default end.

Definition graph_A_at_10 : TimedPropertyGraph :=
  Eval vm_compute in
    value_or (TimedPropertyGraph_init (clock 10))
      (event_graph 10 "A" [var_x] (Absolute 10)).


(** The present-time subgraph of [shared_not_graph] as it is handed to the
    clean-up, and what one and two rounds of clean-up make of it. *)
Definition shared_not_present : TimedPropertyGraph :=
  Eval vm_compute in
    value_or (TimedPropertyGraph_init (clock 1))
      (g <- shared_not_graph ;;
       r <- present_time_induced g ;;
       match r with Some s => Ok s | None => Raise ValueError end).

Definition shared_not_cleaned_once : TimedPropertyGraph :=
  Eval vm_compute in
    value_or (TimedPropertyGraph_init (clock 1))
      (_fix_orphan_logical_operators shared_not_present).

Definition shared_not_cleaned_twice : TimedPropertyGraph :=
  Eval vm_compute in
    value_or (TimedPropertyGraph_init (clock 1))
      (_fix_orphan_logical_operators shared_not_cleaned_once).

(** An [AND] node with fewer than two out-edges, and an edge from a [NOT]
    node to a [NOT] node. *)
Definition has_orphan_and (g : MultiDiGraph) : bool :=
  existsb (fun n => is_kind AND n && Nat.ltb (out_degree g n) 2) (nodes g).

Definition has_sequential_nots (g : MultiDiGraph) : bool :=
  existsb (fun e => is_kind NOT (edge_src e) && is_kind NOT (edge_dst e)) (edges g).

(** The predicate nodes of a graph, in the order of the node list. *)
Definition predicate_nodes (g : MultiDiGraph) : list Node :=
  filter is_predicate (nodes g).

(** Every edge joins nodes of the graph, and a root that is a predicate is
    one of its nodes. *)
Definition endpoints_in_nodes (g : MultiDiGraph) : Prop :=
  forall e, In e (edges g) -> In (edge_src e) (nodes g) /\ In (edge_dst e) (nodes g).

Definition predicate_root_in_nodes (g : TimedPropertyGraph) : Prop :=
  forall r, root_node g = Some r -> is_predicate r = true -> In r (nodes (graph g)).

Definition well_formed (g : TimedPropertyGraph) : Prop :=
  endpoints_in_nodes (graph g) /\ predicate_root_in_nodes g.

(** [g'] is well formed and has the predicate nodes of [g]. *)
Definition keeps_predicates (g g' : TimedPropertyGraph) : Prop :=
  well_formed g' /\ predicate_nodes (graph g') = predicate_nodes (graph g).








Definition node_B : Node := predicate_node "B" [var_y].



(** An edge whose timestamp matches the present time of the graph's time
    source. *)
Definition matches_present (g : TimedPropertyGraph) (e : Edge) : bool :=
  match timestamp (edge_data e) with
  | Some t => matches (now_of g) t (Absolute (now_of g))
  | None => false
  end.

(** No two edges of the graph have the same end points and key. *)
Definition distinct_edges (g : MultiDiGraph) : Prop :=
  NoDup (map (fun e => (edge_src e, edge_dst e, edge_key e)) (edges g)).

(** [p(x)] at tick 1 and [q(y)] at tick 5, seen at tick 1: the graph, the
    graph induced by its present-time edges, and its present-time subgraph. *)
Definition graph_p_at_1_and_q_at_5 : TimedPropertyGraph :=
  Eval vm_compute in
    value_or (TimedPropertyGraph_init (clock 1)) p_at_1_and_q_at_5.

Definition induced_p_at_1 : TimedPropertyGraph :=
  Eval vm_compute in
    value_or (TimedPropertyGraph_init (clock 1))
      (r <- present_time_induced graph_p_at_1_and_q_at_5 ;;
       match r with Some s => Ok s | None => Raise ValueError end).

Definition present_p_at_1 : TimedPropertyGraph :=
  Eval vm_compute in
    value_or (TimedPropertyGraph_init (clock 1))
      (r <- get_present_time_subgraph graph_p_at_1_and_q_at_5 ;;
       match r with Some s => Ok s | None => Raise ValueError end).

(** A graph all of whose edges are stamped one tick into the future. *)
Definition graph_p_in_the_future : TimedPropertyGraph :=
  Eval vm_compute in
    value_or (TimedPropertyGraph_init (clock 1))
      (event_graph 1 "p" [var_x] (Relative 1)).







(** [p(x)] at tick 1 and [p(x)] at tick 2, conjoined in the two orders. *)
Definition graph_p1_and_p2 : TimedPropertyGraph :=
  Eval vm_compute in value_or (TimedPropertyGraph_init (clock 2)) (p_and_p 2 1 2).


Definition graph_p_at_2 : TimedPropertyGraph :=
  Eval vm_compute in value_or (TimedPropertyGraph_init (clock 2)) (p_at 2 2).

(** Two events of [p(x)] at tick 1, conjoined: two occurrences of [p(x)]
    under one [AND] node, which share the edge from [p(x)] to [x]. *)
Definition graph_p_and_p : TimedPropertyGraph :=
  Eval vm_compute in value_or (TimedPropertyGraph_init (clock 1)) (p_and_p 1 1 1).

Definition graph_p_alone : TimedPropertyGraph :=
  Eval vm_compute in value_or (TimedPropertyGraph_init (clock 1)) (p_at 1 1).

Definition node_and_p_p : Node := AndOperator node_p node_p.

Definition path_edge (u v : Node) (k : nat) (t : Z) : PathEdge :=
  {| pe_src := u; pe_dst := v; pe_key := k; pe_timestamp := Some (Absolute t) |}.

Definition first_occurrence : Path :=
  [path_edge node_and_p_p node_p 0 1; path_edge node_p var_x 0 1].

Definition second_occurrence : Path :=
  [path_edge node_and_p_p node_p 1 1; path_edge node_p var_x 0 1].

Definition graph_p_and_p_updated : TimedPropertyGraph :=
  Eval vm_compute in
    value_or (TimedPropertyGraph_init (clock 1))
      (update_subgraph_timestamp graph_p_and_p graph_p_alone (Absolute 0)).

(** The edge [e] with its timestamp set to [t] when it lies on one of the
    paths [done]. *)
Definition restamp (done : list PathEdge) (t : Timestamp) (e : Edge) : Edge :=
  if in_path done e
  then {| edge_src := edge_src e; edge_dst := edge_dst e; edge_key := edge_key e;
          edge_data := {| timestamp := Some t;
                          implication := implication (edge_data e) |} |}
  else e.


(** ** Further operations of the graph *)

(** A string without a space. *)
Fixpoint no_space (s : string) : Prop :=
  match s with
  | EmptyString => True
  | String c r => c <> " "%char /\ no_space r
  end.

(** [is_uniform_timestamped].  Without a timestamp given, the one of the
    first edge is taken, which a graph without edges has not; a missing
    timestamp has no [is_absolute].  The inequality of two relative
    timestamps is that of their offsets. *)
Fixpoint uniform_loop (now : Z) (timestamp : Timestamp)
    (edge_timestamps : list (option Timestamp)) : Result bool :=
  match edge_timestamps with
  | [] => Ok true
  | None :: _ => Raise AttributeError
  | Some t :: r =>
      if negb (Bool.eqb (is_absolute timestamp) (is_absolute t)) then Ok false
      else if is_absolute timestamp
              && negb (get_absolute_value now timestamp =? get_absolute_value now t)
      then Ok false
      else if negb (is_absolute timestamp)
              && negb (if Timestamp_eq_dec timestamp t then true else false)
      then Ok false
      else uniform_loop now timestamp r
  end.

Definition is_uniform_timestamped (g : TimedPropertyGraph)
    (given : option Timestamp) : Result bool :=
  let edge_timestamps :=
    map (fun e => timestamp (edge_data e)) (graph_edges (graph g)) in
  match given with
  | Some t => uniform_loop (now_of g) t edge_timestamps
  | None =>
      match edge_timestamps with
      | [] => Raise IndexError
      | None :: _ => Raise AttributeError
      | Some t :: _ => uniform_loop (now_of g) t edge_timestamps
      end
  end.

(** [is_implication_graph].  The out-degree of a node that is not in the
    graph is a view, which is not compared with a number. *)
Definition is_implication_graph (g : TimedPropertyGraph) : Result bool :=
  match root_node g with
  | Some r =>
      if is_kind IMPLIES r
      then if has_node (graph g) r
           then Ok (Nat.ltb 1 (out_degree (graph g) r))
           else Raise TypeError
      else Ok false
  | None => Ok false
  end.

(** [_get_top_level_implication_edges]: of the edges out of the root, the
    last one tagged as assumption and the last one tagged as conclusion.  With
    no root the edges are those of the whole graph; a root that is not in the
    graph is refused by [networkx], whose error is rendered as an [Exception]
    with its message. *)
Definition _get_top_level_implication_edges (g : TimedPropertyGraph)
  : Result (option Edge * option Edge) :=
  root_edges <- match get_root_node g with
                | None => Ok (graph_edges (graph g))
                | Some r =>
                    if has_node (graph g) r then Ok (out_edges (graph g) r)
                    else Raise (Exception "nbunch is not a node or a sequence of nodes.")
                end ;;
  Ok (fold_left
        (fun ac e =>
           match implication (edge_data e) with
           | Some ASSUMPTION_GRAPH => (Some e, snd ac)
           | Some CONCLUSION_GRAPH => (fst ac, Some e)
           | None => ac
           end)
        root_edges (None, None)).

(** [G.edges[u, v, k][IMPLICATION_PROPERTY_NAME] = part]. *)
Definition set_implication (g : MultiDiGraph) (e : Edge) (part : ImplicationPart)
  : Result MultiDiGraph :=
  update_edge_data g (edge_src e) (edge_dst e) (edge_key e)
    {| timestamp := None; implication := Some part |}.

(** [switch_implication_parts]; an edge that was not found is [None], which
    cannot be indexed. *)
Definition switch_implication_parts (g : TimedPropertyGraph)
  : Result TimedPropertyGraph :=
  if match get_root_node g with Some r => is_kind IMPLIES r | None => false end
  then
    '(assumption_edge, conclusion_edge) <- _get_top_level_implication_edges g ;;
    match assumption_edge with
    | None => Raise TypeError
    | Some a =>
        g1 <- set_implication (graph g) a CONCLUSION_GRAPH ;;
        match conclusion_edge with
        | None => Raise TypeError
        | Some c =>
            g2 <- set_implication g1 c ASSUMPTION_GRAPH ;;
            Ok (set_graph g g2)
        end
    end
  else Raise (RuntimeError "Cannot switch implication parts on non implication graph.").

(** [get_all_paths]. *)
Definition get_all_paths (g : TimedPropertyGraph) : Result (list TimestampedPath) :=
  paths <- all_simple_edge_paths (graph g) (get_root_node g) (get_leaves g) ;;
  foldM (fun acc p =>
           t <- graph_find_path_timestamp g p ;;
           Ok (acc ++ [{| tp_path := p; tp_timestamp := t |}]))
        paths [].

(** A path whose edges follow one another, from the node [u] on. *)
Fixpoint connected_from (u : Node) (p : Path) : Prop :=
  match p with
  | [] => True
  | e :: r => pe_src e = u /\ connected_from (pe_dst e) r
  end.

(** The nodes a path visits from [u] on. *)
Definition visited_nodes (u : Node) (p : Path) : list Node := u :: map pe_dst p.

(** The property [A(x) => B(y)] with [B] three ticks after [A]: its two
    operands, the graph, and the two parts the graph is split into. *)
Definition graph_A_relative : TimedPropertyGraph :=
  Eval vm_compute in
    value_or (TimedPropertyGraph_init (clock 10))
      (event_graph 10 "A" [var_x] (Relative 0)).

Definition graph_B_relative : TimedPropertyGraph :=
  Eval vm_compute in
    value_or (TimedPropertyGraph_init (clock 10))
      (event_graph 10 "B" [var_y] (Relative 3)).

Definition graph_A_implies_B : TimedPropertyGraph :=
  Eval vm_compute in
    value_or (TimedPropertyGraph_init (clock 10)) (property_A_implies_B 10 0 3).

Definition assumption_of_A_implies_B : TimedPropertyGraph :=
  Eval vm_compute in
    match get_top_level_implication_subgraphs graph_A_implies_B with
    | Ok (Some a, _) => a
    | _ => TimedPropertyGraph_init (clock 10)
    end.

Definition conclusion_of_A_implies_B : TimedPropertyGraph :=
  Eval vm_compute in
    match get_top_level_implication_subgraphs graph_A_implies_B with
    | Ok (_, Some c) => c
    | _ => TimedPropertyGraph_init (clock 10)
    end.

(** Every node of [S] is one of [seen] or has an in-edge from a node of [S]. *)
Definition reached_from (g : MultiDiGraph) (seen S : list Node) : Prop :=
  forall m, In m S ->
    In m seen \/ exists e, In e (edges g) /\ edge_dst e = m /\ In (edge_src e) S.

(** A result that is not the exhaustion of a loop bound. *)
Definition within_bound {A : Type} (r : Result A) : Prop := r <> Raise OutOfFuel.

(** The graph of [not (p(x) and q(y))], negated at tick 1, its predicates
    stamped at tick 5, seen at tick 1: at the present time the [AND] node is
    a leaf. *)
Definition not_p_and_q : Result TimedPropertyGraph :=
  a <- event_graph 1 "p" [var_x] (Absolute 5) ;;
  b <- event_graph 1 "q" [var_y] (Absolute 5) ;;
  a <- logical_and a b None ;;
  logical_not a (Some (Absolute 1)).

Definition graph_not_p_and_q_present : TimedPropertyGraph :=
  Eval vm_compute in
    value_or (TimedPropertyGraph_init (clock 1))
      (g <- not_p_and_q ;;
       r <- present_time_induced g ;;
       match r with Some s => Ok s | None => Raise ValueError end).

(** The path ends at one of the nodes [targets]. *)
Definition ends_in (targets : list Node) (p : Path) : Prop :=
  exists l last, p = l ++ [last] /\ In (pe_dst last) targets.

(** Every edge of the path is an edge of the graph. *)
Definition path_in_graph (g : MultiDiGraph) (p : Path) : Prop :=
  forall x, In x p ->
    existsb (is_edge (pe_src x) (pe_dst x) (pe_key x)) (edges g) = true.

(** The timestamp [find_path_timestamp] gives a path of four-tuples on which
    it returns. *)
Definition timestamp_of_path (now : Z) (p : Path) : Timestamp :=
  value_or (Absolute 0) (find_path_timestamp now p).

(** The first timestamp is not after the second one. *)
Definition not_after (now : Z) (a b : Timestamp) : Prop :=
  get_absolute_value now a <= get_absolute_value now b.

(** The edges of a path that [_paths_logically_match] compares: those whose
    source is not an operator it skips. *)
Definition plain_source (e : PathEdge) : bool := negb (_is_skipable_node (pe_src e)).

(** [_get_assumption_conclusion_edges_timestamps]: the timestamps of the
    tagged edges of an implication root; the last edge of a tag wins.  As in
    [_get_top_level_implication_edges], a root that is not in the graph is
    refused by [networkx]. *)
Definition _get_assumption_conclusion_edges_timestamps (g : TimedPropertyGraph)
  : Result (option Timestamp * option Timestamp) :=
  match get_root_node g with
  | Some r =>
      if is_kind IMPLIES r
      then
        if has_node (graph g) r
        then Ok (fold_left
                   (fun ac e =>
                      match implication (edge_data e) with
                      | Some ASSUMPTION_GRAPH => (timestamp (edge_data e), snd ac)
                      | Some CONCLUSION_GRAPH => (fst ac, timestamp (edge_data e))
                      | None => ac
                      end)
                   (out_edges (graph g) r) (None, None))
        else Raise (Exception "nbunch is not a node or a sequence of nodes.")
      else Ok (None, None)
  | None => Ok (None, None)
  end.

(** * Properties *)

(** ** Basic facts about nodes, results and edge lists *)

Lemma node_eqb_eq (a b : Node) : node_eqb a b = true <-> a = b.
Proof.
  unfold node_eqb. destruct (Node_eq_dec a b); split; congruence.
Qed.

Lemma node_eqb_refl (a : Node) : node_eqb a a = true.
Proof. apply node_eqb_eq. reflexivity. Qed.

Lemma node_eqb_neq (a b : Node) : node_eqb a b = false <-> a <> b.
Proof.
  unfold node_eqb. destruct (Node_eq_dec a b); split; congruence.
Qed.

Lemma bind_ok {A B : Type} (c : Result A) (k : A -> Result B) (b : B) :
  bind c k = Ok b -> exists a, c = Ok a /\ k a = Ok b.
Proof.
  destruct c as [a|e]; simpl; intros H; [exists a; auto | discriminate].
Qed.

Lemma is_edge_src (u v : Node) (k : nat) (e : Edge) :
  is_edge u v k e = true -> edge_src e = u /\ edge_dst e = v /\ edge_key e = k.
Proof.
  unfold is_edge, same_pair. intros H.
  apply andb_true_iff in H. destruct H as [H Hk].
  apply andb_true_iff in H. destruct H as [Hs Hd].
  apply node_eqb_eq in Hs. apply node_eqb_eq in Hd. apply Nat.eqb_eq in Hk.
  auto.
Qed.

Lemma is_edge_self (e : Edge) :
  is_edge (edge_src e) (edge_dst e) (edge_key e) e = true.
Proof.
  unfold is_edge, same_pair. rewrite !node_eqb_refl, Nat.eqb_refl. reflexivity.
Qed.

Lemma filter_nil_forall {A : Type} (P : A -> bool) (l : list A) :
  filter P l = [] -> forall x, In x l -> P x = false.
Proof.
  induction l as [|a l IH]; simpl; intros H x Hx; [contradiction|].
  destruct (P a) eqn:Ha; [discriminate|].
  destruct Hx as [<-|Hx]; auto.
Qed.

Lemma filter_all_false {A : Type} (P : A -> bool) (l : list A) :
  (forall x, In x l -> P x = false) -> filter P l = [].
Proof.
  induction l as [|a l IH]; simpl; intros H; [reflexivity|].
  rewrite (H a (or_introl eq_refl)). apply IH. intros x Hx. apply H. now right.
Qed.

Lemma filter_map_fixed {A : Type} (P : A -> bool) (f : A -> A) (l : list A) :
  (forall x, P (f x) = P x) -> (forall x, P x = true -> f x = x) ->
  filter P (map f l) = filter P l.
Proof.
  intros HP Hf. induction l as [|a l IH]; simpl; [reflexivity|].
  rewrite HP. destruct (P a) eqn:Ha; rewrite IH; [rewrite (Hf a Ha)|]; reflexivity.
Qed.

(** Where [insert_edge] puts the new edge does not matter to membership or
    to counting. *)
Lemma insert_edge_In (e x : Edge) (l : list Edge) :
  In x (insert_edge e l) <-> x = e \/ In x l.
Proof.
  induction l as [|a l IH]; simpl.
  - intuition.
  - destruct (same_pair (edge_src e) (edge_dst e) a
              && negb (existsb (same_pair (edge_src e) (edge_dst e)) l)); simpl.
    + intuition.
    + rewrite IH. intuition.
Qed.


Lemma insert_edge_filter_other (P : Edge -> bool) (e : Edge) (l : list Edge) :
  P e = false -> filter P (insert_edge e l) = filter P l.
Proof.
  intros He. induction l as [|a l IH]; simpl.
  - rewrite He. reflexivity.
  - destruct (same_pair (edge_src e) (edge_dst e) a
              && negb (existsb (same_pair (edge_src e) (edge_dst e)) l)); simpl.
    + rewrite He. reflexivity.
    + rewrite IH. reflexivity.
Qed.

Lemma update_edge_src (u v : Node) (k : nat) (d : EdgeData) (e : Edge) :
  edge_src (update_edge u v k d e) = edge_src e
  /\ edge_dst (update_edge u v k d e) = edge_dst e
  /\ edge_key (update_edge u v k d e) = edge_key e.
Proof. unfold update_edge. destruct (is_edge u v k e); simpl; auto. Qed.

(** Adding an edge that leaves from [u] does not change the edges that
    leave from another node. *)
Lemma out_edges_add_edge_other (g : MultiDiGraph) (u v n : Node)
    (key : option nat) (d : EdgeData) :
  u <> n -> out_edges (add_edge g u v key d) n = out_edges g n.
Proof.
  intros Hne. unfold out_edges, add_edge. simpl.
  destruct (existsb _ (edges g)).
  - apply filter_map_fixed.
    + intros x. destruct (update_edge_src u v
        (match key with Some k => k | None => new_edge_key g u v end) d x) as [-> _].
      reflexivity.
    + intros x Hx. unfold update_edge.
      destruct (is_edge u v _ x) eqn:Hi; [|reflexivity].
      apply is_edge_src in Hi. destruct Hi as [Hs _].
      apply node_eqb_eq in Hx. congruence.
  - apply insert_edge_filter_other. simpl. apply node_eqb_neq. exact Hne.
Qed.

Lemma out_edges_add_edges_from (g : MultiDiGraph) (es : list Edge) (n : Node) :
  (forall e, In e es -> edge_src e <> n) ->
  out_edges (add_edges_from g es) n = out_edges g n.
Proof.
  unfold add_edges_from. revert g.
  induction es as [|e es IH]; simpl; intros g H; [reflexivity|].
  rewrite IH.
  - apply out_edges_add_edge_other. apply H. now left.
  - intros x Hx. apply H. now right.
Qed.

Lemma graph_edges_incl (g : MultiDiGraph) (e : Edge) :
  In e (graph_edges g) -> In e (edges g).
Proof.
  unfold graph_edges. rewrite in_flat_map. intros [n [_ H]].
  unfold out_edges in H. apply filter_In in H. tauto.
Qed.

Lemma out_edges_nil_src (g : MultiDiGraph) (n : Node) :
  out_edges g n = [] -> forall e, In e (edges g) -> edge_src e <> n.
Proof.
  intros H e He Heq.
  pose proof (filter_nil_forall _ _ H e He) as Hf. simpl in Hf.
  rewrite Heq, node_eqb_refl in Hf. discriminate.
Qed.

(** ** Timestamps of a stamped graph *)

Lemma all_some_map_stamped (l : list Edge) :
  (forall e, In e l -> timestamp (edge_data e) <> None) ->
  exists ts, all_some (map (fun e => timestamp (edge_data e)) l) = Some ts
             /\ List.length ts = List.length l.
Proof.
  induction l as [|a l IH]; simpl; intros H.
  - exists []. auto.
  - destruct (timestamp (edge_data a)) eqn:Ha.
    + destruct IH as [ts [Hts Hlen]]; [intros e He; apply H; now right|].
      rewrite Hts. simpl. exists (t :: ts). simpl. auto.
    + exfalso. apply (H a); auto.
Qed.

Lemma get_most_recent_timestamp_ok (g : TimedPropertyGraph) :
  stamped (graph g) -> exists t, get_most_recent_timestamp g = Ok t.
Proof.
  intros Hs. unfold get_most_recent_timestamp.
  destruct (all_some_map_stamped (graph_edges (graph g))) as [ts [Hts Hlen]].
  { intros e He. apply Hs. apply graph_edges_incl. exact He. }
  destruct (graph_edges (graph g)) as [|a l]; simpl in *; [eauto|].
  unfold py_max_opt. destruct l as [|b l]; simpl in *; [eauto|].
  rewrite Hts.
  destruct ts as [|t ts]; simpl in *; [discriminate|]. eauto.
Qed.

(** ** New edge keys *)

Lemma next_free_spec (keys : list nat) (fuel k : nat) :
  existsb (Nat.eqb (next_free keys k fuel)) keys = false
  \/ (forall i, (k <= i < k + fuel)%nat -> In i keys).
Proof.
  revert k. induction fuel as [|f IH]; simpl; intros k.
  - right. intros i Hi. lia.
  - destruct (existsb (Nat.eqb k) keys) eqn:Hk.
    + destruct (IH (S k)) as [H|H]; [left; exact H|].
      right. intros i Hi.
      destruct (Nat.eq_dec i k) as [->|Hne].
      * apply existsb_exists in Hk. destruct Hk as [x [Hx Hxk]].
        apply Nat.eqb_eq in Hxk. subst x. exact Hx.
      * apply H. lia.
    + left. exact Hk.
Qed.

Lemma next_free_fresh (keys : list nat) (k : nat) :
  existsb (Nat.eqb (next_free keys k (S (List.length keys)))) keys = false.
Proof.
  destruct (next_free_spec keys (S (List.length keys)) k) as [H|H]; [exact H|].
  exfalso.
  assert (Hincl : incl (seq k (S (List.length keys))) keys).
  { intros i Hi. apply in_seq in Hi. apply H. lia. }
  pose proof (NoDup_incl_length (seq_NoDup _ _) Hincl) as Hlen.
  rewrite length_seq in Hlen. lia.
Qed.

(** [add_edge] without a key never meets an edge of that key. *)
Lemma new_edge_key_fresh (g : MultiDiGraph) (u v : Node) :
  existsb (is_edge u v (new_edge_key g u v)) (edges g) = false.
Proof.
  destruct (existsb _ (edges g)) eqn:H; [|reflexivity].
  apply existsb_exists in H. destruct H as [e [He Hi]].
  pose proof (next_free_fresh (map edge_key (keydict g u v))
                (List.length (map edge_key (keydict g u v)))) as Hf.
  fold (new_edge_key g u v) in Hf.
  assert (Hin : In (edge_key e) (map edge_key (keydict g u v))).
  { apply in_map. unfold keydict. apply filter_In. split; [exact He|].
    unfold is_edge in Hi. apply andb_true_iff in Hi. tauto. }
  apply is_edge_src in Hi. destruct Hi as [_ [_ Hk]].
  assert (Ht : existsb (Nat.eqb (new_edge_key g u v))
                 (map edge_key (keydict g u v)) = true).
  { apply existsb_exists. exists (edge_key e). split; [exact Hin|].
    apply Nat.eqb_eq. congruence. }
  congruence.
Qed.

Lemma add_edge_new_edges (g : MultiDiGraph) (u v : Node) (d : EdgeData) :
  edges (add_edge g u v None d)
  = insert_edge {| edge_src := u; edge_dst := v;
                   edge_key := new_edge_key g u v; edge_data := d |} (edges g).
Proof.
  unfold add_edge. simpl. rewrite new_edge_key_fresh. reflexivity.
Qed.




(** [_add_edge] that does not update an existing edge cannot fail. *)
Lemma _add_edge_new (g : TimedPropertyGraph) (u v : Node) (d : EdgeData) :
  _add_edge g u v d false
  = Ok (set_root_node (set_graph g (add_edge (graph g) u v None d))
          (match get_root_node g with
           | None => Some u
           | Some r => if node_eqb v r then Some u else Some r
           end)).
Proof. reflexivity. Qed.

(** ** Copies *)

(** C10.  The copy returned by [get_copy] has the root node, the time source,
    the textual representation and the edge multigraph of the graph it was
    taken from, and an empty list of constant properties: a constant property
    registered on the original is not carried over, so that applying all
    constant properties of the copy changes nothing. *)
Theorem get_copy_drops_constant_properties (g : TimedPropertyGraph) :
  root_node (get_copy g) = root_node g
  /\ time_source (get_copy g) = time_source g
  /\ property_textual_representation (get_copy g) = property_textual_representation g
  /\ graph (get_copy g) = graph g
  /\ constant_properties (get_copy g) = []
  /\ (forall c, get_copy (add_constant_property g c) = get_copy g)
  /\ _apply_all_constant_properties (get_copy g) = Ok (get_copy g).
Proof.
  repeat split.
Qed.

(** ** Implication *)

Lemma out_degree_zero_nil (g : MultiDiGraph) (n : Node) :
  out_degree g n = 0%nat -> out_edges g n = [].
Proof. unfold out_degree. apply length_zero_iff_nil. Qed.




(** ** Normalization *)

(** C4.  The clean-up of orphan operators does not always leave a graph
    without orphan [AND] nodes, and is not idempotent.  The graph
    [shared_not_graph] is built with [logical_not] and [logical_and]; its
    present-time subgraph has every [AND] node with two out-edges or one (the
    inner one, which the clean-up has to splice out) and a [NOT] node that is
    the child both of the root [AND] and, once the inner [AND] is spliced
    out, of another [NOT].  Collapsing the two [NOT] nodes removes the shared
    one together with the edge from the root, which is left with a single
    out-edge; a second clean-up then removes this root. *)
Theorem fix_orphan_logical_operators_leaves_orphan_and :
  (g <- shared_not_graph ;; present_time_induced g) = Ok (Some shared_not_present)
  /\ (g <- shared_not_graph ;; get_present_time_subgraph g)
     = Ok (Some shared_not_cleaned_once)
  /\ _fix_orphan_logical_operators shared_not_present = Ok shared_not_cleaned_once
  /\ has_orphan_and (graph shared_not_cleaned_once) = true
  /\ out_degree (graph shared_not_cleaned_once)
       (LogicalOperator AND "NOTNOTq()ANDs(v)ANDNOTq()" None) = 1%nat
  /\ _fix_orphan_logical_operators shared_not_cleaned_once
     = Ok shared_not_cleaned_twice
  /\ shared_not_cleaned_twice <> shared_not_cleaned_once.
Proof.
  repeat split; try (vm_compute; reflexivity).
  intros H. apply (f_equal root_node) in H. vm_compute in H. discriminate.
Qed.

(** ** Predicate nodes are kept by the clean-up *)

Lemma mem_node_In (n : Node) (l : list Node) : mem_node n l = true <-> In n l.
Proof.
  unfold mem_node. rewrite existsb_exists. split.
  - intros [x [Hx He]]. apply node_eqb_eq in He. subst. exact Hx.
  - intros H. exists n. split; [exact H | apply node_eqb_refl].
Qed.

Lemma nodes_add_node (g : MultiDiGraph) (n : Node) :
  nodes (add_node g n) = if has_node g n then nodes g else nodes g ++ [n].
Proof. unfold add_node. destruct (has_node g n); reflexivity. Qed.

Lemma edges_add_node (g : MultiDiGraph) (n : Node) : edges (add_node g n) = edges g.
Proof. unfold add_node. destruct (has_node g n); reflexivity. Qed.

Lemma In_nodes_add_node (g : MultiDiGraph) (n m : Node) :
  In m (nodes (add_node g n)) <-> m = n \/ In m (nodes g).
Proof.
  rewrite nodes_add_node. destruct (has_node g n) eqn:H.
  - apply mem_node_In in H. split; [auto | intros [->|]; auto].
  - rewrite in_app_iff. simpl. intuition.
Qed.

Lemma predicate_nodes_add_node (g : MultiDiGraph) (n : Node) :
  (is_predicate n = true -> In n (nodes g)) ->
  predicate_nodes (add_node g n) = predicate_nodes g.
Proof.
  intros H. unfold predicate_nodes. rewrite nodes_add_node.
  destruct (has_node g n) eqn:Hn; [reflexivity|].
  rewrite filter_app. simpl. destruct (is_predicate n) eqn:Hp.
  - specialize (H eq_refl). apply mem_node_In in H.
    unfold has_node in Hn. congruence.
  - apply app_nil_r.
Qed.

Lemma In_nodes_add_edge (g : MultiDiGraph) (u v : Node) (k : option nat)
    (d : EdgeData) (m : Node) :
  In m (nodes (add_edge g u v k d)) <-> m = u \/ m = v \/ In m (nodes g).
Proof.
  unfold add_edge. simpl. rewrite !In_nodes_add_node. intuition.
Qed.

Lemma predicate_nodes_add_edge (g : MultiDiGraph) (u v : Node) (k : option nat)
    (d : EdgeData) :
  (is_predicate u = true -> In u (nodes g)) ->
  (is_predicate v = true -> In v (nodes g)) ->
  predicate_nodes (add_edge g u v k d) = predicate_nodes g.
Proof.
  intros Hu Hv.
  change (predicate_nodes (add_edge g u v k d))
    with (predicate_nodes (add_node (add_node g u) v)).
  rewrite predicate_nodes_add_node.
  - apply predicate_nodes_add_node. exact Hu.
  - intros H. apply In_nodes_add_node. right. auto.
Qed.

Lemma endpoints_in_nodes_add_edge (g : MultiDiGraph) (u v : Node) (k : option nat)
    (d : EdgeData) :
  endpoints_in_nodes g -> endpoints_in_nodes (add_edge g u v k d).
Proof.
  intros Hg e He. rewrite !In_nodes_add_edge.
  unfold add_edge in He. simpl in He.
  destruct (existsb _ (edges g)).
  - apply in_map_iff in He. destruct He as [e0 [<- He0]].
    destruct (update_edge_src u v
                (match k with Some k0 => k0 | None => new_edge_key g u v end) d e0)
      as [-> [-> _]].
    destruct (Hg e0 He0). auto.
  - apply insert_edge_In in He. destruct He as [->|He]; simpl; [auto|].
    destruct (Hg e He). auto.
Qed.

Lemma update_edge_data_ok (g g' : MultiDiGraph) (u v : Node) (k : nat)
    (d : EdgeData) :
  update_edge_data g u v k d = Ok g' ->
  nodes g' = nodes g
  /\ edges g' = map (update_edge u v k d) (edges g)
  /\ existsb (is_edge u v k) (edges g) = true.
Proof.
  unfold update_edge_data. destruct (existsb _ (edges g)); [|discriminate].
  intros H. injection H as <-. auto.
Qed.

Lemma endpoints_in_nodes_update (g g' : MultiDiGraph) (u v : Node) (k : nat)
    (d : EdgeData) :
  update_edge_data g u v k d = Ok g' ->
  endpoints_in_nodes g -> endpoints_in_nodes g'.
Proof.
  intros H Hg e He. apply update_edge_data_ok in H. destruct H as [Hn [Hed _]].
  rewrite Hn. rewrite Hed in He. apply in_map_iff in He.
  destruct He as [e0 [<- He0]].
  destruct (update_edge_src u v k d e0) as [-> [-> _]]. auto.
Qed.

Lemma endpoints_in_nodes_remove_node (g : MultiDiGraph) (n : Node) :
  endpoints_in_nodes g -> endpoints_in_nodes (remove_node g n).
Proof.
  intros Hg e He. unfold remove_node in *. simpl in *.
  apply filter_In in He. destruct He as [He Hb].
  apply andb_true_iff in Hb. destruct Hb as [H1 H2].
  destruct (Hg e He). split; apply filter_In; auto.
Qed.

Lemma predicate_nodes_remove_node (g : MultiDiGraph) (n : Node) :
  is_predicate n = false -> predicate_nodes (remove_node g n) = predicate_nodes g.
Proof.
  intros Hn. unfold predicate_nodes, remove_node. simpl.
  induction (nodes g) as [|a l IH]; simpl; [reflexivity|].
  destruct (node_eqb a n) eqn:Ha; simpl.
  - apply node_eqb_eq in Ha. subst a. rewrite Hn. exact IH.
  - destruct (is_predicate a); rewrite IH; reflexivity.
Qed.

Lemma In_predicate_nodes (g : MultiDiGraph) (n : Node) :
  is_predicate n = true -> (In n (nodes g) <-> In n (predicate_nodes g)).
Proof.
  intros H. unfold predicate_nodes. rewrite filter_In. tauto.
Qed.

Lemma is_kind_not_predicate (k : OperatorKind) (n : Node) :
  is_kind k n = true -> is_predicate n = false.
Proof. destruct n; simpl; auto; discriminate. Qed.

(** A loop keeps what every round keeps. *)
Lemma foldM_invariant {A S : Type} (f : S -> A -> Result S) (P : S -> Prop)
    (Q : A -> Prop) (l : list A) :
  (forall s x s', Q x -> P s -> f s x = Ok s' -> P s') ->
  Forall Q l ->
  forall s s', P s -> foldM f l s = Ok s' -> P s'.
Proof.
  intros Hstep HQ. induction HQ as [|x l Hx HQ IH]; simpl; intros s s' Hs H.
  - injection H as <-. exact Hs.
  - apply bind_ok in H. destruct H as [s1 [H1 H2]].
    apply (IH s1 s'); [|exact H2]. apply (Hstep s x s1); assumption.
Qed.

Lemma foldM_ext {A S : Type} (f f' : S -> A -> Result S) (l : list A) (s : S) :
  (forall s x, f s x = f' s x) -> foldM f l s = foldM f' l s.
Proof.
  intros H. revert s. induction l as [|a l IH]; intros s; simpl; [reflexivity|].
  rewrite H. destruct (f' s a); simpl; [apply IH | reflexivity].
Qed.

Lemma keeps_predicates_refl (g : TimedPropertyGraph) :
  well_formed g -> keeps_predicates g g.
Proof. intros H. split; [exact H | reflexivity]. Qed.

Lemma keeps_predicates_In (g g' : TimedPropertyGraph) (n : Node) :
  keeps_predicates g g' -> is_predicate n = true ->
  In n (nodes (graph g)) -> In n (nodes (graph g')).
Proof.
  intros [_ Hp] Hn H. apply In_predicate_nodes; [exact Hn|].
  rewrite Hp. apply In_predicate_nodes; assumption.
Qed.

(** [_add_edge] between nodes of which the predicates are already there. *)
Lemma _add_edge_keeps (g0 g g' : TimedPropertyGraph) (u v : Node) (d : EdgeData)
    (b : bool) :
  keeps_predicates g0 g ->
  (is_predicate u = true -> In u (nodes (graph g))) ->
  (is_predicate v = true -> In v (nodes (graph g))) ->
  _add_edge g u v d b = Ok g' ->
  keeps_predicates g0 g'.
Proof.
  intros [[Hwf Hroot] Hp] Hu Hv H. unfold _add_edge in H.
  apply bind_ok in H. destruct H as [gr [Hgr H]]. injection H as <-.
  assert (Hgr' : endpoints_in_nodes gr
                 /\ predicate_nodes gr = predicate_nodes (graph g)
                 /\ (forall m, In m (nodes (graph g)) -> In m (nodes gr))
                 /\ (is_predicate u = true -> In u (nodes gr))).
  { destruct (b && has_edge (graph g) u v).
    - destruct (keydict (graph g) u v) as [|e r]; [discriminate|].
      apply bind_ok in Hgr. destruct Hgr as [nd [_ Hup]].
      pose proof (endpoints_in_nodes_update _ _ _ _ _ _ Hup Hwf) as Hwf'.
      apply update_edge_data_ok in Hup. destruct Hup as [Hn _].
      unfold predicate_nodes. rewrite Hn. auto.
    - injection Hgr as <-. split; [|split; [|split]].
      + apply endpoints_in_nodes_add_edge. exact Hwf.
      + apply predicate_nodes_add_edge; assumption.
      + intros m Hm. apply In_nodes_add_edge. auto.
      + intros _. apply In_nodes_add_edge. auto. }
  destruct Hgr' as [Hwf' [Hp' [Hmono Hu']]].
  split; [split|]; simpl.
  - exact Hwf'.
  - intros r Hr Hpr. unfold get_root_node in Hr.
    destruct (root_node g) as [r0|] eqn:Hr0.
    + destruct (node_eqb v r0).
      * injection Hr as <-. auto.
      * injection Hr as <-. apply Hmono. apply Hroot; auto.
    + injection Hr as <-. auto.
  - congruence.
Qed.

Lemma _propagate_keeps (g0 g g' : TimedPropertyGraph) (n : Node) (d : EdgeData) :
  keeps_predicates g0 g ->
  _propagate_edge_data_to_deeper_edges g n d = Ok g' ->
  keeps_predicates g0 g' /\ root_node g' = root_node g.
Proof.
  intros Hk H. unfold _propagate_edge_data_to_deeper_edges in H.
  revert H.
  apply (foldM_invariant
           (fun g1 deeper_edge =>
              deeper_edge_data <- edge_data_of g1 deeper_edge ;;
              data_to_retain <- retain_older (now_of g1) d deeper_edge_data ;;
              gr <- update_edge_data (graph g1) (edge_src deeper_edge)
                      (edge_dst deeper_edge) (edge_key deeper_edge) data_to_retain ;;
              Ok (set_graph g1 gr))
           (fun g1 => keeps_predicates g0 g1 /\ root_node g1 = root_node g)
           (fun _ => True)).
  - intros s x s' _ [[[Hwf Hroot] Hp] Hr] H.
    apply bind_ok in H. destruct H as [dd [_ H]].
    apply bind_ok in H. destruct H as [dr [_ H]].
    apply bind_ok in H. destruct H as [gr [Hup H]]. injection H as <-.
    pose proof (endpoints_in_nodes_update _ _ _ _ _ _ Hup Hwf) as Hwf'.
    apply update_edge_data_ok in Hup. destruct Hup as [Hn _].
    split; [split; [split|]|]; simpl.
    + exact Hwf'.
    + intros r Hr' Hpr. simpl in *. rewrite Hn. apply Hroot; assumption.
    + unfold predicate_nodes. rewrite Hn. exact Hp.
    + exact Hr.
  - apply Forall_forall. auto.
  - split; [exact Hk | reflexivity].
Qed.

Lemma set_graph_remove_keeps (g0 g : TimedPropertyGraph) (ns : list Node) :
  keeps_predicates g0 g ->
  Forall (fun n => is_predicate n = false) ns ->
  keeps_predicates g0 (set_graph g (remove_nodes_from (graph g) ns)).
Proof.
  intros Hk Hns. revert g Hk.
  induction Hns as [|n ns Hn Hns IH]; intros g Hk.
  - destruct g; exact Hk.
  - simpl.
    specialize (IH (set_graph g (remove_node (graph g) n))). simpl in IH.
    apply IH. destruct Hk as [[Hwf Hroot] Hp].
    split; [split|]; unfold set_graph; cbn [graph root_node].
    + apply endpoints_in_nodes_remove_node. exact Hwf.
    + intros r Hr Hpr. cbn [graph root_node] in *.
      apply In_predicate_nodes; [exact Hpr|].
      rewrite predicate_nodes_remove_node by exact Hn.
      apply In_predicate_nodes; [exact Hpr|]. apply Hroot; assumption.
    + rewrite predicate_nodes_remove_node by exact Hn. exact Hp.
Qed.

Lemma keeps_predicates_transfer (g0 g s : TimedPropertyGraph) (n : Node) :
  keeps_predicates g0 g -> keeps_predicates g0 s ->
  In n (nodes (graph g)) ->
  is_predicate n = true -> In n (nodes (graph s)).
Proof.
  intros [_ Hg] [_ Hs] Hin Hn.
  apply In_predicate_nodes; [exact Hn|]. rewrite Hs, <- Hg.
  apply In_predicate_nodes; assumption.
Qed.

Lemma in_edges_In (g : MultiDiGraph) (n : Node) (e : Edge) :
  In e (in_edges g n) -> In e (edges g).
Proof. unfold in_edges. rewrite filter_In. tauto. Qed.

Lemma out_edges_In (g : MultiDiGraph) (n : Node) (e : Edge) :
  In e (out_edges g n) -> In e (edges g).
Proof. unfold out_edges. rewrite filter_In. tauto. Qed.

(** The loop shared by the two splices: an edge from the source of every
    listed edge to one target. *)
Lemma reconnect_keeps (g0 g g' : TimedPropertyGraph) (target : Node)
    (data : TimedPropertyGraph -> Edge -> Result EdgeData) (l : list Edge) :
  keeps_predicates g0 g ->
  (forall e, In e l -> In e (edges (graph g))) ->
  In target (nodes (graph g)) ->
  foldM (fun g1 e => d <- data g1 e ;; _add_edge g1 (edge_src e) target d false) l g
  = Ok g' ->
  keeps_predicates g0 g'.
Proof.
  intros Hk Hl Ht H.
  refine (foldM_invariant _ (keeps_predicates g0)
            (fun e => In e (edges (graph g))) l _ _ g g' Hk H).
  - intros s x s' Hx Hs Hstep.
    apply bind_ok in Hstep. destruct Hstep as [d [_ Hadd]].
    apply (_add_edge_keeps g0 s s' (edge_src x) target d false Hs).
    + intros Hp. apply (keeps_predicates_transfer g0 g s _ Hk Hs); [|exact Hp].
      destruct Hk as [[Hwf _] _]. apply (Hwf x Hx).
    + intros Hp. apply (keeps_predicates_transfer g0 g s _ Hk Hs); assumption.
    + exact Hadd.
  - apply Forall_forall. exact Hl.
Qed.

Lemma set_root_keeps (g0 g : TimedPropertyGraph) (r : Node) :
  keeps_predicates g0 g -> In r (nodes (graph g)) ->
  keeps_predicates g0 (set_root_node g (Some r)).
Proof.
  intros [[Hwf _] Hp] Hr. split; [split|]; auto.
  intros r' Hr' _. cbn in Hr'. injection Hr' as <-. exact Hr.
Qed.

Lemma _remove_orphan_and_operator_keeps (g0 g g' : TimedPropertyGraph) (n : Node) :
  is_kind AND n = true ->
  keeps_predicates g0 g ->
  _remove_orphan_and_operator g n = Ok g' ->
  keeps_predicates g0 g'.
Proof.
  intros Hn Hk H. unfold _remove_orphan_and_operator in H.
  destruct (out_edges (graph g) n) as [|se rest] eqn:Hout; [discriminate|].
  assert (Hse : In (edge_dst se) (nodes (graph g))).
  { destruct Hk as [[Hwf _] _]. apply Hwf. apply (out_edges_In _ n).
    rewrite Hout. now left. }
  apply bind_ok in H. destruct H as [g1 [H1 H]]. injection H as <-.
  assert (Hk1 : keeps_predicates g0 g1).
  { destruct (in_edges (graph g) n) as [|pe ps] eqn:Hin.
    - apply (_propagate_keeps g0 _ g1 _ _ (set_root_keeps g0 g _ Hk Hse)) in H1.
      tauto.
    - rewrite <- Hin in H1.
      refine (reconnect_keeps g0 g g1 (edge_dst se)
                (fun g2 e => predecessor_data <- edge_data_of g2 e ;;
                             retain_older (now_of g2) predecessor_data (edge_data se))
                (in_edges (graph g) n) Hk _ Hse _).
      + intros e. apply in_edges_In.
      + rewrite <- H1. apply foldM_ext. intros s x.
        destruct (edge_data_of s x); reflexivity. }
  apply (set_graph_remove_keeps g0 g1 [n] Hk1).
  constructor; [|constructor]. apply (is_kind_not_predicate AND). exact Hn.
Qed.


Lemma _collapse_not_operators_pair_keeps (g0 g g' : TimedPropertyGraph)
    (not1 not2 : Node) :
  is_kind NOT not1 = true -> is_kind NOT not2 = true ->
  keeps_predicates g0 g ->
  _collapse_not_operators_pair g not1 not2 = Ok g' ->
  keeps_predicates g0 g'.
Proof.
  intros Hn1 Hn2 Hk H. unfold _collapse_not_operators_pair in H.
  destruct (out_edges (graph g) not2) as [|se rest] eqn:Hout; [discriminate|].
  assert (Hse : In (edge_dst se) (nodes (graph g))).
  { destruct Hk as [[Hwf _] _]. apply Hwf. apply (out_edges_In _ not2).
    rewrite Hout. now left. }
  destruct (get_edge_data (graph g) not1 not2 0) as [between|]; [|discriminate].
  apply bind_ok in H. destruct H as [dtr [_ H]].
  apply bind_ok in H. destruct H as [g1 [H1 H]]. injection H as <-.
  assert (Hk1 : keeps_predicates g0 g1).
  { destruct (in_edges (graph g) not1) as [|pe ps] eqn:Hin.
    - apply (_propagate_keeps g0 _ g1 _ _ (set_root_keeps g0 g _ Hk Hse)) in H1.
      tauto.
    - rewrite <- Hin in H1.
      refine (reconnect_keeps g0 g g1 (edge_dst se)
                (fun g2 e => predecessor_data <- edge_data_of g2 e ;;
                             retain_older (now_of g2) predecessor_data dtr)
                (in_edges (graph g) not1) Hk _ Hse _).
      + intros e. apply in_edges_In.
      + rewrite <- H1. apply foldM_ext. intros s x.
        destruct (edge_data_of s x); reflexivity. }
  apply (set_graph_remove_keeps g0 g1 [not1; not2] Hk1).
  repeat constructor; apply (is_kind_not_predicate NOT); assumption.
Qed.

Lemma collapse_loop_keeps (fuel : nat) (g0 g g' : TimedPropertyGraph) :
  keeps_predicates g0 g ->
  collapse_loop fuel g = Ok g' ->
  keeps_predicates g0 g'.
Proof.
  revert g. induction fuel as [|f IH]; simpl; intros g Hk H.
  - destruct (find _ _); [discriminate|]. injection H as <-. exact Hk.
  - destruct (find _ _) as [e|] eqn:Hf.
    + apply find_some in Hf. destruct Hf as [_ Hf].
      apply andb_true_iff in Hf. destruct Hf as [H1 H2].
      apply bind_ok in H. destruct H as [g1 [Hc H]].
      apply (IH g1); [|exact H].
      apply (_collapse_not_operators_pair_keeps g0 g g1 _ _ H1 H2 Hk Hc).
    + injection H as <-. exact Hk.
Qed.



(** ** Double negation *)







(** ** Adding the conclusion of an implication *)

Lemma filter_map_commute {A : Type} (P : A -> bool) (f : A -> A) (l : list A) :
  (forall x, P (f x) = P x) -> filter P (map f l) = map f (filter P l).
Proof.
  intros H. induction l as [|a l IH]; simpl; [reflexivity|].
  rewrite H. destruct (P a); simpl; rewrite IH; reflexivity.
Qed.

Lemma same_pair_update_edge (u v a b : Node) (k : nat) (d : EdgeData) (e : Edge) :
  same_pair u v (update_edge a b k d e) = same_pair u v e.
Proof.
  unfold same_pair. destruct (update_edge_src a b k d e) as [-> [-> _]]. reflexivity.
Qed.

Lemma is_edge_update_edge (u v a b : Node) (k k' : nat) (d : EdgeData) (e : Edge) :
  is_edge u v k (update_edge a b k' d e) = is_edge u v k e.
Proof.
  unfold is_edge. rewrite same_pair_update_edge.
  destruct (update_edge_src a b k' d e) as [_ [_ ->]]. reflexivity.
Qed.



Lemma find_insert_edge_other (P : Edge -> bool) (e : Edge) (l : list Edge) :
  P e = false -> find P (insert_edge e l) = find P l.
Proof.
  intros He. induction l as [|x r IH]; simpl.
  - rewrite He. reflexivity.
  - destruct (same_pair (edge_src e) (edge_dst e) x
              && negb (existsb (same_pair (edge_src e) (edge_dst e)) r)); simpl.
    + destruct (P x); [reflexivity|]. rewrite He. reflexivity.
    + destruct (P x); [reflexivity | exact IH].
Qed.




Lemma has_edge_true_keydict (g : MultiDiGraph) (u v : Node) :
  has_edge g u v = true -> keydict g u v <> [].
Proof.
  unfold has_edge, keydict. intros H Hn. apply existsb_exists in H.
  destruct H as [x [Hx Hp]].
  pose proof (filter_nil_forall _ _ Hn x Hx). congruence.
Qed.














(** ** Modus ponens *)

Lemma max_from_spec (now : Z) (l : list Timestamp) :
  forall cur,
    (max_from now cur l = cur \/ In (max_from now cur l) l)
    /\ get_absolute_value now cur <= get_absolute_value now (max_from now cur l)
    /\ (forall x, In x l ->
          get_absolute_value now x <= get_absolute_value now (max_from now cur l)).
Proof.
  induction l as [|a l IH]; simpl; intros cur.
  - split; [now left|]. split; [lia | intros x []].
  - destruct (IH (if ts_lt now cur a then a else cur)) as [H1 [H2 H3]].
    unfold ts_lt in *.
    destruct (Z.ltb_spec (get_absolute_value now cur) (get_absolute_value now a)).
    + split; [destruct H1 as [->|H1]; auto|]. split; [lia|].
      intros x [<-|Hx]; [exact H2 | apply H3; exact Hx].
    + split; [destruct H1 as [H1|H1]; auto|]. split; [exact H2|].
      intros x [<-|Hx]; [lia | apply H3; exact Hx].
Qed.

(** [max] returns an element of the sequence that no element exceeds. *)
Lemma py_max_spec (now : Z) (l : list Timestamp) (t : Timestamp) :
  py_max now l = Ok t ->
  In t l /\ forall x, In x l -> get_absolute_value now x <= get_absolute_value now t.
Proof.
  destruct l as [|a l]; simpl; [discriminate|]. intros H. injection H as <-.
  destruct (max_from_spec now l a) as [H1 [H2 H3]].
  split; [destruct H1 as [->|H1]; auto|].
  intros x [<-|Hx]; [exact H2 | apply H3; exact Hx].
Qed.








(** ** The present-time subgraph *)

Lemma present_time_edges_from (g : TimedPropertyGraph) (l : list Edge) :
  (forall e, In e l -> timestamp (edge_data e) <> None) ->
  forall acc,
    foldM (fun acc e =>
             match timestamp (edge_data e) with
             | None => Raise AttributeError
             | Some t =>
                 if matches (now_of g) t (Absolute (now_of g))
                 then Ok (acc ++ [edge_id e]) else Ok acc
             end) l acc
    = Ok (acc ++ map edge_id (filter (matches_present g) l)).
Proof.
  induction l as [|a l IH]; intros Hs acc; simpl.
  - rewrite app_nil_r. reflexivity.
  - unfold matches_present at 1.
    destruct (timestamp (edge_data a)) as [t|] eqn:Ht.
    + destruct (matches (now_of g) t (Absolute (now_of g))); simpl.
      * rewrite IH by (intros e He; apply Hs; now right).
        rewrite <- app_assoc. reflexivity.
      * apply IH. intros e He. apply Hs. now right.
    + exfalso. apply (Hs a (or_introl eq_refl) Ht).
Qed.

Lemma present_time_edges_stamped (g : TimedPropertyGraph) :
  stamped (graph g) ->
  present_time_edges g
  = Ok (map edge_id (filter (matches_present g) (graph_edges (graph g)))).
Proof.
  intros Hs. unfold present_time_edges.
  rewrite (present_time_edges_from g (graph_edges (graph g))); [reflexivity|].
  intros e He. apply Hs. apply graph_edges_incl. exact He.
Qed.

Lemma In_graph_edges (g : MultiDiGraph) (e : Edge) :
  endpoints_in_nodes g -> In e (edges g) -> In e (graph_edges g).
Proof.
  intros Hwf He. unfold graph_edges. apply in_flat_map.
  exists (edge_src e). split; [apply (Hwf e He)|].
  unfold out_edges. apply filter_In. split; [exact He | apply node_eqb_refl].
Qed.

Lemma distinct_edges_eq (g : MultiDiGraph) (e1 e2 : Edge) :
  distinct_edges g -> In e1 (edges g) -> In e2 (edges g) ->
  is_edge (edge_src e1) (edge_dst e1) (edge_key e1) e2 = true -> e1 = e2.
Proof.
  unfold distinct_edges. intros Hd H1 H2 Hi.
  apply is_edge_src in Hi. destruct Hi as [Hs [Hd' Hk]].
  induction (edges g) as [|a l IH]; [contradiction|].
  simpl in Hd. inversion Hd as [|? ? Hnotin Hnd]. subst.
  destruct H1 as [->|H1], H2 as [->|H2].
  - reflexivity.
  - exfalso. apply Hnotin. apply in_map_iff. exists e2. split; [|exact H2].
    congruence.
  - exfalso. apply Hnotin. apply in_map_iff. exists e1. split; [|exact H1].
    congruence.
  - apply IH; assumption.
Qed.

(** The edges of the subgraph induced by the present-time edges are the
    edges of the graph that match the present time. *)
Lemma edge_subgraph_present (g : TimedPropertyGraph) :
  endpoints_in_nodes (graph g) -> distinct_edges (graph g) ->
  edges (edge_subgraph (graph g)
           (map edge_id (filter (matches_present g) (graph_edges (graph g)))))
  = filter (matches_present g) (edges (graph g)).
Proof.
  intros Hwf Hd. unfold edge_subgraph. simpl.
  apply filter_ext_in. intros e He. unfold in_path.
  destruct (matches_present g e) eqn:Hm.
  - apply existsb_exists. exists (edge_id e). split.
    + apply in_map. apply filter_In. split; [|exact Hm].
      apply In_graph_edges; assumption.
    + simpl. apply is_edge_self.
  - destruct (existsb _ _) eqn:Hex; [|reflexivity].
    apply existsb_exists in Hex. destruct Hex as [x [Hx Hi]].
    apply in_map_iff in Hx. destruct Hx as [e' [<- He']].
    apply filter_In in He'. destruct He' as [He' Hm'].
    simpl in Hi.
    rewrite (distinct_edges_eq (graph g) e' e Hd (graph_edges_incl _ _ He') He Hi) in Hm'.
    congruence.
Qed.

Lemma edge_subgraph_nil (g : MultiDiGraph) : edge_subgraph g [] = empty_graph.
Proof.
  unfold edge_subgraph, empty_graph.
  assert (H : filter (in_path []) (edges g) = [])
    by (apply filter_all_false; reflexivity).
  rewrite H. f_equal. apply filter_all_false. reflexivity.
Qed.

Lemma get_present_time_subgraph_unfold (g : TimedPropertyGraph) :
  get_present_time_subgraph g
  = (r <- present_time_induced g ;;
     match r with
     | Some pg => pg' <- _fix_orphan_logical_operators pg ;; Ok (Some pg')
     | None => Ok None
     end).
Proof.
  unfold get_present_time_subgraph, present_time_induced.
  destruct (present_time_edges g); reflexivity.
Qed.

(** The present-time subgraph of [p(x)] at tick 1 and [q(y)] at tick 5 is not
    the graph induced by the edges that match the present time: the [AND]
    node is left with one out-edge and is spliced out.  And with no edge at
    the present time the outcome is [None]. *)
Lemma present_time_subgraph_is_cleaned :
  present_time_induced graph_p_at_1_and_q_at_5 = Ok (Some induced_p_at_1)
  /\ get_present_time_subgraph graph_p_at_1_and_q_at_5 = Ok (Some present_p_at_1)
  /\ List.length (edges (graph induced_p_at_1)) = 2%nat
  /\ List.length (edges (graph present_p_at_1)) = 1%nat
  /\ get_present_time_subgraph graph_p_in_the_future = Ok None.
Proof. repeat split; vm_compute; reflexivity. Qed.

(** C9, amended.  On a graph whose edges are stamped and distinct, the graph
    induced by the present-time edges has exactly the edges whose timestamp
    matches [Absolute now]; [get_present_time_subgraph] returns what the
    clean-up of orphan operators makes of that graph, and [None] when no edge
    matches, as when every edge is stamped relative to the future. *)
Theorem get_present_time_subgraph_cleans_induced (g : TimedPropertyGraph) :
  stamped (graph g) ->
  endpoints_in_nodes (graph g) ->
  distinct_edges (graph g) ->
  get_present_time_subgraph g
  = (r <- present_time_induced g ;;
     match r with
     | Some pg => pg' <- _fix_orphan_logical_operators pg ;; Ok (Some pg')
     | None => Ok None
     end)
  /\ (forall induced,
        present_time_induced g = Ok (Some induced) ->
        edges (graph induced) = filter (matches_present g) (edges (graph g))
        /\ time_source induced = time_source g)
  /\ (filter (matches_present g) (edges (graph g)) = [] ->
      get_present_time_subgraph g = Ok None)
  /\ ((forall e, In e (edges (graph g)) ->
         exists d, 0 < d /\ timestamp (edge_data e) = Some (Relative d)) ->
      get_present_time_subgraph g = Ok None).
Proof.
  intros Hs Hwf Hd.
  assert (Hnone : filter (matches_present g) (edges (graph g)) = [] ->
                  get_present_time_subgraph g = Ok None).
  { intros Hnil. unfold get_present_time_subgraph.
    rewrite (present_time_edges_stamped g Hs). cbn [bind].
    rewrite (filter_all_false (matches_present g) (graph_edges (graph g))).
    - simpl map. rewrite edge_subgraph_nil. reflexivity.
    - intros e He. apply (filter_nil_forall _ _ Hnil). apply graph_edges_incl. exact He. }
  split; [apply get_present_time_subgraph_unfold|]. split; [|split].
  - intros induced H. unfold present_time_induced in H.
    rewrite (present_time_edges_stamped g Hs) in H. cbn [bind] in H.
    unfold _inflate_property_graph_from_subgraph in H.
    destruct (Nat.eqb _ 0); [discriminate|].
    destruct (rev _) as [|r l]; [discriminate|].
    injection H as <-. simpl. split; [|reflexivity].
    apply edge_subgraph_present; assumption.
  - exact Hnone.
  - intros Hfuture. apply Hnone. apply filter_all_false. intros e He.
    destruct (Hfuture e He) as [d [Hpos Hts]].
    unfold matches_present. rewrite Hts. simpl. apply Z.eqb_neq. lia.
Qed.

Lemma get_present_time_subgraph_cleans_induced_witness :
  get_present_time_subgraph graph_p_in_the_future
  = (r <- present_time_induced graph_p_in_the_future ;;
     match r with
     | Some pg => pg' <- _fix_orphan_logical_operators pg ;; Ok (Some pg')
     | None => Ok None
     end)
  /\ (forall induced,
        present_time_induced graph_p_in_the_future = Ok (Some induced) ->
        edges (graph induced)
        = filter (matches_present graph_p_in_the_future)
            (edges (graph graph_p_in_the_future))
        /\ time_source induced = time_source graph_p_in_the_future)
  /\ (filter (matches_present graph_p_in_the_future)
        (edges (graph graph_p_in_the_future)) = [] ->
      get_present_time_subgraph graph_p_in_the_future = Ok None)
  /\ ((forall e, In e (edges (graph graph_p_in_the_future)) ->
         exists d, 0 < d /\ timestamp (edge_data e) = Some (Relative d)) ->
      get_present_time_subgraph graph_p_in_the_future = Ok None).
Proof.
  apply (get_present_time_subgraph_cleans_induced graph_p_in_the_future).
  - intros e [<-|[]]. discriminate.
  - intros e [<-|[]]. simpl. auto.
  - repeat constructor. simpl. tauto.
Defined.

(** ** The constant property *)










(** ** Conjunction *)









(** ** Updating the timestamp of a subgraph *)

(** C8.  [update_subgraph_timestamp] does not leave the other occurrences of
    the subgraph intact when they share an edge with the first one.  In the
    conjunction of two events of [p(x)] at tick 1 the subgraph [p(x)] has two
    occurrences, one through each edge out of the [AND] node, both ending
    with the edge from [p(x)] to [x].  Updating to tick 0 restamps the first
    occurrence, shared edge included: the timestamp of the second
    occurrence's path moves from tick 1 to tick 0, and the graph no longer
    contains [p(x)] at tick 1. *)
Theorem update_subgraph_timestamp_restamps_shared_edge :
  p_and_p 1 1 1 = Ok graph_p_and_p
  /\ p_at 1 1 = Ok graph_p_alone
  /\ (r <- find_equivalent_subgraphs graph_p_and_p graph_p_alone ;;
      Ok (matching_cases r))
     = Ok [[first_occurrence]; [second_occurrence]]
  /\ graph_find_path_timestamp graph_p_and_p second_occurrence
     = Ok (Some (Absolute 1))
  /\ contains_property_graph graph_p_and_p graph_p_alone = Ok true
  /\ update_subgraph_timestamp graph_p_and_p graph_p_alone (Absolute 0)
     = Ok graph_p_and_p_updated
  /\ get_edge_data (graph graph_p_and_p_updated) node_and_p_p node_p 1
     = Some (timestamp_data (Some (Absolute 1)))
  /\ get_edge_data (graph graph_p_and_p_updated) node_p var_x 0
     = Some (timestamp_data (Some (Absolute 0)))
  /\ graph_find_path_timestamp graph_p_and_p_updated second_occurrence
     = Ok (Some (Absolute 0))
  /\ contains_property_graph graph_p_and_p_updated graph_p_alone = Ok false.
Proof. repeat split; vm_compute; reflexivity. Qed.

Lemma is_edge_restamp (done : list PathEdge) (t : Timestamp) (u v : Node)
    (k : nat) (e : Edge) :
  is_edge u v k (restamp done t e) = is_edge u v k e.
Proof. unfold restamp. destruct (in_path done e); reflexivity. Qed.

Lemma in_path_app (p q : list PathEdge) (e : Edge) :
  in_path (p ++ q) e = in_path p e || in_path q e.
Proof. unfold in_path. apply existsb_app. Qed.

(** One assignment of [update_path_timestamp], on edges of which those on
    [done] are restamped already. *)
Lemma update_edge_restamp (done : list PathEdge) (t : Timestamp) (x : PathEdge)
    (e : Edge) :
  update_edge (pe_src x) (pe_dst x) (pe_key x) (timestamp_data (Some t))
    (restamp done t e)
  = restamp (done ++ [x]) t e.
Proof.
  unfold update_edge. rewrite is_edge_restamp.
  assert (Hin : in_path (done ++ [x]) e
                = in_path done e || is_edge (pe_src x) (pe_dst x) (pe_key x) e).
  { rewrite in_path_app. unfold in_path at 2. simpl. rewrite orb_false_r.
    reflexivity. }
  unfold restamp. rewrite Hin.
  destruct (is_edge (pe_src x) (pe_dst x) (pe_key x) e), (in_path done e);
    reflexivity.
Qed.

Lemma update_path_timestamp_restamps (t : Timestamp) (path : Path) :
  forall (g0 g g' : TimedPropertyGraph) (done : list PathEdge),
    edges (graph g) = map (restamp done t) (edges (graph g0)) ->
    update_path_timestamp g path t = Ok g' ->
    edges (graph g') = map (restamp (done ++ path) t) (edges (graph g0))
    /\ nodes (graph g') = nodes (graph g)
    /\ root_node g' = root_node g.
Proof.
  unfold update_path_timestamp.
  induction path as [|x path IH]; simpl; intros g0 g g' done Hg H.
  - injection H as <-. rewrite app_nil_r. auto.
  - apply bind_ok in H. destruct H as [g1 [H1 H]].
    apply bind_ok in H1. destruct H1 as [gr [Hgr H1]]. injection H1 as <-.
    apply update_edge_data_ok in Hgr. destruct Hgr as [Hn [He _]].
    destruct (IH g0 (set_graph g gr) g' (done ++ [x])) as [E [N R]].
    + simpl. rewrite He, Hg, map_map. apply map_ext. intros e.
      apply update_edge_restamp.
    + exact H.
    + rewrite <- app_assoc in E. simpl in E, N, R.
      split; [exact E|]. split; [congruence | exact R].
Qed.

Lemma update_paths_timestamp_restamp (t : Timestamp) (case : list Path) :
  forall (g0 g g' : TimedPropertyGraph) (done : list PathEdge),
    edges (graph g) = map (restamp done t) (edges (graph g0)) ->
    foldM (fun g path => update_path_timestamp g path t) case g = Ok g' ->
    edges (graph g') = map (restamp (done ++ List.concat case) t) (edges (graph g0))
    /\ nodes (graph g') = nodes (graph g)
    /\ root_node g' = root_node g.
Proof.
  induction case as [|p case IH]; simpl; intros g0 g g' done Hg H.
  - injection H as <-. rewrite app_nil_r. auto.
  - apply bind_ok in H. destruct H as [g1 [H1 H]].
    destruct (update_path_timestamp_restamps t p g0 g g1 done Hg H1) as [E1 [N1 R1]].
    destruct (IH g0 g1 g' (done ++ p) E1 H) as [E [N R]].
    rewrite <- app_assoc in E. split; [exact E|]. split; congruence.
Qed.

Lemma restamp_nil (t : Timestamp) (l : list Edge) : l = map (restamp [] t) l.
Proof. symmetry. rewrite <- (map_id l) at 2. apply map_ext. reflexivity. Qed.

(** X1.  When [update_subgraph_timestamp] returns, a matching case was found, and
    the graph differs from the one before only in that the edges on the paths
    of the first matching case carry the new timestamp: every other edge, the
    nodes and the root are as before. *)
Theorem update_subgraph_timestamp_restamps_first_case
    (g sub g' : TimedPropertyGraph) (t : Timestamp) :
  update_subgraph_timestamp g sub t = Ok g' ->
  exists r case rest,
    find_equivalent_subgraphs g sub = Ok r
    /\ matching_cases r = case :: rest
    /\ edges (graph g') = map (restamp (List.concat case) t) (edges (graph g))
    /\ nodes (graph g') = nodes (graph g)
    /\ root_node g' = root_node g.
Proof.
  unfold update_subgraph_timestamp. intros H.
  apply bind_ok in H. destruct H as [r [Hr H]].
  destruct (matching_cases r) as [|case rest] eqn:Hc; [discriminate|].
  exists r, case, rest. split; [exact Hr|]. split; [exact Hc|].
  apply (update_paths_timestamp_restamp t case g g g' [] (restamp_nil t _) H).
Qed.

Lemma update_subgraph_timestamp_restamps_first_case_witness :
  exists r case rest,
    find_equivalent_subgraphs graph_p_and_p graph_p_alone = Ok r
    /\ matching_cases r = case :: rest
    /\ edges (graph graph_p_and_p_updated)
       = map (restamp (List.concat case) (Absolute 0)) (edges (graph graph_p_and_p))
    /\ nodes (graph graph_p_and_p_updated) = nodes (graph graph_p_and_p)
    /\ root_node graph_p_and_p_updated = root_node graph_p_and_p.
Proof.
  apply (update_subgraph_timestamp_restamps_first_case
           graph_p_and_p graph_p_alone graph_p_and_p_updated (Absolute 0)).
  vm_compute. reflexivity.
Defined.

(** ** Timestamps of a graph *)

(** X2.  [set_timestamp] leaves on every edge the given timestamp, and changes
    neither the end points, the key or the implication tag of an edge, nor
    the nodes, the root and the time source. *)
Theorem set_timestamp_stamps_every_edge (g : TimedPropertyGraph) (t : Timestamp) :
  (forall e, In e (edges (graph (set_timestamp g t))) ->
     timestamp (edge_data e) = Some t)
  /\ map edge_id (edges (graph (set_timestamp g t))) = map edge_id (edges (graph g))
  /\ map (fun e => implication (edge_data e)) (edges (graph (set_timestamp g t)))
     = map (fun e => implication (edge_data e)) (edges (graph g))
  /\ nodes (graph (set_timestamp g t)) = nodes (graph g)
  /\ root_node (set_timestamp g t) = root_node g
  /\ time_source (set_timestamp g t) = time_source g.
Proof.
  unfold set_timestamp. simpl. split; [|split; [|split]].
  - intros e He. apply in_map_iff in He. destruct He as [x [<- _]]. reflexivity.
  - rewrite map_map. apply map_ext. reflexivity.
  - rewrite map_map. apply map_ext. reflexivity.
  - auto.
Qed.

Lemma all_some_map_Some {A : Type} (l : list (option A)) (ts : list A) :
  all_some l = Some ts -> l = map Some ts.
Proof.
  revert ts. induction l as [|[a|] l IH]; simpl; intros ts H.
  - injection H as <-. reflexivity.
  - destruct (all_some l) as [r|]; [|discriminate]. injection H as <-.
    simpl. rewrite (IH r eq_refl). reflexivity.
  - discriminate.
Qed.

Lemma all_some_Some {A : Type} (ts : list A) : all_some (map Some ts) = Some ts.
Proof. induction ts as [|a ts IH]; simpl; [|rewrite IH]; reflexivity. Qed.

(** X3.  [get_most_recent_timestamp] on a graph whose edges are stamped: [None]
    when the graph has no edge; otherwise the timestamp of one of the edges,
    which no timestamp of an edge exceeds. *)
Theorem get_most_recent_timestamp_is_maximum (g : TimedPropertyGraph) :
  stamped (graph g) ->
  (graph_edges (graph g) = [] -> get_most_recent_timestamp g = Ok None)
  /\ (graph_edges (graph g) <> [] ->
      exists t,
        get_most_recent_timestamp g = Ok (Some t)
        /\ (exists e, In e (graph_edges (graph g))
                      /\ timestamp (edge_data e) = Some t)
        /\ (forall e t', In e (graph_edges (graph g)) ->
              timestamp (edge_data e) = Some t' ->
              get_absolute_value (now_of g) t' <= get_absolute_value (now_of g) t)).
Proof.
  intros Hs. unfold get_most_recent_timestamp. split.
  - intros ->. reflexivity.
  - intros Hne.
    destruct (all_some_map_stamped (graph_edges (graph g))) as [ts [Hts _]].
    { intros e He. apply Hs. apply graph_edges_incl. exact He. }
    pose proof (all_some_map_Some _ _ Hts) as Hmap.
    assert (Hin : forall t, In t ts <->
                    exists e, In e (graph_edges (graph g))
                              /\ timestamp (edge_data e) = Some t).
    { intros t. split.
      - intros Ht. apply (in_map Some) in Ht. rewrite <- Hmap in Ht.
        apply in_map_iff in Ht. destruct Ht as [e [He1 He2]]. eauto.
      - intros [e [He1 He2]].
        apply (in_map (fun e => timestamp (edge_data e))) in He1.
        rewrite Hmap, He2 in He1. apply in_map_iff in He1.
        destruct He1 as [t' [Ht' Hi]]. injection Ht' as ->. exact Hi. }
    assert (Hmax : exists t,
               match map (fun e => timestamp (edge_data e)) (graph_edges (graph g)) with
               | [] => Ok None
               | _ :: _ =>
                   py_max_opt (now_of g)
                     (map (fun e => timestamp (edge_data e)) (graph_edges (graph g)))
               end = Ok (Some t)
               /\ py_max (now_of g) ts = Ok t).
    { rewrite Hmap. destruct ts as [|a [|b ts]].
      - destruct (graph_edges (graph g)); [congruence | discriminate].
      - exists a. split; reflexivity.
      - exists (max_from (now_of g) a (b :: ts)). split; [|reflexivity].
        cbn [map py_max_opt all_some]. rewrite all_some_Some. reflexivity. }
    destruct Hmax as [t [Hget Hpy]].
    exists t. split.
    + destruct (map _ (graph_edges (graph g))); exact Hget.
    + destruct (py_max_spec _ _ _ Hpy) as [Hint Hle].
      split; [apply Hin; exact Hint|].
      intros e t' He Ht'. apply Hle. apply Hin. eauto.
Qed.

Lemma get_most_recent_timestamp_is_maximum_witness :
  (graph_edges (graph graph_p1_and_p2) = [] ->
   get_most_recent_timestamp graph_p1_and_p2 = Ok None)
  /\ (graph_edges (graph graph_p1_and_p2) <> [] ->
      exists t,
        get_most_recent_timestamp graph_p1_and_p2 = Ok (Some t)
        /\ (exists e, In e (graph_edges (graph graph_p1_and_p2))
                      /\ timestamp (edge_data e) = Some t)
        /\ (forall e t', In e (graph_edges (graph graph_p1_and_p2)) ->
              timestamp (edge_data e) = Some t' ->
              get_absolute_value (now_of graph_p1_and_p2) t'
              <= get_absolute_value (now_of graph_p1_and_p2) t)).
Proof.
  apply (get_most_recent_timestamp_is_maximum graph_p1_and_p2).
  intros e [<-|[<-|[<-|[]]]]; discriminate.
Defined.

(** ** Renderings of nodes *)

Lemma ascii_compare_spec (a b : ascii) :
  CompareSpec (a = b) (N_of_ascii a < N_of_ascii b)%N
              (N_of_ascii b < N_of_ascii a)%N (Ascii.compare a b).
Proof.
  unfold Ascii.compare. destruct (N.compare_spec (N_of_ascii a) (N_of_ascii b)) as [H|H|H].
  - constructor. rewrite <- (ascii_N_embedding a), <- (ascii_N_embedding b), H.
    reflexivity.
  - constructor. exact H.
  - constructor. exact H.
Qed.

Lemma string_compare_refl (s : string) : String.compare s s = Eq.
Proof.
  induction s as [|a s IH]; simpl; [reflexivity|].
  destruct (ascii_compare_spec a a) as [_|H|H]; [exact IH | lia | lia].
Qed.

Lemma string_compare_trans_le (s1 : string) :
  forall s2 s3,
    String.compare s1 s2 <> Gt -> String.compare s2 s3 <> Gt ->
    String.compare s1 s3 <> Gt.
Proof.
  induction s1 as [|a s1 IH]; intros [|b s2] [|c s3]; simpl; try congruence.
  destruct (ascii_compare_spec a b) as [Hab|Hab|Hab];
    destruct (ascii_compare_spec b c) as [Hbc|Hbc|Hbc];
    destruct (ascii_compare_spec a c) as [Hac|Hac|Hac];
    subst; try congruence; try lia.
  apply IH.
Qed.

Lemma string_leb_trans (s1 s2 s3 : string) :
  String.leb s1 s2 = true -> String.leb s2 s3 = true -> String.leb s1 s3 = true.
Proof.
  unfold String.leb. intros H12 H23.
  pose proof (string_compare_trans_le s1 s2 s3) as H.
  destruct (String.compare s1 s2); try discriminate;
    destruct (String.compare s2 s3); try discriminate;
    destruct (String.compare s1 s3); try reflexivity;
    exfalso; apply H; congruence.
Qed.

Lemma string_leb_false (s1 s2 : string) :
  String.leb s1 s2 = false -> String.leb s2 s1 = true.
Proof. intros H. destruct (String.leb_total s1 s2); congruence. Qed.

(** Two insertions into a list commute, whatever the list. *)
Lemma insert_sorted_comm (a b : string) (l : list string) :
  insert_sorted a (insert_sorted b l) = insert_sorted b (insert_sorted a l).
Proof.
  induction l as [|x l IH]; simpl.
  - destruct (String.leb a b) eqn:Hab, (String.leb b a) eqn:Hba; try reflexivity.
    + rewrite (String.leb_antisym a b Hab Hba). reflexivity.
    + apply string_leb_false in Hab. congruence.
  - destruct (String.leb b x) eqn:Hbx, (String.leb a x) eqn:Hax; simpl.
    + destruct (String.leb a b) eqn:Hab, (String.leb b a) eqn:Hba;
        rewrite ?Hax, ?Hbx; try reflexivity.
      * rewrite (String.leb_antisym a b Hab Hba). reflexivity.
      * apply string_leb_false in Hab. congruence.
    + rewrite Hbx.
      destruct (String.leb a b) eqn:Hab.
      * rewrite (string_leb_trans a b x Hab Hbx) in Hax. discriminate.
      * rewrite Hax. reflexivity.
    + rewrite Hax.
      destruct (String.leb b a) eqn:Hba.
      * rewrite (string_leb_trans b a x Hba Hax) in Hbx. discriminate.
      * rewrite Hbx. reflexivity.
    + rewrite Hax, Hbx, IH. reflexivity.
Qed.

Lemma sort_strings_permutation (l l' : list string) :
  Permutation l l' -> sort_strings l = sort_strings l'.
Proof.
  unfold sort_strings. induction 1; simpl.
  - reflexivity.
  - rewrite IHPermutation. reflexivity.
  - apply insert_sorted_comm.
  - congruence.
Qed.

(** X4.  The rendering that [LogicalOperator.__init__] gives an operator whose
    operand order does not matter ([AND], [NOT]) is the same for every order
    of the operands, however many they are; two operators of the kind built
    from the same operands in different orders are the same node. *)
Theorem LogicalOperator_init_permutation
    (k : OperatorKind) (args args' : list Node) :
  operands_order_matters k = false ->
  Permutation args args' ->
  node_str (LogicalOperator_init k args) = node_str (LogicalOperator_init k args')
  /\ LogicalOperator_init k args = LogicalOperator_init k args'.
Proof.
  intros Hk Hp.
  assert (H : sort_strings (map node_str args) = sort_strings (map node_str args')).
  { apply sort_strings_permutation. apply Permutation_map. exact Hp. }
  unfold LogicalOperator_init. rewrite Hk. cbv zeta. rewrite H.
  split; reflexivity.
Qed.

Lemma LogicalOperator_init_permutation_witness :
  node_str (LogicalOperator_init AND [var_y; node_p; var_x])
  = node_str (LogicalOperator_init AND [var_x; var_y; node_p])
  /\ LogicalOperator_init AND [var_y; node_p; var_x]
     = LogicalOperator_init AND [var_x; var_y; node_p].
Proof.
  apply (LogicalOperator_init_permutation AND [var_y; node_p; var_x]
           [var_x; var_y; node_p]).
  - reflexivity.
  - apply Permutation_sym. apply (Permutation_cons_append [var_y; node_p] var_x).
Defined.

Lemma replace_spaces_no_space (s : string) : no_space (replace_spaces s).
Proof.
  induction s as [|c s IH]; simpl; [exact I|]. split; [|exact IH].
  destruct (Ascii.eqb c " ") eqn:E; [discriminate|].
  apply Ascii.eqb_neq. exact E.
Qed.

Lemma replace_spaces_fixed (s : string) : no_space s -> replace_spaces s = s.
Proof.
  induction s as [|c s IH]; simpl; [reflexivity|]. intros [Hc Hs].
  apply Ascii.eqb_neq in Hc. rewrite Hc, (IH Hs). reflexivity.
Qed.

Lemma replace_spaces_append (s1 s2 : string) :
  replace_spaces (s1 ++ s2) = (replace_spaces s1 ++ replace_spaces s2)%string.
Proof. induction s1 as [|c s1 IH]; simpl; [|rewrite IH]; reflexivity. Qed.

(** X5.  The rendering of a predicate node holds no space: [__str__]
    replaces every space by an underscore, in the name as in the arguments.
    Two predicate names that differ only by spaces against underscores
    therefore give the same node, and a rendering that holds no space is
    left as it is. *)
Theorem predicate_node_rendering_has_no_space
    (predicate predicate' : string) (arguments : list Node) :
  no_space (node_str (predicate_node predicate arguments))
  /\ (replace_spaces predicate = replace_spaces predicate' ->
      predicate_node predicate arguments = predicate_node predicate' arguments)
  /\ (no_space predicate ->
      Forall (fun a => no_space (node_str a)) arguments ->
      node_str (predicate_node predicate arguments)
      = (predicate ++ "(" ++ String.concat "," (map node_str arguments) ++ ")")%string).
Proof.
  unfold predicate_node. simpl node_str. split; [apply replace_spaces_no_space|].
  split.
  - intros H. f_equal. rewrite !replace_spaces_append, H. reflexivity.
  - intros Hp Ha. apply replace_spaces_fixed.
    assert (Hc : no_space (String.concat "," (map node_str arguments))).
    { induction Ha as [|a l Hx Hl IH]; simpl; [exact I|].
      destruct (map node_str l) as [|b r] eqn:E; [exact Hx|].
      assert (Happ : forall s1 s2, no_space s1 -> no_space s2 -> no_space (s1 ++ s2)).
      { intros s1 s2 H1 H2. induction s1 as [|c s1 IHs]; simpl in *; [exact H2|].
        split; [tauto | apply IHs; tauto]. }
      apply Happ; [exact Hx|]. simpl. split; [discriminate | exact IH]. }
    assert (Happ : forall s1 s2, no_space s1 -> no_space s2 -> no_space (s1 ++ s2)).
    { intros s1 s2 H1 H2. induction s1 as [|c s1 IHs]; simpl in *; [exact H2|].
      split; [tauto | apply IHs; tauto]. }
    apply Happ; [exact Hp|]. simpl. split; [discriminate|].
    apply Happ; [exact Hc|]. simpl. split; [discriminate | exact I].
Qed.

Lemma predicate_node_rendering_has_no_space_witness :
  predicate_node "is open" [var_x] = predicate_node "is_open" [var_x].
Proof.
  apply (proj1 (proj2 (predicate_node_rendering_has_no_space "is open" "is_open"
                         [var_x]))).
  reflexivity.
Defined.

(** ** Merging attribute dictionaries, adding edges *)

(** X6.  [_merge_timestamped_data] raises [KeyError] exactly when one of the
    two dictionaries has no timestamp.  Otherwise the merged dictionary
    carries the timestamp of one of the two: with [keep_newer] one that
    neither of them exceeds, without it one that exceeds neither; and it has
    an implication tag exactly when one of the two has. *)
Theorem _merge_timestamped_data_keeps_extreme
    (now : Z) (d1 d2 : EdgeData) (keep_newer : bool) :
  (_merge_timestamped_data now d1 d2 keep_newer = Raise KeyError
   <-> timestamp d1 = None \/ timestamp d2 = None)
  /\ (forall t1 t2,
        timestamp d1 = Some t1 -> timestamp d2 = Some t2 ->
        exists merged t,
          _merge_timestamped_data now d1 d2 keep_newer = Ok merged
          /\ timestamp merged = Some t
          /\ (t = t1 \/ t = t2)
          /\ (if keep_newer
              then get_absolute_value now t1 <= get_absolute_value now t
                   /\ get_absolute_value now t2 <= get_absolute_value now t
              else get_absolute_value now t <= get_absolute_value now t1
                   /\ get_absolute_value now t <= get_absolute_value now t2)
          /\ (implication merged = None
              <-> implication d1 = None /\ implication d2 = None)).
Proof.
  unfold _merge_timestamped_data. split.
  - destruct (timestamp d1) as [t1|], (timestamp d2) as [t2|];
      try (split; [intros _; auto | reflexivity]).
    split; [|intros [H|H]; discriminate].
    destruct keep_newer; [destruct (ts_lt now t2 t1) | destruct (ts_lt now t1 t2)];
      discriminate.
  - intros t1 t2 H1 H2. rewrite H1, H2. unfold ts_lt.
    destruct keep_newer.
    + destruct (Z.ltb_spec (get_absolute_value now t2) (get_absolute_value now t1)).
      * exists (dict_update d2 d1), t1. unfold dict_update. simpl. rewrite H1.
        repeat split; auto; try lia;
          destruct (implication d1), (implication d2); intuition congruence.
      * exists (dict_update d1 d2), t2. unfold dict_update. simpl. rewrite H2.
        repeat split; auto; try lia;
          destruct (implication d1), (implication d2); intuition congruence.
    + destruct (Z.ltb_spec (get_absolute_value now t1) (get_absolute_value now t2)).
      * exists (dict_update d2 d1), t1. unfold dict_update. simpl. rewrite H1.
        repeat split; auto; try lia;
          destruct (implication d1), (implication d2); intuition congruence.
      * exists (dict_update d1 d2), t2. unfold dict_update. simpl. rewrite H2.
        repeat split; auto; try lia;
          destruct (implication d1), (implication d2); intuition congruence.
Qed.

Lemma insert_edge_perm (e : Edge) (l : list Edge) :
  Permutation (insert_edge e l) (e :: l).
Proof.
  induction l as [|x l IH]; simpl; [reflexivity|].
  destruct (same_pair (edge_src e) (edge_dst e) x
            && negb (existsb (same_pair (edge_src e) (edge_dst e)) l)).
  - apply perm_swap.
  - apply (perm_trans (perm_skip x IH)). apply perm_swap.
Qed.

Lemma existsb_false_forall {A : Type} (P : A -> bool) (l : list A) :
  existsb P l = false -> forall x, In x l -> P x = false.
Proof.
  intros H x Hx. destruct (P x) eqn:E; [|reflexivity].
  assert (existsb P l = true) by (apply existsb_exists; eauto). congruence.
Qed.

Lemma edge_triple_is_edge (u v : Node) (k : nat) (x : Edge) :
  (edge_src x, edge_dst x, edge_key x) = (u, v, k) -> is_edge u v k x = true.
Proof.
  intros H. injection H as <- <- <-. apply is_edge_self.
Qed.

(** A new edge between two nodes gets a key no edge between them has: the
    edges stay distinct. *)
Lemma distinct_edges_add_edge_new (g : MultiDiGraph) (u v : Node) (d : EdgeData) :
  distinct_edges g -> distinct_edges (add_edge g u v None d).
Proof.
  unfold distinct_edges. intros Hd. rewrite add_edge_new_edges.
  set (f := fun e : Edge => (edge_src e, edge_dst e, edge_key e)).
  apply (Permutation_NoDup
           (l := f {| edge_src := u; edge_dst := v; edge_key := new_edge_key g u v;
                      edge_data := d |} :: map f (edges g))).
  - apply Permutation_sym.
    apply (Permutation_map f (insert_edge_perm _ (edges g))).
  - constructor; [|exact Hd]. intros Hin. apply in_map_iff in Hin.
    destruct Hin as [x [Hx Hi]]. unfold f in Hx. simpl in Hx.
    apply edge_triple_is_edge in Hx.
    rewrite (existsb_false_forall _ _ (new_edge_key_fresh g u v) x Hi) in Hx.
    discriminate.
Qed.

Lemma find_insert_edge_new (P : Edge -> bool) (e : Edge) (l : list Edge) :
  P e = true -> (forall x, In x l -> P x = false) -> find P (insert_edge e l) = Some e.
Proof.
  intros He. induction l as [|x l IH]; simpl; intros Hl.
  - rewrite He. reflexivity.
  - destruct (same_pair (edge_src e) (edge_dst e) x
              && negb (existsb (same_pair (edge_src e) (edge_dst e)) l)); simpl;
      rewrite (Hl x (or_introl eq_refl)).
    + rewrite He. reflexivity.
    + apply IH. intros y Hy. apply Hl. now right.
Qed.

Lemma find_none_forall {A : Type} (P : A -> bool) (l : list A) :
  (forall x, In x l -> P x = false) -> find P l = None.
Proof.
  induction l as [|a l IH]; simpl; intros H; [reflexivity|].
  rewrite (H a (or_introl eq_refl)). apply IH. intros x Hx. apply H. now right.
Qed.

Lemma is_edge_triple (u v : Node) (k : nat) (a b : Node) (j : nat) (d : EdgeData) :
  (a, b, j) <> (u, v, k) ->
  is_edge a b j {| edge_src := u; edge_dst := v; edge_key := k; edge_data := d |}
  = false.
Proof.
  intros H. destruct (is_edge a b j _) eqn:E; [|reflexivity].
  apply is_edge_src in E. simpl in E. destruct E as [-> [-> ->]]. congruence.
Qed.

(** X7.  [_add_edge] without update always adds one edge, under a key no
    edge between the two nodes has: the attributes given are read back under
    that key, every other edge reads as before, both end points are nodes of
    the graph, and the edges stay distinct. *)
Theorem _add_edge_then_lookup (g : TimedPropertyGraph) (u v : Node) (d : EdgeData) :
  exists g',
    _add_edge g u v d false = Ok g'
    /\ get_edge_data (graph g) u v (new_edge_key (graph g) u v) = None
    /\ get_edge_data (graph g') u v (new_edge_key (graph g) u v) = Some d
    /\ (forall a b j,
          (a, b, j) <> (u, v, new_edge_key (graph g) u v) ->
          get_edge_data (graph g') a b j = get_edge_data (graph g) a b j)
    /\ List.length (edges (graph g')) = S (List.length (edges (graph g)))
    /\ (distinct_edges (graph g) -> distinct_edges (graph g'))
    /\ has_node (graph g') u = true
    /\ has_node (graph g') v = true.
Proof.
  eexists. split; [apply _add_edge_new|]. simpl graph.
  pose proof (existsb_false_forall _ _ (new_edge_key_fresh (graph g) u v)) as Hfresh.
  split; [|split; [|split; [|split; [|split; [|split]]]]].
  - unfold get_edge_data. rewrite (find_none_forall _ _ Hfresh). reflexivity.
  - unfold get_edge_data. rewrite add_edge_new_edges.
    rewrite find_insert_edge_new; [reflexivity | apply is_edge_self | exact Hfresh].
  - intros a b j Hne. unfold get_edge_data. rewrite add_edge_new_edges.
    rewrite find_insert_edge_other; [reflexivity|].
    apply is_edge_triple. exact Hne.
  - rewrite add_edge_new_edges.
    rewrite (Permutation_length (insert_edge_perm _ _)). reflexivity.
  - apply distinct_edges_add_edge_new.
  - apply mem_node_In. apply In_nodes_add_edge. auto.
  - apply mem_node_In. apply In_nodes_add_edge. auto.
Qed.

(** The loop of [PredicateGraph.__init__] over the arguments. *)
Lemma PredicateGraph_arguments (n : Node) (args : list Node) :
  forall g,
    root_node g = Some n ->
    Forall (fun e => edge_src e = n /\ edge_data e = no_data) (edges (graph g)) ->
    distinct_edges (graph g) ->
    exists g',
      foldM (fun g arg => _add_edge g n arg no_data false) args g = Ok g'
      /\ root_node g' = Some n
      /\ Forall (fun e => edge_src e = n /\ edge_data e = no_data) (edges (graph g'))
      /\ distinct_edges (graph g')
      /\ Permutation (map edge_dst (edges (graph g')))
                     (map edge_dst (edges (graph g)) ++ args)
      /\ time_source g' = time_source g
      /\ constant_properties g' = constant_properties g
      /\ (forall m, In m (nodes (graph g'))
                    <-> (In m (nodes (graph g)) \/ (args <> [] /\ m = n) \/ In m args)).
Proof.
  induction args as [|arg args IH]; intros g Hr Hf Hd; cbn [foldM].
  - exists g. rewrite app_nil_r.
    split; [reflexivity|]. split; [exact Hr|]. split; [exact Hf|].
    split; [exact Hd|]. split; [apply Permutation_refl|].
    split; [reflexivity|]. split; [reflexivity|].
    intros m. split; [auto|]. intros [H|[[H _]|[]]]; [exact H | congruence].
  - rewrite _add_edge_new. cbn [bind].
    set (g1 := set_root_node (set_graph g (add_edge (graph g) n arg None no_data)) _).
    destruct (IH g1) as [g' [Hg' [Hr' [Hf' [Hd' [Hp [Hts [Hcp Hn]]]]]]]].
    + unfold g1. cbn [graph root_node set_root_node set_graph]. unfold get_root_node. rewrite Hr.
      destruct (node_eqb arg n); reflexivity.
    + unfold g1. cbn [graph root_node set_root_node set_graph]. rewrite add_edge_new_edges. apply Forall_forall.
      intros e He. apply insert_edge_In in He. destruct He as [->|He].
      * simpl. auto.
      * apply (proj1 (Forall_forall _ _) Hf e He).
    + unfold g1. cbn [graph root_node set_root_node set_graph]. apply distinct_edges_add_edge_new. exact Hd.
    + exists g'. split; [exact Hg'|]. split; [exact Hr'|]. split; [exact Hf'|].
      split; [exact Hd'|]. split; [|split; [exact Hts | split; [exact Hcp|]]].
      * apply (perm_trans Hp). unfold g1. cbn [graph root_node set_root_node set_graph]. rewrite add_edge_new_edges.
        apply (perm_trans
                 (Permutation_app_tail args
                    (Permutation_map edge_dst (insert_edge_perm _ (edges (graph g)))))).
        simpl. apply Permutation_middle.
      * intros m. rewrite Hn. unfold g1. cbn [graph root_node set_root_node set_graph]. rewrite In_nodes_add_edge.
        assert (Hne : arg :: args <> []) by discriminate.
        simpl In. split.
        -- intros [[H|[H|H]]|[[_ H]|H]]; auto.
        -- intros [H|[[_ H]|[H|H]]]; auto.
Qed.

(** X8.  [PredicateGraph(predicate, args)] always returns a graph: its root
    is the predicate node; its nodes are the predicate node and the
    arguments; it has one edge per argument (an argument given twice gives
    two edges), every edge leads from the predicate node to an argument and
    carries no attribute; no two edges share end points and key; no constant
    property is registered. *)
Theorem PredicateGraph_shape (ts : TimeSource) (predicate : string) (args : list Node) :
  exists g,
    PredicateGraph ts predicate args = Ok g
    /\ root_node g = Some (predicate_node predicate args)
    /\ (forall m, In m (nodes (graph g))
                  <-> (m = predicate_node predicate args \/ In m args))
    /\ Permutation (map edge_dst (edges (graph g))) args
    /\ Forall (fun e => edge_src e = predicate_node predicate args
                        /\ edge_data e = no_data) (edges (graph g))
    /\ distinct_edges (graph g)
    /\ time_source g = ts
    /\ constant_properties g = [].
Proof.
  unfold PredicateGraph.
  destruct (PredicateGraph_arguments (predicate_node predicate args) args
              (_add_node (TimedPropertyGraph_init ts) (predicate_node predicate args)))
    as [g [Hg [Hr [Hf [Hd [Hp [Hts [Hcp Hn]]]]]]]].
  - reflexivity.
  - constructor.
  - constructor.
  - exists g. split; [exact Hg|]. split; [exact Hr|].
    split; [|split; [exact Hp | split; [exact Hf | split; [exact Hd | split]]]].
    + intros m. rewrite Hn. simpl. intuition.
    + exact Hts.
    + exact Hcp.
Qed.

(** ** Uniform timestamps *)

Lemma uniform_loop_spec (now : Z) (t : Timestamp) (l : list (option Timestamp)) :
  (forall o, In o l -> o <> None) ->
  exists b, uniform_loop now t l = Ok b
            /\ (b = true <-> forall o, In o l -> o = Some t).
Proof.
  induction l as [|[t'|] l IH]; simpl; intros Hs.
  - exists true. split; [reflexivity|]. split; [intros _ o [] | reflexivity].
  - destruct IH as [b [Hb Hiff]]; [intros o Ho; apply Hs; now right|].
    assert (Hneq : t <> t' ->
                   exists b', (if negb (Bool.eqb (is_absolute t) (is_absolute t'))
                               then Ok false
                               else if is_absolute t
                                       && negb (get_absolute_value now t
                                                =? get_absolute_value now t')
                                    then Ok false
                                    else if negb (is_absolute t)
                                            && negb (if Timestamp_eq_dec t t'
                                                     then true else false)
                                         then Ok false
                                         else uniform_loop now t l) = Ok false
                              /\ b' = false).
    { intros Hne. exists false. split; [|reflexivity].
      destruct t as [v|d], t' as [v'|d'];
        cbn [is_absolute Bool.eqb negb andb get_absolute_value]; try reflexivity.
      - destruct (Z.eqb_spec v v'); [congruence | reflexivity].
      - destruct (Timestamp_eq_dec (Relative d) (Relative d')); [congruence|].
        reflexivity. }
    destruct (Timestamp_eq_dec t t') as [<-|Hne].
    + exists b. split.
      * destruct t as [v|d];
          cbn [is_absolute Bool.eqb negb andb get_absolute_value].
        -- rewrite Z.eqb_refl. cbn [negb]. exact Hb.
        -- destruct (Timestamp_eq_dec (Relative d) (Relative d)); [|congruence].
           cbn [negb]. exact Hb.
      * rewrite Hiff. split.
        -- intros H o [<-|Ho]; [reflexivity | apply H; exact Ho].
        -- intros H o Ho. apply H. now right.
    + destruct (Hneq Hne) as [_ [Hf _]]. exists false. split; [exact Hf|].
      split; [discriminate|]. intros H.
      specialize (H (Some t') (or_introl eq_refl)). congruence.
  - exfalso. apply (Hs None); auto.
Qed.

Lemma graph_edges_map (f : Edge -> Edge) (g : MultiDiGraph) :
  (forall e, edge_src (f e) = edge_src e) ->
  graph_edges {| nodes := nodes g; edges := map f (edges g) |}
  = map f (graph_edges g).
Proof.
  intros Hf. unfold graph_edges, out_edges. simpl.
  generalize (nodes g) as ns. intros ns.
  induction ns as [|n l IH]; simpl; [reflexivity|].
  rewrite map_app, IH. f_equal.
  apply filter_map_commute. intros e. rewrite Hf. reflexivity.
Qed.

(** X9.  On a graph all of whose edges carry a timestamp,
    [is_uniform_timestamped(t)] returns, and returns [True] exactly when
    every edge carries the timestamp [t] (the same kind, the same value).
    After [set_timestamp(t)] the graph is uniformly timestamped, with [t]
    given and, when it has an edge, with no timestamp given; on a graph
    without edges the call with no timestamp given raises [IndexError]. *)
Theorem is_uniform_timestamped_iff_all_equal (g : TimedPropertyGraph) (t : Timestamp) :
  (stamped (graph g) ->
   exists b,
     is_uniform_timestamped g (Some t) = Ok b
     /\ (b = true <-> forall e, In e (graph_edges (graph g)) ->
                                timestamp (edge_data e) = Some t))
  /\ is_uniform_timestamped (set_timestamp g t) (Some t) = Ok true
  /\ (graph_edges (graph g) <> [] ->
      is_uniform_timestamped (set_timestamp g t) None = Ok true)
  /\ (graph_edges (graph g) = [] ->
      is_uniform_timestamped g None = Raise IndexError).
Proof.
  assert (Hspec : forall g0 : TimedPropertyGraph,
             stamped (graph g0) ->
             exists b,
               is_uniform_timestamped g0 (Some t) = Ok b
               /\ (b = true <-> forall e, In e (graph_edges (graph g0)) ->
                                          timestamp (edge_data e) = Some t)).
  { intros g0 Hs. unfold is_uniform_timestamped.
    destruct (uniform_loop_spec (now_of g0) t
                (map (fun e => timestamp (edge_data e)) (graph_edges (graph g0))))
      as [b [Hb Hiff]].
    - intros o Ho. apply in_map_iff in Ho. destruct Ho as [e [<- He]].
      apply Hs. apply graph_edges_incl. exact He.
    - exists b. split; [exact Hb|]. rewrite Hiff. split.
      + intros H e He. apply H. apply in_map_iff. eauto.
      + intros H o Ho. apply in_map_iff in Ho. destruct Ho as [e [<- He]].
        apply H. exact He. }
  assert (Hset : forall e, In e (edges (graph (set_timestamp g t))) ->
                           timestamp (edge_data e) = Some t).
  { intros e He. unfold set_timestamp in He. simpl in He.
    apply in_map_iff in He. destruct He as [x [<- _]]. reflexivity. }
  assert (Hsome : is_uniform_timestamped (set_timestamp g t) (Some t) = Ok true).
  { destruct (Hspec (set_timestamp g t)) as [b [Hb Hiff]].
    - intros e He. rewrite (Hset e He). discriminate.
    - rewrite Hb. f_equal. apply Hiff. intros e He. apply Hset.
      apply graph_edges_incl. exact He. }
  split; [apply Hspec|]. split; [exact Hsome|]. split.
  - intros Hne. unfold is_uniform_timestamped in *.
    destruct (graph_edges (graph (set_timestamp g t))) as [|e l] eqn:E.
    + exfalso. apply Hne. unfold set_timestamp in E. simpl in E.
      rewrite graph_edges_map in E; [|reflexivity].
      destruct (graph_edges (graph g)); [reflexivity | discriminate].
    + cbn [map] in *. rewrite (Hset e) in *.
      * exact Hsome.
      * apply graph_edges_incl. rewrite E. now left.
      * apply graph_edges_incl. rewrite E. now left.
  - intros E. unfold is_uniform_timestamped. rewrite E. reflexivity.
Qed.

Lemma is_uniform_timestamped_iff_all_equal_witness :
  exists b,
    is_uniform_timestamped graph_p1_and_p2 (Some (Absolute 2)) = Ok b
    /\ (b = true <-> forall e, In e (graph_edges (graph graph_p1_and_p2)) ->
                               timestamp (edge_data e) = Some (Absolute 2)).
Proof.
  apply (proj1 (is_uniform_timestamped_iff_all_equal graph_p1_and_p2 (Absolute 2))).
  intros e [<-|[<-|[<-|[]]]]; discriminate.
Defined.

(** ** Updating a path *)

Lemma existsb_map_update_edge (u v a b : Node) (k j : nat) (d : EdgeData)
    (l : list Edge) :
  existsb (is_edge u v k) (map (update_edge a b j d) l) = existsb (is_edge u v k) l.
Proof.
  induction l as [|x l IH]; simpl; [reflexivity|].
  rewrite is_edge_update_edge, IH. reflexivity.
Qed.

(** X10.  [update_path_timestamp] returns exactly when every edge of the
    path is an edge of the graph; when it raises, which it does at the first
    edge that is missing, the error is [KeyError]. *)
Theorem update_path_timestamp_returns_iff_edges_exist
    (g : TimedPropertyGraph) (path : Path) (t : Timestamp) :
  ((exists g', update_path_timestamp g path t = Ok g')
   <-> (forall x, In x path ->
          existsb (is_edge (pe_src x) (pe_dst x) (pe_key x)) (edges (graph g)) = true))
  /\ (forall e, update_path_timestamp g path t = Raise e -> e = KeyError).
Proof.
  unfold update_path_timestamp. revert g.
  induction path as [|x path IH]; intros g; cbn [foldM].
  - split; [|discriminate]. split; [intros _ y [] | eauto].
  - assert (Hstep :
              (gr <- update_edge_data (graph g) (pe_src x) (pe_dst x) (pe_key x)
                       (timestamp_data (Some t)) ;;
               Ok (set_graph g gr))
              = if existsb (is_edge (pe_src x) (pe_dst x) (pe_key x)) (edges (graph g))
                then Ok (set_graph g
                           {| nodes := nodes (graph g);
                              edges := map (update_edge (pe_src x) (pe_dst x) (pe_key x)
                                              (timestamp_data (Some t)))
                                           (edges (graph g)) |})
                else Raise KeyError).
    { unfold update_edge_data. destruct (existsb _ (edges (graph g))); reflexivity. }
    rewrite Hstep. clear Hstep.
    destruct (existsb (is_edge (pe_src x) (pe_dst x) (pe_key x)) (edges (graph g)))
      eqn:Ex; cbn [bind].
    + set (g1 := set_graph g _).
      destruct (IH g1) as [Hiff Herr]. split; [|exact Herr].
      rewrite Hiff. unfold g1. simpl. split.
      * intros H y [<-|Hy]; [exact Ex|].
        rewrite <- (existsb_map_update_edge _ _ (pe_src x) (pe_dst x) _ (pe_key x)
                      (timestamp_data (Some t))).
        apply H. exact Hy.
      * intros H y Hy. rewrite existsb_map_update_edge. apply H. now right.
    + split; [|intros e H; congruence]. split.
      * intros [g' H]. discriminate.
      * intros H. specialize (H x (or_introl eq_refl)). congruence.
Qed.

(** ** Negations on a path *)

Lemma connected_from_visits (p : Path) :
  forall u last l,
    connected_from u p -> p = l ++ [last] ->
    visited_nodes u p = map pe_src p ++ [pe_dst last].
Proof.
  unfold visited_nodes.
  induction p as [|e p IH]; intros u last l Hc Hp.
  - destruct l; discriminate.
  - simpl in Hc. destruct Hc as [<- Hc]. simpl. f_equal.
    destruct l as [|e' l].
    + simpl in Hp. injection Hp as He Hp. subst. reflexivity.
    + simpl in Hp. injection Hp as He Hp. subst e'.
      apply (IH (pe_dst e) last l Hc Hp).
Qed.

(** X11.  [count_nots_in_path] raises [IndexError] on the empty path.  On a
    path whose edges follow one another it returns the number of [NOT] nodes
    among the nodes the path visits, the first and the last one included. *)
Theorem count_nots_in_path_counts_visited_nots (u : Node) (p : Path) :
  count_nots_in_path [] = Raise IndexError
  /\ (p <> [] -> connected_from u p ->
      count_nots_in_path p
      = Ok (List.length (filter (is_kind NOT) (visited_nodes u p)))).
Proof.
  split; [reflexivity|]. intros Hne Hc.
  destruct (exists_last Hne) as [l [last Hp]].
  rewrite (connected_from_visits p u last l Hc Hp).
  unfold count_nots_in_path. rewrite Hp at 1. rewrite rev_app_distr. simpl.
  f_equal. rewrite filter_app, length_app. f_equal.
  - clear. induction p as [|e p IH]; simpl; [reflexivity|].
    destruct (is_kind NOT (pe_src e)); simpl; rewrite IH; reflexivity.
  - simpl. destruct (is_kind NOT (pe_dst last)); reflexivity.
Qed.

Lemma count_nots_in_path_counts_visited_nots_witness :
  count_nots_in_path second_occurrence
  = Ok (List.length (filter (is_kind NOT)
                       (visited_nodes node_and_p_p second_occurrence))).
Proof.
  apply (proj2 (count_nots_in_path_counts_visited_nots node_and_p_p
                  second_occurrence)).
  - discriminate.
  - simpl. auto.
Defined.

(** ** The deeper common node *)





(** ** Inflating a subgraph *)

Lemma rev_filter_last {A : Type} (P : A -> bool) (l : list A) (r : A) (tl0 : list A) :
  rev (filter P l) = r :: tl0 ->
  P r = true
  /\ exists l1 l2, l = l1 ++ r :: l2 /\ forall x, In x l2 -> P x = false.
Proof.
  revert r tl0. induction l as [|a l IH] using rev_ind; intros r tl0 H.
  - discriminate.
  - rewrite filter_app, rev_app_distr in H. simpl in H.
    destruct (P a) eqn:Pa; simpl in H.
    + injection H as <- _. split; [exact Pa|]. exists l, []. split; [reflexivity|].
      intros x [].
    + destruct (IH r tl0 H) as [Hr [l1 [l2 [-> Hl2]]]]. split; [exact Hr|].
      exists l1, (l2 ++ [a]). split; [rewrite <- app_assoc; reflexivity|].
      intros x Hx. apply in_app_or in Hx. destruct Hx as [Hx|[<-|[]]]; auto.
Qed.

(** X13.  [_inflate_property_graph_from_subgraph] returns [None] exactly for
    a subgraph without nodes, and raises its exception exactly when the
    subgraph has nodes and every one of them has an in-edge.  Otherwise the
    graph returned holds the subgraph, the time source and the text of this
    graph and no constant property, and its root is a node without in-edge:
    the last such node in the order of the nodes. *)
Theorem _inflate_property_graph_root_has_no_in_edge
    (g : TimedPropertyGraph) (sg : MultiDiGraph) :
  (_inflate_property_graph_from_subgraph g (Some sg) = Ok None <-> nodes sg = [])
  /\ ((exists msg, _inflate_property_graph_from_subgraph g (Some sg)
                   = Raise (Exception msg))
      <-> (nodes sg <> [] /\ forall n, In n (nodes sg) -> in_degree sg n <> 0%nat))
  /\ (forall pg,
        _inflate_property_graph_from_subgraph g (Some sg) = Ok (Some pg) ->
        graph pg = sg
        /\ time_source pg = time_source g
        /\ property_textual_representation pg = property_textual_representation g
        /\ constant_properties pg = []
        /\ exists r l1 l2,
             root_node pg = Some r
             /\ in_degree sg r = 0%nat
             /\ nodes sg = l1 ++ r :: l2
             /\ forall n, In n l2 -> in_degree sg n <> 0%nat).
Proof.
  unfold _inflate_property_graph_from_subgraph, number_of_nodes.
  destruct (nodes sg) as [|n0 ns] eqn:En.
  - simpl. split; [tauto|]. split; [|discriminate].
    split; [intros [msg H]; discriminate | intros [H _]; congruence].
  - cbn [List.length Nat.eqb].
    destruct (rev (filter (fun n => Nat.eqb (in_degree sg n) 0) (n0 :: ns)))
      as [|r tl0] eqn:Er.
    + split; [split; [discriminate | discriminate]|]. split; [|discriminate].
      split; [|eauto]. intros _. split; [discriminate|].
      intros n Hn Hz.
      assert (Hf : In n (filter (fun n => Nat.eqb (in_degree sg n) 0) (n0 :: ns))).
      { apply filter_In. split; [exact Hn | apply Nat.eqb_eq; exact Hz]. }
      apply in_rev in Hf. rewrite Er in Hf. destruct Hf.
    + destruct (rev_filter_last _ _ _ _ Er) as [Hr [l1 [l2 [Hl Hl2]]]].
      apply Nat.eqb_eq in Hr.
      split; [split; [discriminate | discriminate]|]. split.
      * split; [intros [msg H]; discriminate|]. intros [_ H]. exfalso.
        apply (H r); [|exact Hr]. rewrite Hl. apply in_or_app. right. now left.
      * intros pg H. injection H as <-. simpl.
        repeat (split; [reflexivity|]).
        exists r, l1, l2. split; [reflexivity|]. split; [exact Hr|].
        split; [exact Hl|]. intros n Hn. apply Nat.eqb_neq. apply Hl2. exact Hn.
Qed.

(** ** The two parts of an implication *)

Lemma reachable_step (g : MultiDiGraph) (seen : list Node) (es : list Edge) :
  forall acc,
    (forall e, In e es -> In e (edges g)) ->
    reached_from g seen acc ->
    reached_from g seen
      (fold_left (fun acc e =>
                    if mem_node (edge_src e) acc && negb (mem_node (edge_dst e) acc)
                    then acc ++ [edge_dst e] else acc) es acc).
Proof.
  induction es as [|e es IH]; intros acc Hes Hacc; simpl; [exact Hacc|].
  apply IH; [intros x Hx; apply Hes; now right|].
  destruct (mem_node (edge_src e) acc && negb (mem_node (edge_dst e) acc)) eqn:C;
    [|exact Hacc].
  apply andb_prop in C. destruct C as [Hsrc _]. apply mem_node_In in Hsrc.
  intros m Hm. apply in_app_or in Hm. destruct Hm as [Hm|[<-|[]]].
  - destruct (Hacc m Hm) as [H|[x [Hx [Hd Hs]]]]; [now left|].
    right. exists x. split; [exact Hx|]. split; [exact Hd|].
    apply in_or_app. now left.
  - right. exists e. split; [apply Hes; now left|]. split; [reflexivity|].
    apply in_or_app. now left.
Qed.

Lemma reachable_reached (fuel : nat) (g : MultiDiGraph) (seen : list Node) :
  forall acc, reached_from g seen acc -> reached_from g seen (reachable fuel g acc).
Proof.
  induction fuel as [|f IH]; intros acc H; simpl; [exact H|].
  apply IH. apply reachable_step; auto.
Qed.

(** In the subgraph of the nodes reached from [source], every node but
    [source] has an in-edge. *)
Lemma subgraph_reached_in_degree (g : MultiDiGraph) (source m : Node) :
  In m (nodes (subgraph g (dfs_postorder_nodes g source))) ->
  in_degree (subgraph g (dfs_postorder_nodes g source)) m = 0%nat ->
  m = source.
Proof.
  unfold dfs_postorder_nodes. intros Hm Hz.
  set (ns := reachable (number_of_nodes g) g [source]) in *.
  assert (Hr : reached_from g [source] ns).
  { apply reachable_reached. intros x [<-|[]]. left. now left. }
  unfold subgraph in Hm. simpl in Hm. apply filter_In in Hm.
  destruct Hm as [_ Hm]. apply mem_node_In in Hm.
  destruct (Hr m Hm) as [[<-|[]]|[e [He [Hd Hs]]]]; [reflexivity|].
  exfalso. unfold in_degree in Hz. apply length_zero_iff_nil in Hz.
  assert (Hin : In e (in_edges (subgraph g ns) m)).
  { unfold in_edges, subgraph. simpl. apply filter_In. split.
    - apply filter_In. split; [exact He|].
      apply andb_true_intro. split; apply mem_node_In; [exact Hs|].
      rewrite Hd. exact Hm.
    - rewrite Hd. apply node_eqb_refl. }
  rewrite Hz in Hin. destruct Hin.
Qed.

Lemma implication_parts_fold (g : MultiDiGraph) (l : list Edge) :
  forall ac : option MultiDiGraph * option MultiDiGraph,
    let res :=
      fold_left
        (fun ac edge =>
           let sub := subgraph g (dfs_postorder_nodes g (edge_dst edge)) in
           match implication (edge_data edge) with
           | Some ASSUMPTION_GRAPH => (Some sub, snd ac)
           | Some CONCLUSION_GRAPH => (fst ac, Some sub)
           | None => ac
           end) l ac in
    (fst res = fst ac
     \/ exists e, In e l /\ implication (edge_data e) = Some ASSUMPTION_GRAPH
                  /\ fst res = Some (subgraph g (dfs_postorder_nodes g (edge_dst e))))
    /\ (snd res = snd ac
        \/ exists e, In e l /\ implication (edge_data e) = Some CONCLUSION_GRAPH
                     /\ snd res = Some (subgraph g (dfs_postorder_nodes g (edge_dst e)))).
Proof.
  induction l as [|x l IH]; intros ac; simpl; [auto|].
  set (ac' := match implication (edge_data x) with
              | Some ASSUMPTION_GRAPH => _
              | Some CONCLUSION_GRAPH => _
              | None => ac
              end).
  destruct (IH ac') as [Ha Hc]. simpl in Ha, Hc.
  split.
  - destruct Ha as [Ha|[e [He [Ht Hr]]]]; [|right; exists e; auto].
    rewrite Ha. unfold ac'.
    destruct (implication (edge_data x)) as [[|]|] eqn:Hx; simpl; auto.
    right. exists x. auto.
  - destruct Hc as [Hc|[e [He [Ht Hr]]]]; [|right; exists e; auto].
    rewrite Hc. unfold ac'.
    destruct (implication (edge_data x)) as [[|]|] eqn:Hx; simpl; auto.
    right. exists x. auto.
Qed.

Lemma _inflate_root_of_reached (g pg : TimedPropertyGraph) (source : Node) :
  _inflate_property_graph_from_subgraph g
    (Some (subgraph (graph g) (dfs_postorder_nodes (graph g) source))) = Ok (Some pg) ->
  root_node pg = Some source
  /\ graph pg = subgraph (graph g) (dfs_postorder_nodes (graph g) source)
  /\ time_source pg = time_source g
  /\ constant_properties pg = [].
Proof.
  unfold _inflate_property_graph_from_subgraph.
  set (sg := subgraph (graph g) (dfs_postorder_nodes (graph g) source)).
  destruct (Nat.eqb (number_of_nodes sg) 0); [discriminate|].
  destruct (rev (filter (fun n => Nat.eqb (in_degree sg n) 0) (nodes sg)))
    as [|r tl0] eqn:Er; [discriminate|].
  intros H. injection H as <-. simpl.
  destruct (rev_filter_last _ _ _ _ Er) as [Hr [l1 [l2 [Hl _]]]].
  apply Nat.eqb_eq in Hr.
  assert (r = source) as ->.
  { apply (subgraph_reached_in_degree (graph g) source r); [|exact Hr].
    fold sg. rewrite Hl. apply in_or_app. right. now left. }
  auto.
Qed.

(** X14.  On a graph whose root is not an implication operator,
    [get_top_level_implication_subgraphs] raises [TypeError].  When it
    returns an assumption and a conclusion, these are the subgraphs of the
    nodes reached from the targets of an edge out of the root tagged as
    assumption and of one tagged as conclusion; the root of each part is that
    target, and the parts carry the time source of the graph and no constant
    property. *)
Theorem get_top_level_implication_subgraphs_roots (g : TimedPropertyGraph) :
  (match root_node g with
   | Some r => is_kind IMPLIES r = false
   | None => True
   end -> get_top_level_implication_subgraphs g = Raise TypeError)
  /\ (forall a c,
        get_top_level_implication_subgraphs g = Ok (Some a, Some c) ->
        exists r ea ec,
          root_node g = Some r /\ is_kind IMPLIES r = true
          /\ In ea (out_edges (graph g) r)
          /\ implication (edge_data ea) = Some ASSUMPTION_GRAPH
          /\ In ec (out_edges (graph g) r)
          /\ implication (edge_data ec) = Some CONCLUSION_GRAPH
          /\ root_node a = Some (edge_dst ea)
          /\ root_node c = Some (edge_dst ec)
          /\ graph a = subgraph (graph g) (dfs_postorder_nodes (graph g) (edge_dst ea))
          /\ graph c = subgraph (graph g) (dfs_postorder_nodes (graph g) (edge_dst ec))
          /\ time_source a = time_source g /\ time_source c = time_source g
          /\ constant_properties a = [] /\ constant_properties c = []).
Proof.
  unfold get_top_level_implication_subgraphs. split.
  - destruct (root_node g) as [r|]; [intros ->|intros _]; reflexivity.
  - intros a c H.
    destruct (root_node g) as [r|] eqn:Hr; [|discriminate].
    destruct (is_kind IMPLIES r) eqn:Hk; [|discriminate].
    pose proof (implication_parts_fold (graph g) (out_edges (graph g) r) (None, None))
      as Hfold. cbv zeta in Hfold.
    destruct (fold_left _ (out_edges (graph g) r) (None, None)) as [sa sc].
    simpl in Hfold. destruct Hfold as [Ha Hc].
    apply bind_ok in H. destruct H as [a' [Hia H]].
    apply bind_ok in H. destruct H as [c' [Hic H]].
    injection H as -> ->.
    destruct Ha as [->|[ea [Hea [Hta ->]]]]; [discriminate|].
    destruct Hc as [->|[ec [Hec [Htc ->]]]]; [discriminate|].
    destruct (_inflate_root_of_reached g a (edge_dst ea) Hia) as [Ra [Ga [Ta Ca]]].
    destruct (_inflate_root_of_reached g c (edge_dst ec) Hic) as [Rc [Gc [Tc Cc]]].
    exists r, ea, ec. repeat (split; [assumption || reflexivity|]). assumption.
Qed.

Lemma get_top_level_implication_subgraphs_roots_witness :
  exists r ea ec,
    root_node graph_A_implies_B = Some r /\ is_kind IMPLIES r = true
    /\ In ea (out_edges (graph graph_A_implies_B) r)
    /\ implication (edge_data ea) = Some ASSUMPTION_GRAPH
    /\ In ec (out_edges (graph graph_A_implies_B) r)
    /\ implication (edge_data ec) = Some CONCLUSION_GRAPH
    /\ root_node assumption_of_A_implies_B = Some (edge_dst ea)
    /\ root_node conclusion_of_A_implies_B = Some (edge_dst ec)
    /\ graph assumption_of_A_implies_B
       = subgraph (graph graph_A_implies_B)
           (dfs_postorder_nodes (graph graph_A_implies_B) (edge_dst ea))
    /\ graph conclusion_of_A_implies_B
       = subgraph (graph graph_A_implies_B)
           (dfs_postorder_nodes (graph graph_A_implies_B) (edge_dst ec))
    /\ time_source assumption_of_A_implies_B = time_source graph_A_implies_B
    /\ time_source conclusion_of_A_implies_B = time_source graph_A_implies_B
    /\ constant_properties assumption_of_A_implies_B = []
    /\ constant_properties conclusion_of_A_implies_B = [].
Proof.
  apply (proj2 (get_top_level_implication_subgraphs_roots graph_A_implies_B)
           assumption_of_A_implies_B conclusion_of_A_implies_B).
  vm_compute. reflexivity.
Defined.

(** ** Switching the parts of an implication *)

Lemma insert_edge_at_end (e : Edge) (l : list Edge) :
  (forall x, In x l -> edge_src x <> edge_src e) -> insert_edge e l = l ++ [e].
Proof.
  induction l as [|x l IH]; simpl; intros H; [reflexivity|].
  assert (Hx : same_pair (edge_src e) (edge_dst e) x = false).
  { unfold same_pair. destruct (node_eqb (edge_src x) (edge_src e)) eqn:E; [|reflexivity].
    apply node_eqb_eq in E. exfalso. apply (H x); auto. }
  rewrite Hx. simpl. rewrite IH; [reflexivity|]. intros y Hy. apply H. now right.
Qed.

Lemma insert_edge_after_last (e1 e2 : Edge) (l : list Edge) :
  edge_src e1 = edge_src e2 ->
  (forall x, In x l -> edge_src x <> edge_src e2) ->
  insert_edge e2 (l ++ [e1]) = l ++ [e1; e2].
Proof.
  intros Hs. induction l as [|x l IH]; simpl; intros H.
  - destruct (same_pair (edge_src e2) (edge_dst e2) e1); reflexivity.
  - assert (Hx : same_pair (edge_src e2) (edge_dst e2) x = false).
    { unfold same_pair.
      destruct (node_eqb (edge_src x) (edge_src e2)) eqn:E; [|reflexivity].
      apply node_eqb_eq in E. exfalso. apply (H x); auto. }
    rewrite Hx. simpl. rewrite IH; [reflexivity|]. intros y Hy. apply H. now right.
Qed.

(** Two edges added from a node that had none are its out-edges, in the
    order they were added. *)
Lemma out_edges_two_new_exact (G : MultiDiGraph) (n r1 r2 : Node) (d1 d2 : EdgeData) :
  out_edges G n = [] ->
  exists k1 k2,
    out_edges (add_edge (add_edge G n r1 None d1) n r2 None d2) n
    = [{| edge_src := n; edge_dst := r1; edge_key := k1; edge_data := d1 |};
       {| edge_src := n; edge_dst := r2; edge_key := k2; edge_data := d2 |}]
    /\ (r1, k1) <> (r2, k2).
Proof.
  intros Hn.
  pose proof (out_edges_nil_src G n Hn) as Hsrc.
  set (e1 := {| edge_src := n; edge_dst := r1; edge_key := new_edge_key G n r1;
                edge_data := d1 |}).
  set (G1 := add_edge G n r1 None d1).
  set (e2 := {| edge_src := n; edge_dst := r2; edge_key := new_edge_key G1 n r2;
                edge_data := d2 |}).
  assert (E1 : edges G1 = edges G ++ [e1]).
  { unfold G1. rewrite add_edge_new_edges. apply insert_edge_at_end. exact Hsrc. }
  assert (E2 : edges (add_edge G1 n r2 None d2) = edges G ++ [e1; e2]).
  { rewrite add_edge_new_edges, E1.
    apply (insert_edge_after_last e1 e2); [reflexivity | exact Hsrc]. }
  exists (new_edge_key G n r1), (new_edge_key G1 n r2). split.
  - unfold out_edges. rewrite E2, filter_app. fold (out_edges G n). rewrite Hn.
    simpl. rewrite node_eqb_refl. reflexivity.
  - intros Heq. injection Heq as Hr Hk.
    pose proof (existsb_false_forall _ _ (new_edge_key_fresh G1 n r2) e1) as Hf.
    rewrite E1 in Hf.
    assert (Hin : In e1 (edges G ++ [e1])) by (apply in_or_app; right; now left).
    specialize (Hf Hin).
    unfold is_edge, same_pair, e1 in Hf. cbn [edge_src edge_dst edge_key] in Hf.
    rewrite Hk, node_eqb_refl, Hr, node_eqb_refl, Nat.eqb_refl in Hf. discriminate.
Qed.

Lemma logical_implication_result (g pg g' : TimedPropertyGraph) (t : option Timestamp)
    (r1 r2 : Node) :
  root_node g = Some r1 -> root_node pg = Some r2 ->
  logical_implication g pg t = Ok g' ->
  exists ta tc,
    graph g'
    = add_edge
        (add_edge (add_edges_from (graph g) (graph_edges (graph pg)))
           (ImplicationOperator r1 r2) r1 None
           {| timestamp := ta; implication := Some ASSUMPTION_GRAPH |})
        (ImplicationOperator r1 r2) r2 None
        {| timestamp := tc; implication := Some CONCLUSION_GRAPH |}
    /\ root_node g' = Some (ImplicationOperator r1 r2).
Proof.
  intros H1 H2 H. unfold logical_implication, get_root_node in H.
  rewrite H1, H2 in H. apply bind_ok in H. destruct H as [[ta tc] [_ H]].
  rewrite !_add_edge_new in H. cbn [bind] in H. injection H as <-.
  exists ta, tc. split; [reflexivity|]. cbn. rewrite H1, node_eqb_refl.
  destruct (node_eqb r2 (ImplicationOperator r1 r2)); reflexivity.
Qed.

Lemma update_edge_other (u v : Node) (k : nat) (d : EdgeData) (e : Edge) :
  is_edge u v k e = false -> update_edge u v k d e = e.
Proof. unfold update_edge. intros ->. reflexivity. Qed.

Lemma is_edge_other_id (e x : Edge) :
  edge_src e = edge_src x ->
  (edge_dst e, edge_key e) <> (edge_dst x, edge_key x) ->
  is_edge (edge_src e) (edge_dst e) (edge_key e) x = false.
Proof.
  intros Hs Hne. destruct (is_edge _ _ _ x) eqn:E; [|reflexivity].
  apply is_edge_src in E. destruct E as [_ [Hd Hk]]. congruence.
Qed.

(** The edge [e] with its implication tag set. *)
Lemma update_edge_tag (e : Edge) (part : ImplicationPart) :
  update_edge (edge_src e) (edge_dst e) (edge_key e)
    {| timestamp := None; implication := Some part |} e
  = {| edge_src := edge_src e; edge_dst := edge_dst e; edge_key := edge_key e;
       edge_data := {| timestamp := timestamp (edge_data e);
                       implication := Some part |} |}.
Proof. unfold update_edge. rewrite is_edge_self. reflexivity. Qed.

(** One call of [switch_implication_parts] on a graph whose root has two
    out-edges, [ea] tagged as assumption and [ec] tagged as conclusion. *)
Lemma switch_implication_parts_step (g : TimedPropertyGraph) (r : Node)
    (ea ec : Edge) :
  root_node g = Some r -> is_kind IMPLIES r = true ->
  has_node (graph g) r = true ->
  out_edges (graph g) r = [ea; ec] \/ out_edges (graph g) r = [ec; ea] ->
  implication (edge_data ea) = Some ASSUMPTION_GRAPH ->
  implication (edge_data ec) = Some CONCLUSION_GRAPH ->
  (edge_dst ea, edge_key ea) <> (edge_dst ec, edge_key ec) ->
  switch_implication_parts g
  = Ok (set_graph g
          {| nodes := nodes (graph g);
             edges :=
               map (update_edge (edge_src ec) (edge_dst ec) (edge_key ec)
                      {| timestamp := None; implication := Some ASSUMPTION_GRAPH |})
                   (map (update_edge (edge_src ea) (edge_dst ea) (edge_key ea)
                           {| timestamp := None;
                              implication := Some CONCLUSION_GRAPH |})
                        (edges (graph g))) |}).
Proof.
  intros Hr Hk Hn Ho Ha Hc Hne.
  assert (Hina : In ea (edges (graph g))).
  { apply (out_edges_In _ r). destruct Ho as [Ho|Ho]; rewrite Ho; simpl; auto. }
  assert (Hinc : In ec (edges (graph g))).
  { apply (out_edges_In _ r). destruct Ho as [Ho|Ho]; rewrite Ho; simpl; auto. }
  unfold switch_implication_parts, _get_top_level_implication_edges, get_root_node.
  rewrite Hr, Hk, Hn.
  assert (Hfold :
            fold_left
              (fun ac e =>
                 match implication (edge_data e) with
                 | Some ASSUMPTION_GRAPH => (Some e, snd ac)
                 | Some CONCLUSION_GRAPH => (fst ac, Some e)
                 | None => ac
                 end) (out_edges (graph g) r) (None, None)
            = (Some ea, Some ec)).
  { destruct Ho as [Ho|Ho]; rewrite Ho; cbn [fold_left]; rewrite Ha, Hc;
      cbn [fst snd]; try rewrite Ha; reflexivity. }
  cbn [bind]. rewrite Hfold. clear Hfold.
  unfold set_implication, update_edge_data.
  assert (E1 : existsb (is_edge (edge_src ea) (edge_dst ea) (edge_key ea))
                 (edges (graph g)) = true).
  { apply existsb_exists. exists ea. split; [exact Hina | apply is_edge_self]. }
  rewrite E1. cbn [bind edges nodes]. rewrite existsb_map_update_edge.
  assert (E2 : existsb (is_edge (edge_src ec) (edge_dst ec) (edge_key ec))
                 (edges (graph g)) = true).
  { apply existsb_exists. exists ec. split; [exact Hinc | apply is_edge_self]. }
  rewrite E2. reflexivity.
Qed.

Lemma out_edges_map_update (r u v : Node) (k : nat) (d : EdgeData) (l : list Edge) :
  filter (fun e => node_eqb (edge_src e) r) (map (update_edge u v k d) l)
  = map (update_edge u v k d) (filter (fun e => node_eqb (edge_src e) r) l).
Proof.
  apply filter_map_commute. intros e.
  destruct (update_edge_src u v k d e) as [-> _]. reflexivity.
Qed.

Lemma tag_back (e : Edge) (part other : ImplicationPart) :
  implication (edge_data e) = Some part ->
  {| edge_src := edge_src e; edge_dst := edge_dst e; edge_key := edge_key e;
     edge_data :=
       dict_update
         {| timestamp := timestamp (edge_data e); implication := Some other |}
         {| timestamp := None; implication := Some part |} |} = e.
Proof.
  destruct e as [s d k [ts im]]. simpl. intros ->. reflexivity.
Qed.

(** Switching the parts of an implication whose root has one out-edge
    tagged as assumption and one tagged as conclusion, and switching them
    again. *)
Lemma switch_implication_parts_twice (g : TimedPropertyGraph) (r : Node)
    (ea ec : Edge) :
  root_node g = Some r -> is_kind IMPLIES r = true ->
  has_node (graph g) r = true ->
  out_edges (graph g) r = [ea; ec] ->
  implication (edge_data ea) = Some ASSUMPTION_GRAPH ->
  implication (edge_data ec) = Some CONCLUSION_GRAPH ->
  (edge_dst ea, edge_key ea) <> (edge_dst ec, edge_key ec) ->
  exists g1,
    switch_implication_parts g = Ok g1
    /\ root_node g1 = Some r
    /\ has_node (graph g1) r = true
    /\ out_edges (graph g1) r
       = [{| edge_src := edge_src ea; edge_dst := edge_dst ea; edge_key := edge_key ea;
             edge_data := {| timestamp := timestamp (edge_data ea);
                             implication := Some CONCLUSION_GRAPH |} |};
          {| edge_src := edge_src ec; edge_dst := edge_dst ec; edge_key := edge_key ec;
             edge_data := {| timestamp := timestamp (edge_data ec);
                             implication := Some ASSUMPTION_GRAPH |} |}]
    /\ switch_implication_parts g1 = Ok g.
Proof.
  intros Hr Hk Hn Ho Ha Hc Hne.
  assert (Hsa : edge_src ea = r).
  { assert (H : In ea (out_edges (graph g) r)) by (rewrite Ho; now left).
    apply filter_In in H. apply node_eqb_eq. apply H. }
  assert (Hsc : edge_src ec = r).
  { assert (H : In ec (out_edges (graph g) r)) by (rewrite Ho; right; now left).
    apply filter_In in H. apply node_eqb_eq. apply H. }
  assert (Hac : is_edge (edge_src ea) (edge_dst ea) (edge_key ea) ec = false).
  { apply is_edge_other_id; [congruence | exact Hne]. }
  assert (Hca : is_edge (edge_src ec) (edge_dst ec) (edge_key ec) ea = false).
  { apply is_edge_other_id; [congruence | congruence]. }
  set (ea' := {| edge_src := edge_src ea; edge_dst := edge_dst ea;
                 edge_key := edge_key ea;
                 edge_data := {| timestamp := timestamp (edge_data ea);
                                 implication := Some CONCLUSION_GRAPH |} |}).
  set (ec' := {| edge_src := edge_src ec; edge_dst := edge_dst ec;
                 edge_key := edge_key ec;
                 edge_data := {| timestamp := timestamp (edge_data ec);
                                 implication := Some ASSUMPTION_GRAPH |} |}).
  eexists. split; [apply (switch_implication_parts_step g r ea ec); auto|].
  set (g1 := set_graph g _).
  assert (Ho1 : out_edges (graph g1) r = [ea'; ec']).
  { unfold g1, out_edges. cbn [graph set_graph edges].
    rewrite !out_edges_map_update. fold (out_edges (graph g) r). rewrite Ho.
    cbn [map]. rewrite (update_edge_tag ea), (update_edge_other _ _ _ _ ec Hac).
    rewrite (update_edge_tag ec). fold ea'.
    rewrite (update_edge_other _ _ _ _ ea'); [reflexivity|]. exact Hca. }
  split; [exact Hr|]. split; [exact Hn|]. split; [exact Ho1|].
  rewrite (switch_implication_parts_step g1 r ec' ea'); auto.
  - assert (Hes :
              map (update_edge (edge_src ea') (edge_dst ea') (edge_key ea')
                     {| timestamp := None; implication := Some ASSUMPTION_GRAPH |})
                (map (update_edge (edge_src ec') (edge_dst ec') (edge_key ec')
                        {| timestamp := None; implication := Some CONCLUSION_GRAPH |})
                   (map (update_edge (edge_src ec) (edge_dst ec) (edge_key ec)
                           {| timestamp := None;
                              implication := Some ASSUMPTION_GRAPH |})
                      (map (update_edge (edge_src ea) (edge_dst ea) (edge_key ea)
                              {| timestamp := None;
                                 implication := Some CONCLUSION_GRAPH |})
                         (edges (graph g)))))
              = edges (graph g));
      [|unfold g1;
        cbn [graph set_graph edges nodes root_node time_source
             property_textual_representation constant_properties];
        rewrite Hes; destruct g as [[ns es] rt ts0 txt cps]; reflexivity].
    cbn [edge_src edge_dst edge_key ea' ec'].
    rewrite !map_map. rewrite <- (map_id (edges (graph g))) at 2. apply map_ext_in.
    intros x Hx.
    destruct (is_edge (edge_src ea) (edge_dst ea) (edge_key ea) x) eqn:Exa.
    + assert (x = ea) as ->.
      { assert (Hxo : In x (out_edges (graph g) r)).
        { apply filter_In. split; [exact Hx|]. apply is_edge_src in Exa.
          destruct Exa as [-> _]. rewrite Hsa. apply node_eqb_refl. }
        rewrite Ho in Hxo.
        destruct Hxo as [<-|[<-|[]]]; [reflexivity | congruence]. }
      rewrite (update_edge_tag ea). fold ea'.
      rewrite (update_edge_other _ _ _ _ ea' Hca).
      rewrite (update_edge_other _ _ _ _ ea' Hca).
      unfold update_edge. cbn [edge_src edge_dst edge_key ea'].
      change (is_edge (edge_src ea) (edge_dst ea) (edge_key ea) ea')
        with (is_edge (edge_src ea') (edge_dst ea') (edge_key ea') ea').
      rewrite is_edge_self. apply (tag_back ea _ _ Ha).
    + rewrite (update_edge_other _ _ _ _ x Exa).
      destruct (is_edge (edge_src ec) (edge_dst ec) (edge_key ec) x) eqn:Exc.
      * assert (x = ec) as ->.
        { assert (Hxo : In x (out_edges (graph g) r)).
          { apply filter_In. split; [exact Hx|]. apply is_edge_src in Exc.
            destruct Exc as [-> _]. rewrite Hsc. apply node_eqb_refl. }
          rewrite Ho in Hxo.
          destruct Hxo as [<-|[<-|[]]]; [congruence | reflexivity]. }
        rewrite (update_edge_tag ec). fold ec'.
        assert (Hself : is_edge (edge_src ec) (edge_dst ec) (edge_key ec) ec' = true).
        { apply (is_edge_self ec'). }
        unfold update_edge at 2. rewrite Hself.
        cbn [edge_src edge_dst edge_key edge_data ec' dict_update timestamp
             implication].
        rewrite update_edge_other.
        -- apply (tag_back ec CONCLUSION_GRAPH CONCLUSION_GRAPH Hc).
        -- exact Hac.
      * rewrite !(update_edge_other _ _ _ _ x); auto.
Qed.

(** X15.  [switch_implication_parts] raises [RuntimeError] when the root is
    not an implication operator.  On the graph [logical_implication] returns
    (the implication node being new to both operands)
    [is_implication_graph] holds; switching the parts returns a graph that is
    an implication graph too, in which the edge to the former assumption is
    tagged as conclusion and the edge to the former conclusion as assumption;
    and switching the parts of that graph gives back the first one. *)
Theorem switch_implication_parts_involution :
  (forall g0 : TimedPropertyGraph,
     match root_node g0 with
     | Some r => is_kind IMPLIES r = false
     | None => True
     end ->
     switch_implication_parts g0
     = Raise (RuntimeError "Cannot switch implication parts on non implication graph.")
     /\ is_implication_graph g0 = Ok false)
  /\ (forall (g pg g' : TimedPropertyGraph) (t : option Timestamp) (r1 r2 : Node),
        root_node g = Some r1 -> root_node pg = Some r2 ->
        out_degree (graph g) (ImplicationOperator r1 r2) = 0%nat ->
        out_degree (graph pg) (ImplicationOperator r1 r2) = 0%nat ->
        logical_implication g pg t = Ok g' ->
        is_implication_graph g' = Ok true
        /\ exists g1 ea ec,
             switch_implication_parts g' = Ok g1
             /\ is_implication_graph g1 = Ok true
             /\ out_edges (graph g1) (ImplicationOperator r1 r2) = [ea; ec]
             /\ edge_dst ea = r1
             /\ implication (edge_data ea) = Some CONCLUSION_GRAPH
             /\ edge_dst ec = r2
             /\ implication (edge_data ec) = Some ASSUMPTION_GRAPH
             /\ switch_implication_parts g1 = Ok g').
Proof.
  split.
  - intros g0 H. unfold switch_implication_parts, is_implication_graph, get_root_node.
    destruct (root_node g0) as [r|]; [rewrite H|]; split; reflexivity.
  - intros g pg g' t r1 r2 H1 H2 Hg Hp Himp.
    destruct (logical_implication_result g pg g' t r1 r2 H1 H2 Himp)
      as [ta [tc [Hgraph Hroot]]].
    set (n := ImplicationOperator r1 r2) in *.
    set (G := add_edges_from (graph g) (graph_edges (graph pg))) in *.
    assert (HG : out_edges G n = []).
    { unfold G. rewrite out_edges_add_edges_from.
      - apply out_degree_zero_nil. exact Hg.
      - intros e He. apply (out_edges_nil_src _ _ (out_degree_zero_nil _ _ Hp)).
        apply graph_edges_incl. exact He. }
    destruct (out_edges_two_new_exact G n r1 r2
                {| timestamp := ta; implication := Some ASSUMPTION_GRAPH |}
                {| timestamp := tc; implication := Some CONCLUSION_GRAPH |} HG)
      as [k1 [k2 [Hout Hne]]].
    rewrite <- Hgraph in Hout.
    assert (Hnode : has_node (graph g') n = true).
    { rewrite Hgraph. apply mem_node_In. apply In_nodes_add_edge. auto. }
    assert (Hkind : is_kind IMPLIES n = true) by reflexivity.
    assert (Himpl : forall g2, root_node g2 = Some n -> has_node (graph g2) n = true ->
                      List.length (out_edges (graph g2) n) = 2%nat ->
                      is_implication_graph g2 = Ok true).
    { intros g2 Hr2 Hn2 Hl. unfold is_implication_graph, out_degree.
      rewrite Hr2, Hkind, Hn2, Hl. reflexivity. }
    split; [apply Himpl; auto; rewrite Hout; reflexivity|].
    destruct (switch_implication_parts_twice g' n _ _ Hroot Hkind Hnode Hout
                eq_refl eq_refl Hne) as [g1 [Hs1 [Hr1 [Hn1 [Ho1 Hs2]]]]].
    exists g1. eexists. eexists. split; [exact Hs1|].
    split; [apply Himpl; auto; rewrite Ho1; reflexivity|].
    split; [exact Ho1|]. repeat (split; [reflexivity|]). exact Hs2.
Qed.

Lemma switch_implication_parts_involution_witness :
  is_implication_graph graph_A_implies_B = Ok true
  /\ exists g1 ea ec,
       switch_implication_parts graph_A_implies_B = Ok g1
       /\ is_implication_graph g1 = Ok true
       /\ out_edges (graph g1)
            (ImplicationOperator (predicate_node "A" [var_x]) node_B) = [ea; ec]
       /\ edge_dst ea = predicate_node "A" [var_x]
       /\ implication (edge_data ea) = Some CONCLUSION_GRAPH
       /\ edge_dst ec = node_B
       /\ implication (edge_data ec) = Some ASSUMPTION_GRAPH
       /\ switch_implication_parts g1 = Ok graph_A_implies_B.
Proof.
  apply (proj2 switch_implication_parts_involution graph_A_relative graph_B_relative
           graph_A_implies_B None (predicate_node "A" [var_x]) node_B);
    reflexivity.
Defined.

(** ** The clean-up of orphan operators: termination, fixed points, errors *)

Lemma bind_within_bound {A B : Type} (c : Result A) (k : A -> Result B) :
  within_bound c -> (forall a, c = Ok a -> within_bound (k a)) ->
  within_bound (bind c k).
Proof.
  unfold within_bound. destruct c as [a|e]; simpl; intros Hc Hk.
  - apply Hk. reflexivity.
  - intros H. apply Hc. injection H as ->. reflexivity.
Qed.

Lemma foldM_within_bound {A S : Type} (f : S -> A -> Result S) (P : S -> Prop)
    (l : list A) :
  (forall s x, P s -> within_bound (f s x)) ->
  (forall s x s', P s -> f s x = Ok s' -> P s') ->
  forall s, P s -> within_bound (foldM f l s).
Proof.
  intros Hf Hp. induction l as [|x l IH]; intros s Hs; simpl.
  - discriminate.
  - apply bind_within_bound; [apply Hf; exact Hs|].
    intros s' Hs'. apply IH. apply (Hp s x s' Hs Hs').
Qed.

Lemma edge_data_of_within_bound (g : TimedPropertyGraph) (e : Edge) :
  within_bound (edge_data_of g e).
Proof. unfold edge_data_of. destruct (get_edge_data _ _ _ _); discriminate. Qed.

Lemma retain_older_within_bound (now : Z) (d1 d2 : EdgeData) :
  within_bound (retain_older now d1 d2).
Proof.
  unfold retain_older.
  destruct (timestamp d1) as [t1|], (timestamp d2) as [t2|]; try discriminate.
  destruct (ts_lt now t1 t2); discriminate.
Qed.

Lemma update_edge_data_within_bound (g : MultiDiGraph) (u v : Node) (k : nat)
    (d : EdgeData) :
  within_bound (update_edge_data g u v k d).
Proof. unfold update_edge_data. destruct (existsb _ _); discriminate. Qed.

Lemma _add_edge_new_within_bound (g : TimedPropertyGraph) (u v : Node) (d : EdgeData) :
  within_bound (_add_edge g u v d false).
Proof. rewrite _add_edge_new. discriminate. Qed.

Lemma _propagate_within_bound (g : TimedPropertyGraph) (n : Node) (d : EdgeData) :
  within_bound (_propagate_edge_data_to_deeper_edges g n d).
Proof.
  unfold _propagate_edge_data_to_deeper_edges.
  apply (foldM_within_bound _ (fun _ => True)); auto.
  intros s x _.
  apply bind_within_bound; [apply edge_data_of_within_bound|]. intros d1 _.
  apply bind_within_bound; [apply retain_older_within_bound|]. intros d2 _.
  apply bind_within_bound; [apply update_edge_data_within_bound|]. intros gr _.
  discriminate.
Qed.

Lemma _remove_orphan_and_operator_within_bound (g : TimedPropertyGraph) (n : Node) :
  within_bound (_remove_orphan_and_operator g n).
Proof.
  unfold _remove_orphan_and_operator.
  destruct (out_edges (graph g) n) as [|se rest]; [discriminate|].
  apply bind_within_bound; [|intros; discriminate].
  destruct (in_edges (graph g) n) as [|pe ps].
  - apply _propagate_within_bound.
  - apply (foldM_within_bound _ (fun _ => True)); auto.
    intros s x _.
    apply bind_within_bound; [apply edge_data_of_within_bound|]. intros d1 _.
    apply bind_within_bound; [apply retain_older_within_bound|]. intros d2 _.
    apply _add_edge_new_within_bound.
Qed.

Lemma _collapse_not_operators_pair_within_bound (g : TimedPropertyGraph)
    (not1 not2 : Node) :
  within_bound (_collapse_not_operators_pair g not1 not2).
Proof.
  unfold _collapse_not_operators_pair.
  destruct (out_edges (graph g) not2) as [|se rest]; [discriminate|].
  destruct (get_edge_data (graph g) not1 not2 0) as [bd|]; [|discriminate].
  apply bind_within_bound; [apply retain_older_within_bound|]. intros dr _.
  apply bind_within_bound; [|intros; discriminate].
  destruct (in_edges (graph g) not1) as [|pe ps].
  - apply _propagate_within_bound.
  - apply (foldM_within_bound _ (fun _ => True)); auto.
    intros s x _.
    apply bind_within_bound; [apply edge_data_of_within_bound|]. intros d1 _.
    apply bind_within_bound; [apply retain_older_within_bound|]. intros d2 _.
    apply _add_edge_new_within_bound.
Qed.

Lemma nodes_add_edge_present (G : MultiDiGraph) (u v : Node) (k : option nat)
    (d : EdgeData) :
  In u (nodes G) -> In v (nodes G) -> nodes (add_edge G u v k d) = nodes G.
Proof.
  intros Hu Hv. unfold add_edge. cbn [nodes].
  assert (E : add_node G u = G).
  { unfold add_node, has_node. rewrite (proj2 (mem_node_In u (nodes G)) Hu).
    reflexivity. }
  rewrite E. unfold add_node, has_node.
  rewrite (proj2 (mem_node_In v (nodes G)) Hv). reflexivity.
Qed.

(** A loop that joins the sources of the edges [l] to [target] keeps a
    property of the graph that adding such an edge keeps. *)
Lemma reconnect_graph_invariant (P : MultiDiGraph -> Prop) (Q : Edge -> Prop)
    (g g' : TimedPropertyGraph) (target : Node)
    (data : TimedPropertyGraph -> Edge -> Result EdgeData) (l : list Edge) :
  (forall G e d, P G -> Q e -> P (add_edge G (edge_src e) target None d)) ->
  Forall Q l -> P (graph g) ->
  foldM (fun g1 e => d <- data g1 e ;; _add_edge g1 (edge_src e) target d false) l g
  = Ok g' ->
  P (graph g').
Proof.
  intros Hadd Hl Hg H.
  refine (foldM_invariant _ (fun s => P (graph s)) Q l _ Hl g g' Hg H).
  intros s x s' Hx Hs Hstep.
  apply bind_ok in Hstep. destruct Hstep as [d [_ Hstep]].
  rewrite _add_edge_new in Hstep. injection Hstep as <-. cbn [graph set_root_node set_graph].
  apply Hadd; assumption.
Qed.

Lemma _propagate_graph_invariant (P : MultiDiGraph -> Prop)
    (g g' : TimedPropertyGraph) (n : Node) (d : EdgeData) :
  (forall G u v k d0 G', P G -> update_edge_data G u v k d0 = Ok G' -> P G') ->
  P (graph g) ->
  _propagate_edge_data_to_deeper_edges g n d = Ok g' ->
  P (graph g').
Proof.
  intros Hup Hg H. unfold _propagate_edge_data_to_deeper_edges in H.
  refine (foldM_invariant _ (fun s => P (graph s)) (fun _ => True) _ _ _ g g' Hg H).
  - intros s x s' _ Hs Hstep.
    apply bind_ok in Hstep. destruct Hstep as [d1 [_ Hstep]].
    apply bind_ok in Hstep. destruct Hstep as [d2 [_ Hstep]].
    apply bind_ok in Hstep. destruct Hstep as [gr [Hgr Hstep]].
    injection Hstep as <-. cbn [graph set_graph]. apply (Hup _ _ _ _ _ _ Hs Hgr).
  - apply Forall_forall. auto.
Qed.

Lemma update_edge_data_nodes (G G' : MultiDiGraph) (u v : Node) (k : nat)
    (d : EdgeData) (ns : list Node) :
  nodes G = ns -> update_edge_data G u v k d = Ok G' -> nodes G' = ns.
Proof.
  intros Hn H. apply update_edge_data_ok in H. destruct H as [H _]. congruence.
Qed.

Lemma length_filter_le {A : Type} (P : A -> bool) (l : list A) :
  (List.length (filter P l) <= List.length l)%nat.
Proof.
  induction l as [|a l IH]; simpl; [lia|]. destruct (P a); simpl; lia.
Qed.

Lemma length_filter_lt {A : Type} (P : A -> bool) (l : list A) (x : A) :
  In x l -> P x = false -> (List.length (filter P l) < List.length l)%nat.
Proof.
  induction l as [|a l IH]; simpl; intros Hx Hp; [destruct Hx|].
  destruct Hx as [->|Hx].
  - rewrite Hp. pose proof (length_filter_le P l). lia.
  - specialize (IH Hx Hp). destruct (P a); simpl; lia.
Qed.

Lemma number_of_nodes_remove_node (G : MultiDiGraph) (n : Node) :
  (number_of_nodes (remove_node G n) <= number_of_nodes G)%nat
  /\ (In n (nodes G) -> (number_of_nodes (remove_node G n) < number_of_nodes G)%nat).
Proof.
  unfold number_of_nodes, remove_node. cbn [nodes]. split.
  - apply length_filter_le.
  - intros Hn. apply (length_filter_lt _ _ n Hn). rewrite node_eqb_refl. reflexivity.
Qed.

(** Removing an orphan [AND] node does not add a node. *)
Lemma _remove_orphan_and_operator_nodes (g g' : TimedPropertyGraph) (n : Node) :
  endpoints_in_nodes (graph g) ->
  _remove_orphan_and_operator g n = Ok g' ->
  (number_of_nodes (graph g') <= number_of_nodes (graph g))%nat.
Proof.
  intros Hwf H. unfold _remove_orphan_and_operator in H.
  destruct (out_edges (graph g) n) as [|se rest] eqn:Hout; [discriminate|].
  assert (Hse : In (edge_dst se) (nodes (graph g))).
  { apply Hwf. apply (out_edges_In _ n). rewrite Hout. now left. }
  apply bind_ok in H. destruct H as [g1 [H1 H]]. injection H as <-.
  assert (Hn1 : nodes (graph g1) = nodes (graph g)).
  { destruct (in_edges (graph g) n) as [|pe ps] eqn:Hin.
    - apply (_propagate_graph_invariant (fun G => nodes G = nodes (graph g))
               _ g1 _ _) in H1; [exact H1 | | reflexivity].
      intros G u v k d0 G'. apply update_edge_data_nodes.
    - rewrite <- Hin in H1.
      refine (reconnect_graph_invariant (fun G => nodes G = nodes (graph g))
                (fun e => In (edge_src e) (nodes (graph g))) g g1 (edge_dst se)
                (fun g2 e => predecessor_data <- edge_data_of g2 e ;;
                             retain_older (now_of g2) predecessor_data (edge_data se))
                (in_edges (graph g) n) _ _ eq_refl _).
      + intros G e d HG He. rewrite nodes_add_edge_present; rewrite ?HG; auto.
      + apply Forall_forall. intros e He. apply Hwf. apply (in_edges_In _ n _ He).
      + rewrite <- H1. apply foldM_ext. intros s x.
        destruct (edge_data_of s x); reflexivity. }
  cbn [graph set_graph].
  pose proof (proj1 (number_of_nodes_remove_node (graph g1) n)) as Hle.
  unfold number_of_nodes in *. rewrite Hn1 in Hle. exact Hle.
Qed.

(** Collapsing two [NOT] nodes removes a node. *)
Lemma _collapse_not_operators_pair_nodes (g g' : TimedPropertyGraph)
    (not1 not2 : Node) :
  endpoints_in_nodes (graph g) ->
  In not1 (nodes (graph g)) ->
  _collapse_not_operators_pair g not1 not2 = Ok g' ->
  (number_of_nodes (graph g') < number_of_nodes (graph g))%nat.
Proof.
  intros Hwf Hn H. unfold _collapse_not_operators_pair in H.
  destruct (out_edges (graph g) not2) as [|se rest] eqn:Hout; [discriminate|].
  assert (Hse : In (edge_dst se) (nodes (graph g))).
  { apply Hwf. apply (out_edges_In _ not2). rewrite Hout. now left. }
  destruct (get_edge_data (graph g) not1 not2 0) as [bd|]; [|discriminate].
  apply bind_ok in H. destruct H as [dr [_ H]].
  apply bind_ok in H. destruct H as [g1 [H1 H]]. injection H as <-.
  assert (Hn1 : nodes (graph g1) = nodes (graph g)).
  { destruct (in_edges (graph g) not1) as [|pe ps] eqn:Hin.
    - apply (_propagate_graph_invariant (fun G => nodes G = nodes (graph g))
               _ g1 _ _) in H1; [exact H1 | | reflexivity].
      intros G u v k d0 G'. apply update_edge_data_nodes.
    - rewrite <- Hin in H1.
      refine (reconnect_graph_invariant (fun G => nodes G = nodes (graph g))
                (fun e => In (edge_src e) (nodes (graph g))) g g1 (edge_dst se)
                (fun g2 e => predecessor_data <- edge_data_of g2 e ;;
                             retain_older (now_of g2) predecessor_data dr)
                (in_edges (graph g) not1) _ _ eq_refl _).
      + intros G e d HG He. rewrite nodes_add_edge_present; rewrite ?HG; auto.
      + apply Forall_forall. intros e He. apply Hwf. apply (in_edges_In _ not1 _ He).
      + rewrite <- H1. apply foldM_ext. intros s x.
        destruct (edge_data_of s x); reflexivity. }
  cbn [graph set_graph remove_nodes_from fold_left].
  pose proof (proj1 (number_of_nodes_remove_node (remove_node (graph g1) not1) not2)).
  assert (In not1 (nodes (graph g1))) as Hin1 by (rewrite Hn1; exact Hn).
  pose proof (proj2 (number_of_nodes_remove_node (graph g1) not1) Hin1).
  unfold number_of_nodes in *. rewrite Hn1 in *. lia.
Qed.

Lemma graph_edges_src_in_nodes (G : MultiDiGraph) (e : Edge) :
  In e (graph_edges G) -> In (edge_src e) (nodes G).
Proof.
  unfold graph_edges. rewrite in_flat_map. intros [n [Hn He]].
  apply filter_In in He. destruct He as [_ He]. apply node_eqb_eq in He.
  rewrite He. exact Hn.
Qed.

(** The [while] loop of [_collapse_sequential_not_operators] ends within one
    round per node. *)
Lemma collapse_loop_terminates (fuel : nat) :
  forall g,
    well_formed g ->
    (number_of_nodes (graph g) <= fuel)%nat ->
    within_bound (collapse_loop fuel g)
    /\ forall g', collapse_loop fuel g = Ok g' ->
         (number_of_nodes (graph g') <= number_of_nodes (graph g))%nat.
Proof.
  induction fuel as [|f IH]; intros g Hwf Hle.
  - simpl.
    destruct (find _ (graph_edges (graph g))) as [e|] eqn:Hf.
    + apply find_some in Hf. destruct Hf as [He _].
      apply graph_edges_src_in_nodes in He. unfold number_of_nodes in Hle.
      destruct (nodes (graph g)); [destruct He | simpl in Hle; lia].
    + split; [discriminate|]. intros g' H. injection H as <-. lia.
  - simpl.
    destruct (find _ (graph_edges (graph g))) as [e|] eqn:Hf.
    + apply find_some in Hf. destruct Hf as [He Hk].
      apply andb_prop in Hk. destruct Hk as [Hk1 Hk2].
      pose proof (graph_edges_src_in_nodes _ _ He) as Hsrc.
      assert (Hstep : forall g1, _collapse_not_operators_pair g (edge_src e) (edge_dst e)
                                 = Ok g1 ->
                        well_formed g1
                        /\ (number_of_nodes (graph g1) < number_of_nodes (graph g))%nat).
      { intros g1 H1. split.
        - apply (_collapse_not_operators_pair_keeps g g g1 _ _ Hk1 Hk2
                   (keeps_predicates_refl g Hwf) H1).
        - apply (_collapse_not_operators_pair_nodes g g1 _ _ (proj1 Hwf) Hsrc H1). }
      split.
      * apply bind_within_bound; [apply _collapse_not_operators_pair_within_bound|].
        intros g1 H1. destruct (Hstep g1 H1) as [Hwf1 Hlt].
        apply (IH g1 Hwf1). lia.
      * intros g' H. apply bind_ok in H. destruct H as [g1 [H1 H]].
        destruct (Hstep g1 H1) as [Hwf1 Hlt].
        assert (Hle1 : (number_of_nodes (graph g1) <= f)%nat) by lia.
        pose proof (proj2 (IH g1 Hwf1 Hle1) g' H). lia.
    + split; [discriminate|]. intros g' H. injection H as <-. lia.
Qed.

(** X16.  On a graph whose edges join nodes of the graph,
    [_fix_orphan_logical_operators] ends: the [while] loop that collapses
    pairs of [NOT] nodes needs at most one round per node.  When the clean-up
    returns, the graph has no more nodes than before, its edges still join
    nodes of the graph, and its predicate nodes are those it had. *)
Theorem fix_orphan_logical_operators_terminates (g : TimedPropertyGraph) :
  well_formed g ->
  _fix_orphan_logical_operators g <> Raise OutOfFuel
  /\ forall g',
       _fix_orphan_logical_operators g = Ok g' ->
       (number_of_nodes (graph g') <= number_of_nodes (graph g))%nat
       /\ well_formed g'
       /\ predicate_nodes (graph g') = predicate_nodes (graph g).
Proof.
  intros Hwf. unfold _fix_orphan_logical_operators.
  assert (Hand : forall g1, _remove_orphan_and_operators g = Ok g1 ->
                   keeps_predicates g g1
                   /\ (number_of_nodes (graph g1) <= number_of_nodes (graph g))%nat).
  { intros g1 H1. unfold _remove_orphan_and_operators in H1.
    refine (foldM_invariant _
              (fun s => keeps_predicates g s
                        /\ (number_of_nodes (graph s) <= number_of_nodes (graph g))%nat)
              (fun n => is_kind AND n = true) _ _ _ g g1 _ H1).
    - intros s x s' Hx [Hs Hle] Hstep. split.
      + apply (_remove_orphan_and_operator_keeps g s s' x Hx Hs Hstep).
      + pose proof (_remove_orphan_and_operator_nodes s s' x
                      (proj1 (proj1 Hs)) Hstep). lia.
    - apply Forall_forall. intros n Hn. apply filter_In in Hn.
      destruct Hn as [_ Hn]. apply andb_true_iff in Hn. tauto.
    - split; [apply keeps_predicates_refl; exact Hwf | lia]. }
  split.
  - apply bind_within_bound.
    + unfold _remove_orphan_and_operators.
      apply (foldM_within_bound _ (fun _ => True)); auto.
      intros s x _. apply _remove_orphan_and_operator_within_bound.
    + intros g1 H1. destruct (Hand g1 H1) as [Hk1 _].
      apply (collapse_loop_terminates _ g1 (proj1 Hk1)). lia.
  - intros g' H. apply bind_ok in H. destruct H as [g1 [H1 H]].
    destruct (Hand g1 H1) as [Hk1 Hle1].
    pose proof (proj2 (collapse_loop_terminates _ g1 (proj1 Hk1) (le_n _)) g' H).
    pose proof (collapse_loop_keeps _ g g1 g' Hk1 H) as [Hwf' Hp'].
    split; [lia|]. split; assumption.
Qed.

Lemma fix_orphan_logical_operators_terminates_witness :
  _fix_orphan_logical_operators shared_not_present <> Raise OutOfFuel
  /\ forall g',
       _fix_orphan_logical_operators shared_not_present = Ok g' ->
       (number_of_nodes (graph g') <= number_of_nodes (graph shared_not_present))%nat
       /\ well_formed g'
       /\ predicate_nodes (graph g') = predicate_nodes (graph shared_not_present).
Proof.
  apply (fix_orphan_logical_operators_terminates shared_not_present).
  split.
  - intros e He. simpl in He.
    repeat (destruct He as [<-|He]; [simpl; intuition|]). destruct He.
  - intros r Hr Hp. injection Hr as <-. discriminate.
Defined.

Lemma out_edges_nil_update (G G' : MultiDiGraph) (n u v : Node) (k : nat)
    (d : EdgeData) :
  out_edges G n = [] -> update_edge_data G u v k d = Ok G' -> out_edges G' n = [].
Proof.
  intros Hn H. apply update_edge_data_ok in H. destruct H as [_ [He _]].
  unfold out_edges in *. rewrite He, out_edges_map_update, Hn. reflexivity.
Qed.

Lemma out_edges_nil_remove_node (G : MultiDiGraph) (n m : Node) :
  out_edges G n = [] -> out_edges (remove_node G m) n = [].
Proof.
  intros Hn. unfold out_edges, remove_node. cbn [edges].
  apply filter_all_false. intros x Hx. apply filter_In in Hx. destruct Hx as [Hx _].
  apply (filter_nil_forall _ _ Hn x Hx).
Qed.

(** Removing an orphan [AND] node gives no out-edge to a node that has
    none. *)
Lemma _remove_orphan_and_operator_leaf (g g' : TimedPropertyGraph) (n m : Node) :
  out_edges (graph g) n = [] ->
  _remove_orphan_and_operator g m = Ok g' ->
  out_edges (graph g') n = [].
Proof.
  intros Hn H. unfold _remove_orphan_and_operator in H.
  destruct (out_edges (graph g) m) as [|se rest] eqn:Hout; [discriminate|].
  apply bind_ok in H. destruct H as [g1 [H1 H]]. injection H as <-.
  cbn [graph set_graph]. apply out_edges_nil_remove_node.
  destruct (in_edges (graph g) m) as [|pe ps] eqn:Hin.
  - apply (_propagate_graph_invariant (fun G => out_edges G n = []) _ g1 _ _) in H1;
      [exact H1 | | exact Hn].
    intros G u v k d0 G'. apply out_edges_nil_update.
  - rewrite <- Hin in H1.
    refine (reconnect_graph_invariant (fun G => out_edges G n = [])
              (fun e => edge_src e <> n) g g1 (edge_dst se)
              (fun g2 e => predecessor_data <- edge_data_of g2 e ;;
                           retain_older (now_of g2) predecessor_data (edge_data se))
              (in_edges (graph g) m) _ _ Hn _).
    + intros G e d HG He. rewrite out_edges_add_edge_other; assumption.
    + apply Forall_forall. intros e He. apply (out_edges_nil_src _ _ Hn).
      apply (in_edges_In _ m _ He).
    + rewrite <- H1. apply foldM_ext. intros s x.
      destruct (edge_data_of s x); reflexivity.
Qed.

Lemma foldM_ok_each {A S : Type} (f : S -> A -> Result S) (P : S -> Prop)
    (l : list A) :
  (forall s x s', P s -> f s x = Ok s' -> P s') ->
  forall s s', P s -> foldM f l s = Ok s' ->
    forall x, In x l -> exists s1 s2, P s1 /\ f s1 x = Ok s2.
Proof.
  intros Hp. induction l as [|a l IH]; intros s s' Hs H x Hx; [destruct Hx|].
  simpl in H. apply bind_ok in H. destruct H as [s1 [H1 H]].
  destruct Hx as [<-|Hx].
  - exists s, s1. auto.
  - apply (IH s1 s' (Hp s a s1 Hs H1) H x Hx).
Qed.

(** X17.  A graph with an [AND] node that has no out-edge is never cleaned:
    [_fix_orphan_logical_operators] raises on it (the node is listed as an
    orphan, nothing gives it an out-edge before its turn, and the first of
    its out-edges is then asked for), and so does
    [get_present_time_subgraph] when the edges of the present time leave
    such a node. *)
Theorem fix_orphan_logical_operators_raises_on_and_leaf
    (g : TimedPropertyGraph) (n : Node) :
  In n (nodes (graph g)) -> is_kind AND n = true -> out_edges (graph g) n = [] ->
  (exists e, _fix_orphan_logical_operators g = Raise e)
  /\ (filter (fun m => is_kind AND m && Nat.ltb (out_degree (graph g) m) 2)
             (nodes (graph g)) = [n] ->
      _fix_orphan_logical_operators g = Raise IndexError)
  /\ (forall g0, present_time_induced g0 = Ok (Some g) ->
        exists e, get_present_time_subgraph g0 = Raise e).
Proof.
  intros Hn Hk Ho.
  assert (Hraise : exists e, _fix_orphan_logical_operators g = Raise e).
  { destruct (_fix_orphan_logical_operators g) as [g'|e] eqn:H; [|eauto].
    exfalso. unfold _fix_orphan_logical_operators in H.
    apply bind_ok in H. destruct H as [g1 [H1 _]].
    unfold _remove_orphan_and_operators in H1.
    destruct (foldM_ok_each _remove_orphan_and_operator
                (fun s => out_edges (graph s) n = [])
                _ (fun s x s' Hs Hx => _remove_orphan_and_operator_leaf s s' n x Hs Hx)
                g g1 Ho H1 n) as [s1 [s2 [Hs1 Hs2]]].
    - apply filter_In. split; [exact Hn|]. rewrite Hk. unfold out_degree.
      rewrite Ho. reflexivity.
    - unfold _remove_orphan_and_operator in Hs2. rewrite Hs1 in Hs2. discriminate. }
  split; [exact Hraise|]. split.
  - intros Hf. unfold _fix_orphan_logical_operators, _remove_orphan_and_operators.
    rewrite Hf. cbn [foldM]. unfold _remove_orphan_and_operator. rewrite Ho.
    reflexivity.
  - intros g0 H0. rewrite get_present_time_subgraph_unfold, H0. cbn [bind].
    destruct Hraise as [e He]. rewrite He. exists e. reflexivity.
Qed.

Lemma fix_orphan_logical_operators_raises_on_and_leaf_witness :
  (g <- not_p_and_q ;; present_time_induced g) = Ok (Some graph_not_p_and_q_present)
  /\ (exists e, _fix_orphan_logical_operators graph_not_p_and_q_present = Raise e)
  /\ (filter (fun m => is_kind AND m
                       && Nat.ltb (out_degree (graph graph_not_p_and_q_present) m) 2)
             (nodes (graph graph_not_p_and_q_present))
      = [AndOperator node_p (predicate_node "q" [var_y])] ->
      _fix_orphan_logical_operators graph_not_p_and_q_present = Raise IndexError)
  /\ (forall g0, present_time_induced g0 = Ok (Some graph_not_p_and_q_present) ->
        exists e, get_present_time_subgraph g0 = Raise e).
Proof.
  split; [vm_compute; reflexivity|].
  apply (fix_orphan_logical_operators_raises_on_and_leaf graph_not_p_and_q_present
           (AndOperator node_p (predicate_node "q" [var_y]))).
  - simpl. auto.
  - reflexivity.
  - reflexivity.
Defined.

(** ** Graphs that need no clean-up *)

Lemma _remove_orphan_and_operators_clean (g : TimedPropertyGraph) :
  has_orphan_and (graph g) = false -> _remove_orphan_and_operators g = Ok g.
Proof.
  intros H. unfold _remove_orphan_and_operators.
  rewrite (filter_all_false _ (nodes (graph g))); [reflexivity|].
  apply existsb_false_forall. exact H.
Qed.

Lemma collapse_loop_clean (fuel : nat) (g : TimedPropertyGraph) :
  has_sequential_nots (graph g) = false -> collapse_loop fuel g = Ok g.
Proof.
  intros H.
  assert (Hf : find (fun e => is_kind NOT (edge_src e) && is_kind NOT (edge_dst e))
                 (graph_edges (graph g)) = None).
  { apply find_none_forall. intros x Hx.
    apply (existsb_false_forall _ _ H). apply graph_edges_incl. exact Hx. }
  destruct fuel; simpl; rewrite Hf; reflexivity.
Qed.

(** X18.  A graph in which every [AND] node has two out-edges or more and no
    edge joins two [NOT] nodes is left as it is by
    [_fix_orphan_logical_operators], however often the clean-up is run. *)
Theorem fix_orphan_logical_operators_fixes_clean_graphs (g : TimedPropertyGraph) :
  has_orphan_and (graph g) = false ->
  has_sequential_nots (graph g) = false ->
  _fix_orphan_logical_operators g = Ok g
  /\ (g1 <- _fix_orphan_logical_operators g ;; _fix_orphan_logical_operators g1)
     = Ok g.
Proof.
  intros Ha Hn.
  assert (H : _fix_orphan_logical_operators g = Ok g).
  { unfold _fix_orphan_logical_operators.
    rewrite (_remove_orphan_and_operators_clean g Ha). cbn [bind].
    apply collapse_loop_clean. exact Hn. }
  split; [exact H|]. rewrite H. cbn [bind]. exact H.
Qed.

Lemma fix_orphan_logical_operators_fixes_clean_graphs_witness :
  _fix_orphan_logical_operators graph_p1_and_p2 = Ok graph_p1_and_p2
  /\ (g1 <- _fix_orphan_logical_operators graph_p1_and_p2 ;;
      _fix_orphan_logical_operators g1) = Ok graph_p1_and_p2.
Proof.
  apply (fix_orphan_logical_operators_fixes_clean_graphs graph_p1_and_p2);
    reflexivity.
Defined.

(** ** Negation of a clean graph *)

Lemma existsb_insert_edge (P : Edge -> bool) (e : Edge) (l : list Edge) :
  existsb P (insert_edge e l) = P e || existsb P l.
Proof.
  destruct (existsb P (insert_edge e l)) eqn:E.
  - apply existsb_exists in E. destruct E as [x [Hx Hp]].
    apply insert_edge_In in Hx. symmetry. apply orb_true_iff.
    destruct Hx as [->|Hx]; [now left|]. right. apply existsb_exists. eauto.
  - symmetry. apply orb_false_iff. split.
    + apply (existsb_false_forall _ _ E). apply insert_edge_In. now left.
    + destruct (existsb P l) eqn:El; [|reflexivity].
      apply existsb_exists in El. destruct El as [x [Hx Hp]].
      rewrite (existsb_false_forall _ _ E x) in Hp; [discriminate|].
      apply insert_edge_In. now right.
Qed.

(** X19.  On a graph that needs no clean-up, whose root [r] is a node of the
    graph and is not a [NOT] node, [logical_not(t)] adds one edge, from the
    new [NOT] node of [r] to [r] and stamped [t], makes that node the root
    and changes nothing else; the graph returned needs no clean-up either. *)
Theorem logical_not_adds_one_edge (g : TimedPropertyGraph) (r : Node) (t : Timestamp) :
  root_node g = Some r ->
  In r (nodes (graph g)) ->
  is_kind NOT r = false ->
  has_orphan_and (graph g) = false ->
  has_sequential_nots (graph g) = false ->
  exists g',
    logical_not g (Some t) = Ok g'
    /\ root_node g' = Some (NotOperator r)
    /\ edges (graph g')
       = insert_edge {| edge_src := NotOperator r; edge_dst := r;
                        edge_key := new_edge_key (graph g) (NotOperator r) r;
                        edge_data := timestamp_data (Some t) |} (edges (graph g))
    /\ (forall m, In m (nodes (graph g')) <-> m = NotOperator r \/ In m (nodes (graph g)))
    /\ time_source g' = time_source g
    /\ constant_properties g' = constant_properties g
    /\ has_orphan_and (graph g') = false
    /\ has_sequential_nots (graph g') = false.
Proof.
  intros Hr Hin Hk Ha Hn.
  set (G' := add_edge (graph g) (NotOperator r) r None (timestamp_data (Some t))).
  set (g' := set_root_node (set_graph g G') (Some (NotOperator r))).
  assert (Hnodes : forall m, In m (nodes G') <-> m = NotOperator r \/ In m (nodes (graph g))).
  { intros m. unfold G'. rewrite In_nodes_add_edge. split.
    - intros [H|[->|H]]; auto.
    - intros [H|H]; auto. }
  assert (Ha' : has_orphan_and G' = false).
  { unfold has_orphan_and. destruct (existsb _ (nodes G')) eqn:E; [|reflexivity].
    apply existsb_exists in E. destruct E as [m [Hm Hc]].
    apply andb_prop in Hc. destruct Hc as [Hc1 Hc2].
    assert (Hne : NotOperator r <> m).
    { intros <-. discriminate. }
    apply Hnodes in Hm. destruct Hm as [->|Hm]; [congruence|].
    unfold out_degree, G' in Hc2. rewrite (out_edges_add_edge_other _ _ _ _ _ _ Hne) in Hc2.
    assert (existsb (fun n => is_kind AND n && Nat.ltb (out_degree (graph g) n) 2)
              (nodes (graph g)) = true).
    { apply existsb_exists. exists m. split; [exact Hm|].
      unfold out_degree. rewrite Hc1, Hc2. reflexivity. }
    unfold has_orphan_and in Ha. congruence. }
  assert (Hn' : has_sequential_nots G' = false).
  { unfold has_sequential_nots, G'. rewrite add_edge_new_edges, existsb_insert_edge.
    cbn [edge_src edge_dst]. rewrite Hk, andb_false_r. exact Hn. }
  exists g'. split.
  - unfold logical_not. cbn [bind]. unfold get_root_node. rewrite Hr.
    rewrite _add_edge_new. cbn [bind]. unfold get_root_node. rewrite Hr, node_eqb_refl.
    fold G'. fold g'.
    unfold _fix_orphan_logical_operators.
    rewrite (_remove_orphan_and_operators_clean g' Ha'). cbn [bind].
    apply collapse_loop_clean. exact Hn'.
  - split; [reflexivity|]. split; [apply add_edge_new_edges|].
    split; [exact Hnodes|]. auto.
Qed.

Lemma logical_not_adds_one_edge_witness :
  exists g',
    logical_not graph_p1_and_p2 (Some (Absolute 2)) = Ok g'
    /\ root_node g' = Some (NotOperator (AndOperator node_p node_p))
    /\ edges (graph g')
       = insert_edge {| edge_src := NotOperator (AndOperator node_p node_p);
                        edge_dst := AndOperator node_p node_p;
                        edge_key := new_edge_key (graph graph_p1_and_p2)
                                      (NotOperator (AndOperator node_p node_p))
                                      (AndOperator node_p node_p);
                        edge_data := timestamp_data (Some (Absolute 2)) |}
           (edges (graph graph_p1_and_p2))
    /\ (forall m, In m (nodes (graph g'))
                  <-> m = NotOperator (AndOperator node_p node_p)
                      \/ In m (nodes (graph graph_p1_and_p2)))
    /\ time_source g' = time_source graph_p1_and_p2
    /\ constant_properties g' = constant_properties graph_p1_and_p2
    /\ has_orphan_and (graph g') = false
    /\ has_sequential_nots (graph g') = false.
Proof.
  apply (logical_not_adds_one_edge graph_p1_and_p2 (AndOperator node_p node_p)
           (Absolute 2)); try reflexivity.
  simpl. auto.
Defined.

(** ** Paths from the root to the leaves *)

Lemma paths_from_spec (fuel : nat) (g : MultiDiGraph) (targets : list Node) :
  forall (visited : list Node) (u : Node) (p : Path),
    In p (paths_from fuel g targets visited u) ->
    p <> [] /\ connected_from u p /\ path_in_graph g p /\ ends_in targets p.
Proof.
  induction fuel as [|f IH]; intros visited u p Hp; [destruct Hp|].
  simpl in Hp. apply in_flat_map in Hp. destruct Hp as [e [He Hp]].
  assert (Hsrc : edge_src e = u).
  { apply filter_In in He. apply node_eqb_eq. apply He. }
  assert (Hin : existsb (is_edge (edge_src e) (edge_dst e) (edge_key e)) (edges g) = true).
  { apply existsb_exists. exists e. split; [apply (out_edges_In _ u _ He)|].
    apply is_edge_self. }
  destruct (mem_node (edge_dst e) targets) eqn:Ht.
  - destruct Hp as [<-|[]]. split; [discriminate|]. split; [simpl; auto|]. split.
    + intros x [<-|[]]. exact Hin.
    + exists [], (edge_id e). split; [reflexivity|]. apply mem_node_In. exact Ht.
  - destruct (mem_node (edge_dst e) visited); [destruct Hp|].
    apply in_map_iff in Hp. destruct Hp as [p' [<- Hp']].
    destruct (IH _ _ _ Hp') as [Hne [Hc [Hg [l [last [Hl Hlast]]]]]].
    split; [discriminate|]. split; [simpl; auto|]. split.
    + intros x [<-|Hx]; [exact Hin | apply Hg; exact Hx].
    + exists (edge_id e :: l), last. split; [rewrite Hl; reflexivity | exact Hlast].
Qed.

Lemma stamp_paths_spec (g : TimedPropertyGraph) (paths : list Path) :
  forall acc res,
    foldM (fun acc p =>
             t <- graph_find_path_timestamp g p ;;
             Ok (acc ++ [{| tp_path := p; tp_timestamp := t |}])) paths acc = Ok res ->
    map tp_path res = map tp_path acc ++ paths
    /\ forall tp, In tp res ->
         In tp acc \/ graph_find_path_timestamp g (tp_path tp) = Ok (tp_timestamp tp).
Proof.
  induction paths as [|p paths IH]; intros acc res H; simpl in H.
  - injection H as <-. rewrite app_nil_r. auto.
  - apply bind_ok in H. destruct H as [acc1 [H1 H]].
    apply bind_ok in H1. destruct H1 as [t [Ht H1]]. injection H1 as <-.
    destruct (IH _ _ H) as [Hm Hr]. split.
    + rewrite Hm, map_app, <- app_assoc. reflexivity.
    + intros tp Htp. destruct (Hr tp Htp) as [Hin|Hok]; [|now right].
      apply in_app_or in Hin. destruct Hin as [Hin|[<-|[]]]; [now left|].
      right. exact Ht.
Qed.

(** X20.  [get_all_paths] raises when the graph has no root or its root is
    not a node of the graph.  When it returns, every path listed starts at
    the root, is made of edges of the graph that follow one another, ends at
    a leaf, and comes with the timestamp [find_path_timestamp] gives it. *)
Theorem get_all_paths_lead_from_root_to_leaves (g : TimedPropertyGraph) :
  (match root_node g with
   | Some r => has_node (graph g) r = false
   | None => True
   end -> get_all_paths g = Raise NodeNotFound)
  /\ (forall paths,
        get_all_paths g = Ok paths ->
        exists r,
          root_node g = Some r
          /\ has_node (graph g) r = true
          /\ forall tp, In tp paths ->
               tp_path tp <> []
               /\ connected_from r (tp_path tp)
               /\ path_in_graph (graph g) (tp_path tp)
               /\ ends_in (get_leaves g) (tp_path tp)
               /\ graph_find_path_timestamp g (tp_path tp) = Ok (tp_timestamp tp)).
Proof.
  unfold get_all_paths, all_simple_edge_paths, get_root_node. split.
  - destruct (root_node g) as [r|]; [intros ->|intros _]; reflexivity.
  - intros paths H. destruct (root_node g) as [r|]; [|discriminate].
    exists r. split; [reflexivity|].
    destruct (has_node (graph g) r); [|discriminate]. split; [reflexivity|].
    cbn [negb] in H. apply bind_ok in H. destruct H as [ps [Hps H]].
    destruct (stamp_paths_spec g ps [] paths H) as [Hm Hr].
    intros tp Htp.
    assert (Hin : In (tp_path tp) ps).
    { simpl in Hm. rewrite <- Hm. apply in_map. exact Htp. }
    destruct (mem_node r (get_leaves g)).
    + injection Hps as <-. destruct Hin.
    + injection Hps as <-.
      destruct (paths_from_spec _ _ _ _ _ _ Hin) as [H1 [H2 [H3 H4]]].
      repeat (split; [assumption|]).
      destruct (Hr tp Htp) as [[]|Hok]. exact Hok.
Qed.

Lemma get_all_paths_lead_from_root_to_leaves_witness :
  exists r,
    root_node graph_p1_and_p2 = Some r
    /\ has_node (graph graph_p1_and_p2) r = true
    /\ forall tp,
         In tp [{| tp_path := [edge_id (stamped_edge node_and_p_p node_p 0 1);
                               edge_id (stamped_edge node_p var_x 0 2)];
                   tp_timestamp := Some (Absolute 1) |};
                {| tp_path := [edge_id (stamped_edge node_and_p_p node_p 1 2);
                               edge_id (stamped_edge node_p var_x 0 2)];
                   tp_timestamp := Some (Absolute 2) |}] ->
         tp_path tp <> []
         /\ connected_from r (tp_path tp)
         /\ path_in_graph (graph graph_p1_and_p2) (tp_path tp)
         /\ ends_in (get_leaves graph_p1_and_p2) (tp_path tp)
         /\ graph_find_path_timestamp graph_p1_and_p2 (tp_path tp)
            = Ok (tp_timestamp tp).
Proof.
  apply (proj2 (get_all_paths_lead_from_root_to_leaves graph_p1_and_p2)).
  vm_compute. reflexivity.
Defined.

(** ** The timestamp of a path *)

Lemma path_timestamps_spec (g : TimedPropertyGraph) (path : Path) :
  forall acc ts,
    foldM (fun acc e =>
             match get_edge_data (graph g) (pe_src e) (pe_dst e) (pe_key e) with
             | Some d => Ok (acc ++ [timestamp d])
             | None => Raise KeyError
             end) path acc = Ok ts ->
    exists ds,
      ts = acc ++ map timestamp ds
      /\ map (fun e => get_edge_data (graph g) (pe_src e) (pe_dst e) (pe_key e)) path
         = map Some ds.
Proof.
  induction path as [|e path IH]; intros acc ts H; simpl in H.
  - injection H as <-. exists []. rewrite app_nil_r. auto.
  - destruct (get_edge_data (graph g) (pe_src e) (pe_dst e) (pe_key e)) as [d|] eqn:Ed;
      [|discriminate].
    cbn [bind] in H. destruct (IH _ _ H) as [ds [Hts Hds]].
    exists (d :: ds). split.
    + rewrite Hts, <- app_assoc. reflexivity.
    + simpl. rewrite Ed, Hds. reflexivity.
Qed.

Lemma min_from_spec (now : Z) (l : list Timestamp) :
  forall cur,
    (min_from now cur l = cur \/ In (min_from now cur l) l)
    /\ get_absolute_value now (min_from now cur l) <= get_absolute_value now cur
    /\ (forall x, In x l ->
          get_absolute_value now (min_from now cur l) <= get_absolute_value now x).
Proof.
  induction l as [|a l IH]; simpl; intros cur.
  - split; [now left|]. split; [lia | intros x []].
  - destruct (IH (if ts_lt now a cur then a else cur)) as [H1 [H2 H3]].
    unfold ts_lt in *.
    destruct (Z.ltb_spec (get_absolute_value now a) (get_absolute_value now cur)).
    + split; [destruct H1 as [->|H1]; auto|]. split; [lia|].
      intros x [<-|Hx]; [exact H2 | apply H3; exact Hx].
    + split; [destruct H1 as [->|H1]; auto|]. split; [lia|].
      intros x [<-|Hx]; [lia | apply H3; exact Hx].
Qed.

(** X21.  [find_path_timestamp] of the graph raises [ValueError] on the
    empty path and [KeyError] on a path with an edge that is not in the
    graph.  On a path of stamped edges of the graph it returns the timestamp
    of one of them, which is not after the timestamp of any of them: the
    oldest one. *)
Theorem graph_find_path_timestamp_is_oldest (g : TimedPropertyGraph) (path : Path) :
  graph_find_path_timestamp g [] = Raise ValueError
  /\ ((exists x, In x path
                 /\ get_edge_data (graph g) (pe_src x) (pe_dst x) (pe_key x) = None) ->
      graph_find_path_timestamp g path = Raise KeyError)
  /\ (path <> [] ->
      (forall x, In x path ->
         exists d t, get_edge_data (graph g) (pe_src x) (pe_dst x) (pe_key x) = Some d
                     /\ timestamp d = Some t) ->
      exists t,
        graph_find_path_timestamp g path = Ok (Some t)
        /\ (exists x d, In x path
                        /\ get_edge_data (graph g) (pe_src x) (pe_dst x) (pe_key x)
                           = Some d
                        /\ timestamp d = Some t)
        /\ (forall x d t', In x path ->
              get_edge_data (graph g) (pe_src x) (pe_dst x) (pe_key x) = Some d ->
              timestamp d = Some t' ->
              get_absolute_value (now_of g) t <= get_absolute_value (now_of g) t')).
Proof.
  split; [reflexivity|]. split.
  - intros [x [Hx Hd]]. unfold graph_find_path_timestamp.
    assert (H : forall acc,
               foldM (fun acc e =>
                        match get_edge_data (graph g) (pe_src e) (pe_dst e) (pe_key e) with
                        | Some d => Ok (acc ++ [timestamp d])
                        | None => Raise KeyError
                        end) path acc = Raise KeyError).
    { induction path as [|e path IH]; intros acc; [destruct Hx|]. simpl.
      destruct Hx as [->|Hx].
      - rewrite Hd. reflexivity.
      - destruct (get_edge_data (graph g) (pe_src e) (pe_dst e) (pe_key e));
          [|reflexivity].
        cbn [bind]. apply IH. exact Hx. }
    rewrite H. reflexivity.
  - intros Hne Hall. unfold graph_find_path_timestamp.
    assert (Hds : exists ds ts,
               map (fun e => get_edge_data (graph g) (pe_src e) (pe_dst e) (pe_key e))
                 path = map Some ds
               /\ map timestamp ds = map Some ts).
    { clear Hne. induction path as [|e path IH].
      - exists [], []. auto.
      - destruct (Hall e (or_introl eq_refl)) as [d [t [Hd Ht]]].
        destruct IH as [ds [ts [H1 H2]]]; [intros x Hx; apply Hall; now right|].
        exists (d :: ds), (t :: ts). simpl. rewrite Hd, H1, Ht, H2. auto. }
    destruct Hds as [ds [ts [Hds Hts]]].
    assert (Hfold : foldM (fun acc e =>
                        match get_edge_data (graph g) (pe_src e) (pe_dst e) (pe_key e) with
                        | Some d => Ok (acc ++ [timestamp d])
                        | None => Raise KeyError
                        end) path [] = Ok (map Some ts)).
    { rewrite <- Hts. clear Hts Hne Hall. revert ds Hds.
      assert (H : forall ds acc,
                 map (fun e => get_edge_data (graph g) (pe_src e) (pe_dst e) (pe_key e))
                   path = map Some ds ->
                 foldM (fun acc e =>
                          match get_edge_data (graph g) (pe_src e) (pe_dst e) (pe_key e)
                          with
                          | Some d => Ok (acc ++ [timestamp d])
                          | None => Raise KeyError
                          end) path acc = Ok (acc ++ map timestamp ds)).
      { induction path as [|e path IH]; intros ds acc H.
        - destruct ds; [|discriminate]. simpl. rewrite app_nil_r. reflexivity.
        - destruct ds as [|d ds]; [discriminate|]. simpl in H. injection H as Hd H.
          simpl. rewrite Hd. cbn [bind]. rewrite (IH ds _ H), <- app_assoc.
          reflexivity. }
      intros ds Hds. apply (H ds [] Hds). }
    rewrite Hfold. cbn [bind].
    assert (Hin : forall t, In t ts <->
                    exists x d, In x path
                                /\ get_edge_data (graph g) (pe_src x) (pe_dst x) (pe_key x)
                                   = Some d
                                /\ timestamp d = Some t).
    { intros t. split.
      - intros Ht. apply (in_map Some) in Ht. rewrite <- Hts in Ht.
        apply in_map_iff in Ht. destruct Ht as [d [Hd Hi]].
        apply (in_map Some) in Hi. rewrite <- Hds in Hi.
        apply in_map_iff in Hi. destruct Hi as [x [Hx Hxi]]. eauto.
      - intros [x [d [Hx [Hd Ht]]]].
        apply (in_map (fun e => get_edge_data (graph g) (pe_src e) (pe_dst e) (pe_key e)))
          in Hx. rewrite Hds, Hd in Hx. apply in_map_iff in Hx.
        destruct Hx as [d' [Hd' Hi]]. injection Hd' as ->.
        apply (in_map timestamp) in Hi. rewrite Hts, Ht in Hi.
        apply in_map_iff in Hi. destruct Hi as [t' [Ht' Hi]]. injection Ht' as ->.
        exact Hi. }
    assert (Hts_ne : ts <> []).
    { intros ->. destruct ds; [|discriminate]. destruct path; [congruence | discriminate]. }
    destruct ts as [|a [|b ts]]; [congruence | |].
    + exists a. split; [reflexivity|]. split; [apply Hin; now left|].
      intros x d t' Hx Hd Ht'.
      assert (In t' [a]) as [<-|[]] by (apply Hin; eauto). lia.
    + exists (min_from (now_of g) a (b :: ts)). split.
      * cbn [map py_min_opt all_some]. rewrite all_some_Some. reflexivity.
      * destruct (min_from_spec (now_of g) (b :: ts) a) as [H1 [H2 H3]]. split.
        -- apply Hin. destruct H1 as [->|H1]; [now left | now right].
        -- intros x d t' Hx Hd Ht'.
           assert (Ht : In t' (a :: b :: ts)) by (apply Hin; eauto).
           destruct Ht as [<-|Ht]; [exact H2 | apply H3; exact Ht].
Qed.

Lemma graph_find_path_timestamp_is_oldest_witness :
  exists t,
    graph_find_path_timestamp graph_p1_and_p2
      [edge_id (stamped_edge node_and_p_p node_p 0 1);
       edge_id (stamped_edge node_p var_x 0 2)] = Ok (Some t)
    /\ (exists x d,
          In x [edge_id (stamped_edge node_and_p_p node_p 0 1);
                edge_id (stamped_edge node_p var_x 0 2)]
          /\ get_edge_data (graph graph_p1_and_p2) (pe_src x) (pe_dst x) (pe_key x)
             = Some d
          /\ timestamp d = Some t)
    /\ (forall x d t',
          In x [edge_id (stamped_edge node_and_p_p node_p 0 1);
                edge_id (stamped_edge node_p var_x 0 2)] ->
          get_edge_data (graph graph_p1_and_p2) (pe_src x) (pe_dst x) (pe_key x)
          = Some d ->
          timestamp d = Some t' ->
          get_absolute_value (now_of graph_p1_and_p2) t
          <= get_absolute_value (now_of graph_p1_and_p2) t').
Proof.
  apply (proj2 (proj2 (graph_find_path_timestamp_is_oldest graph_p1_and_p2
                         [edge_id (stamped_edge node_and_p_p node_p 0 1);
                          edge_id (stamped_edge node_p var_x 0 2)]))).
  - discriminate.
  - intros x [<-|[<-|[]]]; eexists; eexists; split; reflexivity.
Defined.

(** ** The cases that [find_equivalent_subgraphs] returns *)

Lemma fill_path_with_timestamps_in_graph (g : MultiDiGraph) (p p' : Path) :
  fill_path_with_timestamps g p = Ok p' -> path_in_graph g p'.
Proof.
  unfold fill_path_with_timestamps. intros H.
  refine (foldM_invariant _ (path_in_graph g) (fun _ => True) p _ _ [] p' _ H).
  - intros acc e acc' _ Hacc Hs.
    destruct (get_edge_data g (pe_src e) (pe_dst e) (pe_key e)) as [d|] eqn:Ed;
      [|discriminate].
    destruct (timestamp d); [|discriminate]. injection Hs as <-.
    intros x Hx. apply in_app_or in Hx.
    destruct Hx as [Hx|[<-|[]]]; [apply Hacc; exact Hx|].
    cbn [pe_src pe_dst pe_key]. unfold get_edge_data in Ed.
    destruct (find _ (edges g)) as [e0|] eqn:Ef; [|discriminate].
    apply find_some in Ef. apply existsb_exists. exists e0. exact Ef.
  - apply Forall_forall. intros; exact I.
  - intros x [].
Qed.

Lemma _fill_paths_with_timestamps_in_graph (g : MultiDiGraph) (ps ps' : list Path) :
  _fill_paths_with_timestamps g ps = Ok ps' ->
  forall p, In p ps' -> path_in_graph g p.
Proof.
  unfold _fill_paths_with_timestamps. intros H.
  refine (foldM_invariant _ (fun acc => forall p, In p acc -> path_in_graph g p)
            (fun _ => True) ps _ _ [] ps' _ H).
  - intros acc p acc' _ Hacc Hs.
    apply bind_ok in Hs. destruct Hs as [p' [Hp' Hs]]. injection Hs as <-.
    intros q Hq. apply in_app_or in Hq.
    destruct Hq as [Hq|[<-|[]]]; [apply Hacc; exact Hq|].
    apply (fill_path_with_timestamps_in_graph g p p' Hp').
  - apply Forall_forall. intros; exact I.
  - intros p [].
Qed.

Lemma filterM_incl {A : Type} (f : A -> Result bool) (l l' : list A) :
  filterM f l = Ok l' -> incl l' l.
Proof.
  unfold filterM. intros H.
  refine (foldM_invariant _ (fun acc => incl acc l) (fun x => In x l) l _ _ [] l' _ H).
  - intros acc x acc' Hx Hacc Hs.
    apply bind_ok in Hs. destruct Hs as [b [_ Hs]]. injection Hs as <-.
    destruct b; [|exact Hacc].
    intros y Hy. apply in_app_or in Hy. destruct Hy as [Hy|[<-|[]]]; auto.
  - apply Forall_forall. auto.
  - intros x [].
Qed.

Lemma match_other_paths_found (og : MultiDiGraph) (cur : list Path)
    (others : list Path) :
  forall (m : list Path) (grps : list (list Path)) rm rg,
    match_other_paths og cur others m grps = Ok (rm, rg, true) ->
    List.length m = List.length grps ->
    (forall grp, In grp grps -> incl grp cur) ->
    List.length rm = List.length rg /\ (forall grp, In grp rg -> incl grp cur).
Proof.
  induction others as [|p others IH]; intros m grps rm rg H Hlen Hin.
  - simpl in H. injection H as <- <-. auto.
  - cbn [match_other_paths] in H.
    apply bind_ok in H. destruct H as [op [_ H]].
    apply bind_ok in H. destruct H as [mp [Hmp H]].
    destruct mp as [|x xs]; [discriminate|].
    apply (IH _ _ _ _ H).
    + rewrite !length_app. simpl. lia.
    + intros grp Hg. apply in_app_or in Hg. destruct Hg as [Hg|[<-|[]]].
      * apply Hin. exact Hg.
      * apply (filterM_incl _ _ _ Hmp).
Qed.

Lemma _find_equivalent_path_structure_found (g other : TimedPropertyGraph)
    (matched : list Path) (groups : list (list Path)) :
  _find_equivalent_path_structure g other = Ok (matched, groups, true) ->
  List.length matched = List.length groups
  /\ forall group p, In group groups -> In p group -> path_in_graph (graph g) p.
Proof.
  unfold _find_equivalent_path_structure. intros H.
  destruct (negb (forallb (has_node (graph g)) (get_leaves other))); [discriminate|].
  apply bind_ok in H. destruct H as [cur0 [_ H]].
  apply bind_ok in H. destruct H as [cur [Hcur H]].
  apply bind_ok in H. destruct H as [others [_ H]].
  destruct (match_other_paths_found _ _ _ _ _ _ _ H) as [Hlen Hin].
  - reflexivity.
  - intros grp [].
  - split; [exact Hlen|]. intros group p Hg Hp.
    apply (_fill_paths_with_timestamps_in_graph _ _ _ Hcur).
    apply (Hin group Hg). exact Hp.
Qed.

Lemma path_timestamps_fold (now : Z) (l : list Path) :
  forall acc res,
    foldM (fun acc p => t <- find_path_timestamp now p ;; Ok (acc ++ [t])) l acc
    = Ok res ->
    res = acc ++ map (timestamp_of_path now) l
    /\ forall p, In p l -> find_path_timestamp now p = Ok (timestamp_of_path now p).
Proof.
  induction l as [|p l IH]; intros acc res H; cbn [foldM] in H.
  - injection H as <-. rewrite app_nil_r. split; [reflexivity | intros p []].
  - apply bind_ok in H. destruct H as [acc1 [H1 H]].
    apply bind_ok in H1. destruct H1 as [t [Ht H1]]. injection H1 as <-.
    destruct (IH _ _ H) as [Hres Hall].
    assert (Htp : timestamp_of_path now p = t).
    { unfold timestamp_of_path. rewrite Ht. reflexivity. }
    split.
    + rewrite Hres, <- app_assoc. cbn [map app]. rewrite Htp. reflexivity.
    + intros q [<-|Hq]; [rewrite Htp; exact Ht | apply Hall; exact Hq].
Qed.

Lemma groups_timestamps_fold (now : Z) (groups : list (list Path)) :
  forall acc res,
    foldM (fun acc group =>
             ts <- foldM (fun acc p => t <- find_path_timestamp now p ;;
                                       Ok (acc ++ [t])) group [] ;;
             Ok (acc ++ [ts])) groups acc = Ok res ->
    res = acc ++ map (map (timestamp_of_path now)) groups
    /\ forall group p, In group groups -> In p group ->
         find_path_timestamp now p = Ok (timestamp_of_path now p).
Proof.
  induction groups as [|grp groups IH]; intros acc res H; cbn [foldM] in H.
  - injection H as <-. rewrite app_nil_r. split; [reflexivity | intros g p []].
  - apply bind_ok in H. destruct H as [acc1 [H1 H]].
    apply bind_ok in H1. destruct H1 as [ts [Hts H1]]. injection H1 as <-.
    apply path_timestamps_fold in Hts. destruct Hts as [-> Hgrp].
    destruct (IH _ _ H) as [Hres Hall]. split.
    + rewrite Hres, <- app_assoc. reflexivity.
    + intros group p [<-|Hg] Hp; [apply Hgrp; exact Hp | apply (Hall group p Hg Hp)].
Qed.

Lemma product_In {A : Type} (groups : list (list A)) :
  forall c, In c (product groups) ->
    List.length c = List.length groups
    /\ forall x, In x c -> exists g, In g groups /\ In x g.
Proof.
  induction groups as [|g groups IH]; intros c Hc.
  - destruct Hc as [<-|[]]. split; [reflexivity | intros x []].
  - simpl in Hc. apply in_flat_map in Hc. destruct Hc as [y [Hy Hc]].
    apply in_map_iff in Hc. destruct Hc as [c' [<- Hc']].
    destruct (IH c' Hc') as [Hlen Hin]. split; [simpl; rewrite Hlen; reflexivity|].
    intros x [<-|Hx].
    + exists g. split; [now left | exact Hy].
    + destruct (Hin x Hx) as [g' [Hg' Hx']]. exists g'. split; [now right | exact Hx'].
Qed.

Lemma product_map {A B : Type} (f : A -> B) (groups : list (list A)) :
  product (map (map f) groups) = map (map f) (product groups).
Proof.
  induction groups as [|g groups IH]; [reflexivity|].
  cbn [map product]. rewrite IH. clear IH.
  induction g as [|x g IHg]; [reflexivity|].
  cbn [map flat_map]. rewrite map_app, IHg, !map_map. reflexivity.
Qed.

Lemma column_In {A : Type} (i : nat) (rows : list (list A)) (x : A) :
  In x (column i rows) -> exists row, In row rows /\ nth_error row i = Some x.
Proof.
  unfold column. rewrite in_flat_map. intros [row [Hrow Hx]].
  exists row. split; [exact Hrow|].
  destruct (nth_error row i) as [y|]; [|destruct Hx].
  destruct Hx as [<-|[]]. reflexivity.
Qed.

Lemma column_length {A : Type} (i : nat) (rows : list (list A)) :
  (forall row, In row rows -> (i < List.length row)%nat) ->
  List.length (column i rows) = List.length rows.
Proof.
  unfold column. induction rows as [|row rows IH]; intros H; [reflexivity|].
  cbn [flat_map]. rewrite length_app, IH; [|intros r Hr; apply H; now right].
  destruct (nth_error row i) eqn:E; [reflexivity|].
  apply nth_error_None in E. specialize (H row (or_introl eq_refl)). lia.
Qed.

Lemma column_map {A B : Type} (f : A -> B) (i : nat) (rows : list (list A)) :
  column i (map (map f) rows) = map f (column i rows).
Proof.
  unfold column. induction rows as [|row rows IH]; [reflexivity|].
  cbn [map flat_map]. rewrite map_app, IH, nth_error_map.
  destruct (nth_error row i); reflexivity.
Qed.

Lemma transpose_In {A : Type} (n : nat) (rows : list (list A)) (c : list A) :
  In c (transpose n rows) -> exists i, (i < n)%nat /\ c = column i rows.
Proof.
  unfold transpose. rewrite in_map_iff. intros [i [<- Hi]].
  apply in_seq in Hi. exists i. split; [lia | reflexivity].
Qed.

Lemma transpose_map {A B : Type} (f : A -> B) (n : nat) (rows : list (list A)) :
  transpose n (map (map f) rows) = map (map f) (transpose n rows).
Proof.
  unfold transpose. rewrite map_map. apply map_ext. intros i. apply column_map.
Qed.

Lemma transpose_length {A : Type} (n : nat) (rows : list (list A)) :
  List.length (transpose n rows) = n.
Proof. unfold transpose. rewrite length_map, length_seq. reflexivity. Qed.

Lemma zip_rows_In (ts : list Timestamp) :
  forall ps cts cs row,
    In row (zip_rows ts ps cts cs) ->
    exists i,
      nth_error ts i = Some (row_original_timestamp row)
      /\ nth_error ps i = Some (row_matched_path row)
      /\ nth_error cts i = Some (row_cases_timestamps row)
      /\ nth_error cs i = Some (row_cases row).
Proof.
  induction ts as [|t ts IH]; intros [|p ps] [|ct cts] [|c cs] row H;
    simpl in H; try contradiction.
  destruct H as [<-|H].
  - exists 0%nat. simpl. auto.
  - destruct (IH _ _ _ _ H) as [i Hi]. exists (S i). exact Hi.
Qed.

Lemma zip_rows_length (ts : list Timestamp) :
  forall ps cts cs,
    List.length ps = List.length ts ->
    List.length cts = List.length ts ->
    List.length cs = List.length ts ->
    List.length (zip_rows ts ps cts cs) = List.length ts.
Proof.
  induction ts as [|t ts IH]; intros [|p ps] [|ct cts] [|c cs] H1 H2 H3;
    simpl in *; try discriminate; try reflexivity.
  f_equal. apply IH; lia.
Qed.

Lemma insert_oldest_first_In (now : Z) (x r : MatchRow) (l : list MatchRow) :
  In r (insert_oldest_first now x l) -> r = x \/ In r l.
Proof.
  induction l as [|y l IH]; simpl.
  - intros [<-|[]]. now left.
  - destruct (ts_lt now (row_original_timestamp y) (row_original_timestamp x)).
    + intros [<-|H]; [right; now left|].
      destruct (IH H) as [->|Hl]; [now left | right; now right].
    + intros [<-|H]; [now left | now right].
Qed.

Lemma insert_oldest_first_length (now : Z) (x : MatchRow) (l : list MatchRow) :
  List.length (insert_oldest_first now x l) = S (List.length l).
Proof.
  induction l as [|y l IH]; simpl; [reflexivity|].
  destruct (ts_lt now (row_original_timestamp y) (row_original_timestamp x));
    simpl; [rewrite IH|]; reflexivity.
Qed.

Lemma sort_rows_In (now : Z) (rows : list MatchRow) (r : MatchRow) :
  In r (sort_rows now rows) -> In r rows.
Proof.
  unfold sort_rows. induction rows as [|x rows IH]; simpl; [auto|].
  intros H. apply insert_oldest_first_In in H. destruct H as [->|H]; auto.
Qed.

Lemma sort_rows_length (now : Z) (rows : list MatchRow) :
  List.length (sort_rows now rows) = List.length rows.
Proof.
  unfold sort_rows. induction rows as [|x rows IH]; simpl; [reflexivity|].
  rewrite insert_oldest_first_length, IH. reflexivity.
Qed.

Lemma insert_oldest_first_HdRel (now : Z) (a : Timestamp) (x : MatchRow)
    (l : list MatchRow) :
  not_after now a (row_original_timestamp x) ->
  HdRel (not_after now) a (map row_original_timestamp l) ->
  HdRel (not_after now) a (map row_original_timestamp (insert_oldest_first now x l)).
Proof.
  intros Hx Hl. destruct l as [|y l]; simpl.
  - constructor. exact Hx.
  - destruct (ts_lt now (row_original_timestamp y) (row_original_timestamp x)).
    + simpl in Hl. inversion Hl; subst. constructor. assumption.
    + constructor. exact Hx.
Qed.

Lemma insert_oldest_first_sorted (now : Z) (x : MatchRow) (l : list MatchRow) :
  Sorted (not_after now) (map row_original_timestamp l) ->
  Sorted (not_after now) (map row_original_timestamp (insert_oldest_first now x l)).
Proof.
  induction l as [|y l IH]; simpl; intros Hs.
  - constructor; constructor.
  - inversion Hs as [|? ? Hs' Hd]; subst.
    unfold ts_lt.
    destruct (Z.ltb_spec (get_absolute_value now (row_original_timestamp y))
                (get_absolute_value now (row_original_timestamp x))) as [Hlt|Hge].
    + simpl. constructor; [apply IH; exact Hs'|].
      apply insert_oldest_first_HdRel; [unfold not_after; lia | exact Hd].
    + simpl. constructor; [exact Hs|]. constructor. unfold not_after. lia.
Qed.

Lemma sort_rows_sorted (now : Z) (rows : list MatchRow) :
  Sorted (not_after now) (map row_original_timestamp (sort_rows now rows)).
Proof.
  unfold sort_rows. induction rows as [|x rows IH]; simpl; [constructor|].
  apply insert_oldest_first_sorted. exact IH.
Qed.

Lemma kept_In {A : Type} (l : list A) (keep : list bool) (c : A) :
  In c (map fst (filter snd (combine l keep))) -> In c l.
Proof.
  rewrite in_map_iff. intros [[c' b] [<- H]]. apply filter_In in H.
  destruct H as [H _]. apply in_combine_l in H. exact H.
Qed.

Lemma kept_map {A B : Type} (f : A -> B) (l : list A) :
  forall keep,
    map fst (filter snd (combine (map f l) keep))
    = map f (map fst (filter snd (combine l keep))).
Proof.
  induction l as [|x l IH]; intros [|b keep]; try reflexivity.
  cbn [map combine filter snd]. destruct b; cbn [map fst]; rewrite IH; reflexivity.
Qed.

Lemma kept_true {A : Type} (f : A -> bool) (l : list A) (c : A) :
  In c (map fst (filter snd (combine l (map f l)))) -> f c = true.
Proof.
  induction l as [|x l IH]; [intros []|].
  cbn [map combine filter snd]. destruct (f x) eqn:E; cbn [map fst].
  - intros [<-|H]; [exact E | apply IH; exact H].
  - exact IH.
Qed.

(** What [find_equivalent_subgraphs] computes when it returns. *)
Lemma find_equivalent_subgraphs_inv (g other : TimedPropertyGraph)
    (r : EquivalentSubgraphs) :
  find_equivalent_subgraphs g other = Ok r ->
  r = no_equivalent_subgraphs
  \/ exists matched groups sorted,
       _find_equivalent_path_structure g other = Ok (matched, groups, true)
       /\ (forall p, In p matched ->
             find_path_timestamp (now_of g) p = Ok (timestamp_of_path (now_of g) p))
       /\ (forall group p, In group groups -> In p group ->
             find_path_timestamp (now_of g) p = Ok (timestamp_of_path (now_of g) p))
       /\ sorted
          = sort_rows (now_of g)
              (zip_rows (map (timestamp_of_path (now_of g)) matched) matched
                 (transpose (List.length matched)
                    (product (map (map (timestamp_of_path (now_of g))) groups)))
                 (transpose (List.length matched) (product groups)))
       /\ sorted <> []
       /\ r = {| matching_cases :=
                   map fst
                     (filter snd
                        (combine
                           (transpose (List.length (product groups))
                              (map row_cases sorted))
                           (map (fun ct =>
                                   timestamp_sequences_matches (now_of g)
                                     (map row_original_timestamp sorted) ct)
                              (transpose (List.length (product groups))
                                 (map row_cases_timestamps sorted)))));
                 matched_paths := map row_matched_path sorted;
                 original_timestamps := map row_original_timestamp sorted;
                 matching_cases_timestamps :=
                   map fst
                     (filter snd
                        (combine
                           (transpose (List.length (product groups))
                              (map row_cases_timestamps sorted))
                           (map (fun ct =>
                                   timestamp_sequences_matches (now_of g)
                                     (map row_original_timestamp sorted) ct)
                              (transpose (List.length (product groups))
                                 (map row_cases_timestamps sorted))))) |}.
Proof.
  unfold find_equivalent_subgraphs. intros H.
  apply bind_ok in H. destruct H as [[[matched groups] found] [Hs H]].
  destruct found; cbn [negb] in H.
  - right.
    apply bind_ok in H. destruct H as [original [Ho H]].
    apply bind_ok in H. destruct H as [gts [Hg H]].
    apply path_timestamps_fold in Ho. destruct Ho as [-> Hm].
    apply groups_timestamps_fold in Hg. destruct Hg as [-> Hgp].
    cbn [app] in H.
    remember (sort_rows (now_of g)
                (zip_rows (map (timestamp_of_path (now_of g)) matched) matched
                   (transpose (List.length matched)
                      (product (map (map (timestamp_of_path (now_of g))) groups)))
                   (transpose (List.length matched) (product groups))))
      as sorted eqn:Es.
    exists matched, groups, sorted.
    split; [exact Hs|]. split; [exact Hm|]. split; [exact Hgp|].
    split; [exact Es|].
    destruct sorted as [|s sorted]; [discriminate|].
    split; [discriminate|]. injection H as <-. reflexivity.
  - left. injection H as <-. reflexivity.
Qed.

(** The rows that are sorted pair every path of the other graph with its
    timestamp, and the cases with their timestamps. *)
Lemma sorted_rows_spec (now : Z) (matched : list Path) (groups : list (list Path))
    (row : MatchRow) :
  List.length matched = List.length groups ->
  In row (sort_rows now
            (zip_rows (map (timestamp_of_path now) matched) matched
               (transpose (List.length matched)
                  (product (map (map (timestamp_of_path now)) groups)))
               (transpose (List.length matched) (product groups)))) ->
  In (row_matched_path row) matched
  /\ row_original_timestamp row = timestamp_of_path now (row_matched_path row)
  /\ row_cases_timestamps row = map (timestamp_of_path now) (row_cases row)
  /\ List.length (row_cases row) = List.length (product groups)
  /\ forall p, In p (row_cases row) -> exists group, In group groups /\ In p group.
Proof.
  intros Hlen H. apply sort_rows_In in H. apply zip_rows_In in H.
  destruct H as [i [Hts [Hps [Hcts Hcs]]]].
  rewrite nth_error_map, Hps in Hts. injection Hts as Hts.
  rewrite product_map, transpose_map, nth_error_map, Hcs in Hcts.
  injection Hcts as Hcts.
  split; [apply (nth_error_In _ _ Hps)|]. split; [auto|]. split; [auto|].
  apply nth_error_In in Hcs. apply transpose_In in Hcs.
  destruct Hcs as [j [Hj Hc]]. rewrite Hc. split.
  - apply column_length. intros c Hin. apply product_In in Hin.
    destruct Hin as [Hl _]. lia.
  - intros p Hp. apply column_In in Hp. destruct Hp as [c [Hin Hn]].
    apply nth_error_In in Hn. apply product_In in Hin. destruct Hin as [_ Hin].
    apply Hin. exact Hn.
Qed.

Lemma sorted_rows_length (now : Z) (matched : list Path) (groups : list (list Path)) :
  List.length
    (sort_rows now
       (zip_rows (map (timestamp_of_path now) matched) matched
          (transpose (List.length matched)
             (product (map (map (timestamp_of_path now)) groups)))
          (transpose (List.length matched) (product groups))))
  = List.length matched.
Proof.
  rewrite sort_rows_length, zip_rows_length; rewrite ?length_map, ?transpose_length;
    reflexivity.
Qed.

(** The shape of what [find_equivalent_subgraphs] returns. *)
Lemma find_equivalent_subgraphs_spec (g other : TimedPropertyGraph)
    (r : EquivalentSubgraphs) :
  find_equivalent_subgraphs g other = Ok r ->
  (forall case, In case (matching_cases r) ->
     List.length case = List.length (matched_paths r)
     /\ forall p, In p case ->
          path_in_graph (graph g) p
          /\ find_path_timestamp (now_of g) p = Ok (timestamp_of_path (now_of g) p))
  /\ matching_cases_timestamps r
     = map (map (timestamp_of_path (now_of g))) (matching_cases r)
  /\ original_timestamps r = map (timestamp_of_path (now_of g)) (matched_paths r)
  /\ (forall p, In p (matched_paths r) ->
        find_path_timestamp (now_of g) p = Ok (timestamp_of_path (now_of g) p))
  /\ (forall ct, In ct (matching_cases_timestamps r) ->
        timestamp_sequences_matches (now_of g) (original_timestamps r) ct = true)
  /\ Sorted (not_after (now_of g)) (original_timestamps r).
Proof.
  intros H. apply find_equivalent_subgraphs_inv in H.
  destruct H as [->|[matched [groups [sorted [Hs [Hm [Hg [Es [Hne ->]]]]]]]]].
  - cbn. repeat split; try contradiction. constructor.
  - cbn [matching_cases matched_paths original_timestamps matching_cases_timestamps].
    apply _find_equivalent_path_structure_found in Hs. destruct Hs as [Hlen Hin].
    assert (Hrow : forall row, In row sorted ->
              In (row_matched_path row) matched
              /\ row_original_timestamp row
                 = timestamp_of_path (now_of g) (row_matched_path row)
              /\ row_cases_timestamps row
                 = map (timestamp_of_path (now_of g)) (row_cases row)
              /\ List.length (row_cases row) = List.length (product groups)
              /\ forall p, In p (row_cases row) ->
                   exists group, In group groups /\ In p group).
    { intros row Hr. rewrite Es in Hr. apply (sorted_rows_spec _ _ _ _ Hlen Hr). }
    assert (Hcts : map row_cases_timestamps sorted
                   = map (map (timestamp_of_path (now_of g))) (map row_cases sorted)).
    { rewrite map_map. apply map_ext_in. intros row Hr. apply (Hrow row Hr). }
    split; [|split; [|split; [|split; [|split]]]].
    + intros case Hc. apply kept_In in Hc. apply transpose_In in Hc.
      destruct Hc as [i [Hi ->]]. split.
      * rewrite column_length, !length_map; [reflexivity|].
        intros row Hr. apply in_map_iff in Hr. destruct Hr as [s [<- Hsr]].
        destruct (Hrow s Hsr) as [_ [_ [_ [Hl _]]]]. lia.
      * intros p Hp. apply column_In in Hp. destruct Hp as [row [Hr Hn]].
        apply nth_error_In in Hn. apply in_map_iff in Hr.
        destruct Hr as [s [<- Hsr]].
        destruct (Hrow s Hsr) as [_ [_ [_ [_ Hgrp]]]].
        destruct (Hgrp p Hn) as [group [Hgr Hpg]].
        split; [apply (Hin group p Hgr Hpg) | apply (Hg group p Hgr Hpg)].
    + rewrite Hcts, transpose_map, kept_map. reflexivity.
    + rewrite map_map. apply map_ext_in. intros row Hr. apply (Hrow row Hr).
    + intros p Hp. apply in_map_iff in Hp. destruct Hp as [s [<- Hsr]].
      apply Hm. apply (Hrow s Hsr).
    + intros ct Hct.
      apply (kept_true
               (fun ct => timestamp_sequences_matches (now_of g)
                            (map row_original_timestamp sorted) ct) _ ct Hct).
    + rewrite Es. apply sort_rows_sorted.
Qed.

(** X22.  When [find_equivalent_subgraphs] returns, every matching case
    holds one path for each matched path of the other graph, every such path
    is made of edges of the graph, and the lists of cases and of their
    timestamps have the same length. *)
Theorem find_equivalent_subgraphs_cases_are_paths_of_graph
    (g other : TimedPropertyGraph) (r : EquivalentSubgraphs) :
  find_equivalent_subgraphs g other = Ok r ->
  List.length (matching_cases r) = List.length (matching_cases_timestamps r)
  /\ List.length (matched_paths r) = List.length (original_timestamps r)
  /\ forall case, In case (matching_cases r) ->
       List.length case = List.length (matched_paths r)
       /\ forall p, In p case -> path_in_graph (graph g) p.
Proof.
  intros H. apply find_equivalent_subgraphs_spec in H.
  destruct H as [Hc [Hct [Ho _]]]. split; [|split].
  - rewrite Hct, length_map. reflexivity.
  - rewrite Ho, length_map. reflexivity.
  - intros case Hin. destruct (Hc case Hin) as [Hl Hp].
    split; [exact Hl|]. intros p Hpc. apply (Hp p Hpc).
Qed.

Lemma find_equivalent_subgraphs_cases_are_paths_of_graph_witness :
  exists r,
    find_equivalent_subgraphs graph_p_and_p graph_p_alone = Ok r
    /\ matching_cases r <> []
    /\ List.length (matching_cases r) = List.length (matching_cases_timestamps r)
    /\ List.length (matched_paths r) = List.length (original_timestamps r)
    /\ forall case, In case (matching_cases r) ->
         List.length case = List.length (matched_paths r)
         /\ forall p, In p case -> path_in_graph (graph graph_p_and_p) p.
Proof.
  eexists. split; [vm_compute; reflexivity|]. split; [discriminate|].
  apply (find_equivalent_subgraphs_cases_are_paths_of_graph graph_p_and_p graph_p_alone).
  vm_compute. reflexivity.
Defined.

(** X23.  When [find_equivalent_subgraphs] returns, the timestamps it
    returns are those [find_path_timestamp] gives the paths returned with
    them: for the matched paths and, case by case, for the paths of the
    matching cases.  The matched paths come oldest first, and the timestamps
    of every case returned match the original ones as sequences. *)
Theorem find_equivalent_subgraphs_timestamps_of_paths
    (g other : TimedPropertyGraph) (r : EquivalentSubgraphs) :
  find_equivalent_subgraphs g other = Ok r ->
  map (find_path_timestamp (now_of g)) (matched_paths r)
  = map Ok (original_timestamps r)
  /\ map (map (find_path_timestamp (now_of g))) (matching_cases r)
     = map (map Ok) (matching_cases_timestamps r)
  /\ Sorted (not_after (now_of g)) (original_timestamps r)
  /\ forall ct, In ct (matching_cases_timestamps r) ->
       timestamp_sequences_matches (now_of g) (original_timestamps r) ct = true.
Proof.
  intros H. apply find_equivalent_subgraphs_spec in H.
  destruct H as [Hc [Hct [Ho [Hm [Hk Hs]]]]]. split; [|split; [|split]].
  - rewrite Ho, map_map. apply map_ext_in. exact Hm.
  - rewrite Hct, map_map. apply map_ext_in. intros case Hin.
    rewrite map_map. apply map_ext_in. intros p Hp.
    apply (Hc case Hin). exact Hp.
  - exact Hs.
  - exact Hk.
Qed.

Lemma find_equivalent_subgraphs_timestamps_of_paths_witness :
  exists r,
    find_equivalent_subgraphs graph_p1_and_p2 graph_p_at_2 = Ok r
    /\ matching_cases r <> []
    /\ map (find_path_timestamp (now_of graph_p1_and_p2)) (matched_paths r)
       = map Ok (original_timestamps r)
    /\ map (map (find_path_timestamp (now_of graph_p1_and_p2))) (matching_cases r)
       = map (map Ok) (matching_cases_timestamps r)
    /\ Sorted (not_after (now_of graph_p1_and_p2)) (original_timestamps r)
    /\ forall ct, In ct (matching_cases_timestamps r) ->
         timestamp_sequences_matches (now_of graph_p1_and_p2)
           (original_timestamps r) ct = true.
Proof.
  eexists. split; [vm_compute; reflexivity|]. split; [discriminate|].
  apply (find_equivalent_subgraphs_timestamps_of_paths graph_p1_and_p2 graph_p_at_2).
  vm_compute. reflexivity.
Defined.

(** ** Updating the first matching case *)

Lemma update_path_timestamp_in_graph (t : Timestamp) (path : Path) :
  forall g,
    path_in_graph (graph g) path ->
    exists g',
      update_path_timestamp g path t = Ok g'
      /\ forall q, path_in_graph (graph g) q -> path_in_graph (graph g') q.
Proof.
  unfold update_path_timestamp.
  induction path as [|x path IH]; intros g Hp; cbn [foldM].
  - exists g. split; [reflexivity | auto].
  - assert (Ex : existsb (is_edge (pe_src x) (pe_dst x) (pe_key x)) (edges (graph g))
                 = true) by (apply Hp; now left).
    assert (Hstep :
              (gr <- update_edge_data (graph g) (pe_src x) (pe_dst x) (pe_key x)
                       (timestamp_data (Some t)) ;;
               Ok (set_graph g gr))
              = Ok (set_graph g
                      {| nodes := nodes (graph g);
                         edges := map (update_edge (pe_src x) (pe_dst x) (pe_key x)
                                         (timestamp_data (Some t)))
                                      (edges (graph g)) |})).
    { unfold update_edge_data. rewrite Ex. reflexivity. }
    rewrite Hstep. clear Hstep. cbn [bind].
    set (g1 := set_graph g _).
    assert (Hkeep : forall q, path_in_graph (graph g) q -> path_in_graph (graph g1) q).
    { intros q Hq y Hy. unfold g1. cbn [graph set_graph edges].
      rewrite existsb_map_update_edge. apply Hq. exact Hy. }
    destruct (IH g1) as [g' [Hg' Hk]].
    { apply Hkeep. intros y Hy. apply Hp. now right. }
    exists g'. split; [exact Hg'|]. intros q Hq. apply Hk, Hkeep, Hq.
Qed.

Lemma update_case_timestamp_in_graph (t : Timestamp) (case : list Path) :
  forall g,
    (forall p, In p case -> path_in_graph (graph g) p) ->
    exists g', foldM (fun g path => update_path_timestamp g path t) case g = Ok g'.
Proof.
  induction case as [|p case IH]; intros g H; cbn [foldM].
  - exists g. reflexivity.
  - destruct (update_path_timestamp_in_graph t p g (H p (or_introl eq_refl)))
      as [g1 [H1 Hk]].
    rewrite H1. cbn [bind]. apply IH. intros q Hq. apply Hk, H. now right.
Qed.

(** X24.  Once the search for the subgraph has returned,
    [update_subgraph_timestamp] raises [RuntimeError] exactly when the search
    found no matching case, and returns a graph exactly when it found one:
    the update of the paths of the first case never fails on the way. *)
Theorem update_subgraph_timestamp_returns_iff_case_found
    (g sub : TimedPropertyGraph) (t : Timestamp) (r : EquivalentSubgraphs) :
  find_equivalent_subgraphs g sub = Ok r ->
  (update_subgraph_timestamp g sub t
   = Raise (RuntimeError
              "Failed to update timestamps of given subgraph: subgraph not found.")
   <-> matching_cases r = [])
  /\ ((exists g', update_subgraph_timestamp g sub t = Ok g')
      <-> matching_cases r <> []).
Proof.
  intros Hr. destruct (find_equivalent_subgraphs_spec g sub r Hr) as [Hc _].
  unfold update_subgraph_timestamp. rewrite Hr. cbn [bind].
  destruct (matching_cases r) as [|case rest].
  - split; split.
    + reflexivity.
    + reflexivity.
    + intros [g' H]. discriminate.
    + intros H. contradiction.
  - destruct (update_case_timestamp_in_graph t case g) as [g' Hg'].
    { intros p Hp. apply (Hc case (or_introl eq_refl)). exact Hp. }
    rewrite Hg'. split; split.
    + discriminate.
    + discriminate.
    + discriminate.
    + intros _. exists g'. reflexivity.
Qed.

Lemma update_subgraph_timestamp_returns_iff_case_found_witness :
  exists r,
    find_equivalent_subgraphs graph_p_and_p graph_p_alone = Ok r
    /\ (update_subgraph_timestamp graph_p_and_p graph_p_alone (Absolute 0)
        = Raise (RuntimeError
                   "Failed to update timestamps of given subgraph: subgraph not found.")
        <-> matching_cases r = [])
    /\ ((exists g', update_subgraph_timestamp graph_p_and_p graph_p_alone (Absolute 0)
                    = Ok g')
        <-> matching_cases r <> []).
Proof.
  eexists. split; [vm_compute; reflexivity|].
  apply (update_subgraph_timestamp_returns_iff_case_found graph_p_and_p graph_p_alone).
  vm_compute. reflexivity.
Defined.

(** ** One modus ponens for every matching case *)

Lemma combine_same_length {A B : Type} (l : list A) :
  forall l' : list B,
    List.length l = List.length l' ->
    map fst (combine l l') = l /\ map snd (combine l l') = l'.
Proof.
  induction l as [|a l IH]; intros [|b l'] H; try discriminate; [auto|].
  simpl in H. injection H as H. destruct (IH l' H) as [H1 H2].
  simpl. rewrite H1, H2. auto.
Qed.

(** X25.  For an implication graph that splits into an assumption and a
    conclusion, [find_all_possible_modus_ponens] raises exactly when the
    search for the assumption raises.  Otherwise it returns one application
    for each matching case of the assumption, in their order, each with the
    paths and the timestamps of its case and with the implication graph
    itself; the paths are made of edges of the graph, and the list is empty
    exactly when [contains_property_graph] says the graph does not contain
    the assumption. *)
Theorem find_all_possible_modus_ponens_one_per_case
    (g ig a : TimedPropertyGraph) (c : option TimedPropertyGraph) :
  get_top_level_implication_subgraphs ig = Ok (Some a, c) ->
  (forall e, find_all_possible_modus_ponens g ig = Raise e
             <-> find_equivalent_subgraphs g a = Raise e)
  /\ forall l,
       find_all_possible_modus_ponens g ig = Ok l ->
       exists r,
         find_equivalent_subgraphs g a = Ok r
         /\ map matching_paths l = matching_cases r
         /\ map matching_paths_timestamps l = matching_cases_timestamps r
         /\ (forall mp, In mp l ->
               implication_graph mp = ig
               /\ forall p, In p (matching_paths mp) -> path_in_graph (graph g) p)
         /\ contains_property_graph g a = Ok (negb (Nat.eqb (List.length l) 0)).
Proof.
  intros Hs. unfold find_all_possible_modus_ponens, contains_property_graph.
  rewrite Hs. cbn [bind].
  destruct (find_equivalent_subgraphs g a) as [r|err] eqn:Hr; cbn [bind].
  - split; [intros e; split; discriminate|].
    intros l Hl. injection Hl as <-. exists r. split; [reflexivity|].
    pose proof (find_equivalent_subgraphs_spec g a r Hr) as [Hc [Hct _]].
    assert (Hlen : List.length (matching_cases r)
                   = List.length (matching_cases_timestamps r)).
    { rewrite Hct, length_map. reflexivity. }
    destruct (combine_same_length _ _ Hlen) as [H1 H2].
    rewrite !map_map. cbn [matching_paths matching_paths_timestamps].
    split; [exact H1|]. split; [exact H2|]. split.
    + intros mp Hmp. apply in_map_iff in Hmp. destruct Hmp as [[ps ts] [<- Hin]].
      cbn [implication_graph matching_paths fst]. split; [reflexivity|].
      intros p Hp. apply in_combine_l in Hin. apply (Hc ps Hin). exact Hp.
    + rewrite length_map, length_combine, <- Hlen, Nat.min_id.
      destruct (matching_cases r); reflexivity.
  - split; [intros e; split; intros H; injection H as ->; reflexivity|].
    discriminate.
Qed.

Lemma find_all_possible_modus_ponens_one_per_case_witness :
  exists r,
    find_equivalent_subgraphs graph_A_at_10 assumption_of_A_implies_B = Ok r
    /\ map matching_paths
         (value_or [] (find_all_possible_modus_ponens graph_A_at_10 graph_A_implies_B))
       = matching_cases r
    /\ map matching_paths_timestamps
         (value_or [] (find_all_possible_modus_ponens graph_A_at_10 graph_A_implies_B))
       = matching_cases_timestamps r
    /\ (forall mp,
          In mp (value_or []
                   (find_all_possible_modus_ponens graph_A_at_10 graph_A_implies_B)) ->
          implication_graph mp = graph_A_implies_B
          /\ forall p, In p (matching_paths mp) ->
               path_in_graph (graph graph_A_at_10) p)
    /\ contains_property_graph graph_A_at_10 assumption_of_A_implies_B
       = Ok (negb (Nat.eqb
                     (List.length
                        (value_or []
                           (find_all_possible_modus_ponens graph_A_at_10
                              graph_A_implies_B))) 0)).
Proof.
  apply (proj2 (find_all_possible_modus_ponens_one_per_case graph_A_at_10
                  graph_A_implies_B assumption_of_A_implies_B
                  (Some conclusion_of_A_implies_B) eq_refl)).
  vm_compute. reflexivity.
Defined.

(** ** Conjunction onto an empty graph *)

Lemma add_edges_from_new (es : list Edge) :
  forall G,
    NoDup (map (fun e => (edge_src e, edge_dst e, edge_key e)) es) ->
    (forall e, In e es ->
       existsb (is_edge (edge_src e) (edge_dst e) (edge_key e)) (edges G) = false) ->
    (forall e, In e (edges (add_edges_from G es)) <-> In e (edges G) \/ In e es)
    /\ (forall n, In n (nodes (add_edges_from G es))
                  <-> In n (nodes G)
                      \/ exists e, In e es /\ (n = edge_src e \/ n = edge_dst e)).
Proof.
  unfold add_edges_from.
  induction es as [|x es IH]; intros G Hnd Hnew; cbn [fold_left].
  - split.
    + intros e. split; [auto | intros [H|[]]; exact H].
    + intros n. split; [auto | intros [H|[e [[] _]]]; exact H].
  - cbn [map] in Hnd. inversion Hnd as [|? ? Hx Hnd']; subst.
    set (G1 := add_edge G (edge_src x) (edge_dst x) (Some (edge_key x)) (edge_data x)).
    assert (HE : edges G1 = insert_edge x (edges G)).
    { unfold G1, add_edge. cbn [edges]. rewrite (Hnew x (or_introl eq_refl)).
      destruct x; reflexivity. }
    destruct (IH G1 Hnd') as [He Hn].
    { intros e Hin. rewrite HE, existsb_insert_edge, (Hnew e (or_intror Hin)), orb_false_r.
      destruct (is_edge (edge_src e) (edge_dst e) (edge_key e) x) eqn:E; [|reflexivity].
      apply is_edge_src in E. destruct E as [E1 [E2 E3]].
      exfalso. apply Hx. rewrite E1, E2, E3.
      apply (in_map (fun e => (edge_src e, edge_dst e, edge_key e)) es e Hin). }
    split.
    + intros e. rewrite He, HE, insert_edge_In. cbn [In]. intuition.
    + intros n. rewrite Hn. unfold G1. rewrite In_nodes_add_edge. split.
      * intros [[->|[->|H]]|[e [Hin Hor]]].
        -- right. exists x. split; [now left | now left].
        -- right. exists x. split; [now left | now right].
        -- now left.
        -- right. exists e. split; [now right | exact Hor].
      * intros [H|[e [[<-|Hin] Hor]]].
        -- left. right. right. exact H.
        -- left. destruct Hor as [->| ->]; [now left | right; now left].
        -- right. exists e. split; assumption.
Qed.

(** X26.  [logical_and] returns the graph as it is when the operand has no
    node.  On a graph without nodes it adds no [AND] node: before the
    constant properties are applied, the graph has taken the edges of the
    operand, the end points of these edges as its nodes (a node of the
    operand without an edge is not taken over) and the root of the operand
    as its root. *)
Theorem logical_and_onto_empty_graph
    (g property_graph : TimedPropertyGraph) (t : option Timestamp) :
  (number_of_nodes (graph property_graph) = 0%nat ->
   logical_and g property_graph t = Ok g)
  /\ (graph g = empty_graph ->
      number_of_nodes (graph property_graph) <> 0%nat ->
      NoDup (map (fun e => (edge_src e, edge_dst e, edge_key e))
               (graph_edges (graph property_graph))) ->
      (t = None -> stamped (graph property_graph)) ->
      exists g1,
        logical_and g property_graph t = _apply_all_constant_properties g1
        /\ root_node g1 = root_node property_graph
        /\ (forall e, In e (edges (graph g1))
                      <-> In e (graph_edges (graph property_graph)))
        /\ (forall n, In n (nodes (graph g1))
                      <-> exists e, In e (graph_edges (graph property_graph))
                                    /\ (n = edge_src e \/ n = edge_dst e))
        /\ time_source g1 = time_source g
        /\ constant_properties g1 = constant_properties g).
Proof.
  split.
  - intros H. unfold logical_and. rewrite H. reflexivity.
  - intros Hg Hne Hnd Hst. unfold logical_and.
    destruct (Nat.eqb_spec (number_of_nodes (graph property_graph)) 0) as [E|_];
      [contradiction|].
    assert (Hgm : get_most_recent_timestamp g = Ok None).
    { unfold get_most_recent_timestamp. rewrite Hg. reflexivity. }
    assert (Hts : exists p,
               match t with
               | Some t0 => Ok (Some t0, Some t0)
               | None =>
                   t1 <- get_most_recent_timestamp g ;;
                   t2 <- get_most_recent_timestamp property_graph ;;
                   Ok (t1, t2)
               end = Ok p).
    { destruct t as [t0|]; [eauto|]. rewrite Hgm. cbn [bind].
      destruct (get_most_recent_timestamp_ok property_graph (Hst eq_refl)) as [t2 H2].
      rewrite H2. cbn [bind]. eauto. }
    destruct Hts as [[t1 t2] Hts]. rewrite Hts. cbn [bind].
    rewrite Hg. cbn [number_of_nodes nodes empty_graph List.length Nat.eqb negb bind].
    eexists. split; [reflexivity|].
    cbn [root_node set_root_node set_graph graph time_source constant_properties
         get_root_node].
    destruct (add_edges_from_new (graph_edges (graph property_graph)) empty_graph Hnd)
      as [He Hn]; [reflexivity|].
    split; [reflexivity|]. split; [|split; [|split; reflexivity]].
    + intros e. rewrite He. cbn [edges empty_graph In]. intuition.
    + intros n. rewrite Hn. cbn [nodes empty_graph In]. intuition.
Qed.

Lemma logical_and_onto_empty_graph_witness :
  exists g1,
    logical_and (TimedPropertyGraph_init (clock 1)) graph_p_alone None
    = _apply_all_constant_properties g1
    /\ root_node g1 = root_node graph_p_alone
    /\ (forall e, In e (edges (graph g1)) <-> In e (graph_edges (graph graph_p_alone)))
    /\ (forall n, In n (nodes (graph g1))
                  <-> exists e, In e (graph_edges (graph graph_p_alone))
                                /\ (n = edge_src e \/ n = edge_dst e))
    /\ time_source g1 = time_source (TimedPropertyGraph_init (clock 1))
    /\ constant_properties g1 = constant_properties (TimedPropertyGraph_init (clock 1)).
Proof.
  apply (proj2 (logical_and_onto_empty_graph (TimedPropertyGraph_init (clock 1))
                  graph_p_alone None)).
  - reflexivity.
  - discriminate.
  - repeat constructor. intros [].
  - intros _ e [<-|[]]. discriminate.
Defined.

(** ** Paths that match logically *)

Lemma py_index_nth {A : Type} (l : list A) (k : nat) (x : A) :
  nth_error l k = Some x -> py_index l (Z.of_nat k) = Ok x.
Proof.
  intros H.
  assert (Hk : (k < List.length l)%nat) by (apply nth_error_Some; congruence).
  assert (E1 : (Z.of_nat k <? 0) = false) by (apply Z.ltb_ge; lia).
  assert (E2 : (Z.of_nat (List.length l) <=? Z.of_nat k) = false)
    by (apply Z.leb_gt; lia).
  unfold py_index. cbv zeta. rewrite E1. cbv iota. rewrite E1, E2. cbn [orb].
  rewrite Nat2Z.id, H. reflexivity.
Qed.

Lemma py_index_last {A : Type} (l : list A) (x : A) : py_index (l ++ [x]) (-1) = Ok x.
Proof.
  assert (H : nth_error (l ++ [x]) (List.length l) = Some x).
  { rewrite nth_error_app2, Nat.sub_diag; [reflexivity | lia]. }
  assert (E1 : (Z.of_nat (List.length l) <? 0) = false) by (apply Z.ltb_ge; lia).
  assert (E2 : (Z.of_nat (List.length (l ++ [x])) <=? Z.of_nat (List.length l)) = false).
  { apply Z.leb_gt. rewrite length_app. cbn [List.length]. lia. }
  unfold py_index. cbv zeta. change (-1 <? 0) with true. cbv iota.
  replace (Z.of_nat (List.length (l ++ [x])) + -1) with (Z.of_nat (List.length l))
    by (rewrite length_app; cbn [List.length]; lia).
  rewrite E1, E2. cbn [orb]. rewrite Nat2Z.id, H. reflexivity.
Qed.

Lemma skip_back_eq (fuel : nat) (p : Path) (cur : Node) (i : Z) :
  skip_back fuel p cur i
  = if (0 <=? i) && _is_skipable_node cur
    then match fuel with
         | O => Raise OutOfFuel
         | S f => e <- py_index p i ;; skip_back f p (pe_src e) (i - 1)
         end
    else Ok (cur, i).
Proof. destruct fuel; reflexivity. Qed.

(** The inner loop stops at the first edge, going back, whose source is not
    skipped. *)
Lemma skip_back_to_plain (p2 : Path) (e2 : PathEdge) (i : nat) :
  nth_error p2 i = Some e2 ->
  _is_skipable_node (pe_src e2) = false ->
  forall (d fuel : nat) (e' : PathEdge),
    (d <= fuel)%nat ->
    (forall k e, (i < k <= i + d)%nat -> nth_error p2 k = Some e ->
       _is_skipable_node (pe_src e) = true) ->
    nth_error p2 (i + d) = Some e' ->
    skip_back fuel p2 (pe_src e') (Z.of_nat (i + d) - 1)
    = Ok (pe_src e2, Z.of_nat i - 1).
Proof.
  intros Hi Hplain. induction d as [|d IH]; intros fuel e' Hf Hskip He'.
  - rewrite Nat.add_0_r in *. rewrite Hi in He'. injection He' as <-.
    rewrite skip_back_eq, Hplain, andb_false_r. reflexivity.
  - rewrite skip_back_eq.
    rewrite (Hskip (i + S d)%nat e'); [|lia|exact He'].
    assert (E : (0 <=? Z.of_nat (i + S d) - 1) = true) by (apply Z.leb_le; lia).
    rewrite E. cbn [andb].
    destruct fuel as [|f]; [lia|].
    assert (Hlt : (i + S d < List.length p2)%nat) by (apply nth_error_Some; congruence).
    destruct (nth_error p2 (i + d)) as [e''|] eqn:E'';
      [|apply nth_error_None in E''; lia].
    replace (Z.of_nat (i + S d) - 1) with (Z.of_nat (i + d)) by lia.
    rewrite (py_index_nth _ _ _ E''). cbn [bind].
    apply IH; [lia| |reflexivity].
    intros k e Hk. apply Hskip. lia.
Qed.

Lemma filter_last_split {A : Type} (P : A -> bool) (l : list A) :
  forall F x,
    filter P l = F ++ [x] ->
    exists l1 l2, l = l1 ++ x :: l2 /\ P x = true /\ filter P l1 = F /\ filter P l2 = [].
Proof.
  induction l as [|y l IH] using rev_ind; intros F x H.
  - destruct F; discriminate.
  - rewrite filter_app in H. cbn [filter] in H. destruct (P y) eqn:Py.
    + apply app_inj_tail in H. destruct H as [HF <-]. exists l, [].
      repeat split; auto.
    + rewrite app_nil_r in H. destruct (IH F x H) as [l1 [l2 [-> [Px [H1 H2]]]]].
      exists l1, (l2 ++ [y]). split; [rewrite <- app_assoc; reflexivity|].
      split; [exact Px|]. split; [exact H1|].
      rewrite filter_app, H2. cbn [filter]. rewrite Py. reflexivity.
Qed.

Lemma map_eq_snoc {A B : Type} (f : A -> B) (l : list A) (a : list B) (b : B) :
  map f l = a ++ [b] -> exists l' x, l = l' ++ [x] /\ map f l' = a /\ f x = b.
Proof.
  induction l as [|y l _] using rev_ind; intros H.
  - destruct a; discriminate.
  - rewrite map_app in H. apply app_inj_tail in H. destruct H as [Ha Hb].
    exists l, y. auto.
Qed.

(** The outer loop on two paths that show the same nodes once the operators
    are skipped. *)
Lemma match_back_same_plain_sources (pre1 : Path) :
  forall pre2 suf2,
    map pe_src (filter plain_source pre1) = map pe_src (filter plain_source pre2) ->
    match_back (rev pre1) (pre2 ++ suf2) (Z.of_nat (List.length pre2) - 1) = Ok true.
Proof.
  induction pre1 as [|e1 pre1 IH] using rev_ind; intros pre2 suf2 H.
  - reflexivity.
  - rewrite rev_app_distr. cbn [rev app match_back].
    rewrite filter_app in H. cbn [filter] in H. unfold plain_source at 2 in H.
    destruct (_is_skipable_node (pe_src e1)) eqn:Es; cbn [negb] in H.
    + rewrite app_nil_r in H. apply IH. exact H.
    + rewrite map_app in H. cbn [map] in H.
      symmetry in H. apply map_eq_snoc in H. destruct H as [F2 [e2 [EF [HF He2]]]].
      apply filter_last_split in EF. destruct EF as [l1 [l2 [-> [Pe2 [Hl1 Hl2]]]]].
      set (p2 := (l1 ++ e2 :: l2) ++ suf2).
      assert (Hi : nth_error p2 (List.length l1) = Some e2).
      { unfold p2. rewrite <- app_assoc.
        rewrite nth_error_app2, Nat.sub_diag; [reflexivity | lia]. }
      assert (Hplain : _is_skipable_node (pe_src e2) = false).
      { unfold plain_source in Pe2.
        destruct (_is_skipable_node (pe_src e2)); [discriminate | reflexivity]. }
      assert (Hskip : forall k e,
                 (List.length l1 < k <= List.length l1 + List.length l2)%nat ->
                 nth_error p2 k = Some e -> _is_skipable_node (pe_src e) = true).
      { intros k e Hk Hn. unfold p2 in Hn. rewrite <- app_assoc in Hn.
        rewrite nth_error_app2 in Hn by lia.
        destruct (k - List.length l1)%nat as [|m] eqn:Em; [lia|].
        cbn [app nth_error] in Hn.
        rewrite nth_error_app1 in Hn by lia. apply nth_error_In in Hn.
        pose proof (filter_nil_forall _ _ Hl2 e Hn) as Hf. unfold plain_source in Hf.
        destruct (_is_skipable_node (pe_src e)); [reflexivity | discriminate]. }
      assert (Hlen : (List.length l1 + List.length l2 < List.length p2)%nat).
      { unfold p2. rewrite !length_app. cbn [List.length]. lia. }
      destruct (nth_error p2 (List.length l1 + List.length l2)) as [e'|] eqn:E';
        [|apply nth_error_None in E'; lia].
      replace (Z.of_nat (List.length (l1 ++ e2 :: l2)) - 1)
        with (Z.of_nat (List.length l1 + List.length l2))
        by (rewrite length_app; cbn [List.length]; lia).
      rewrite (py_index_nth _ _ _ E'). cbn [bind].
      rewrite (skip_back_to_plain p2 e2 (List.length l1) Hi Hplain
                 (List.length l2) (List.length p2) e'); [|lia|exact Hskip|exact E'].
      cbn [bind]. rewrite He2, node_eqb_refl, orb_true_r.
      unfold p2. rewrite <- app_assoc. cbn [app].
      apply (IH l1 (e2 :: l2 ++ suf2)). rewrite Hl1. symmetry. exact HF.
Qed.

Lemma count_nots_in_path_snoc (l : Path) (last : PathEdge) :
  exists n, count_nots_in_path (l ++ [last]) = Ok n.
Proof.
  unfold count_nots_in_path. rewrite rev_app_distr. cbn [rev app]. eauto.
Qed.

Lemma _paths_logically_match_sufficient (l1 l2 : Path) (last1 last2 : PathEdge)
    (n1 n2 : nat) :
  count_nots_in_path (l1 ++ [last1]) = Ok n1 ->
  count_nots_in_path (l2 ++ [last2]) = Ok n2 ->
  Nat.modulo n1 2 = Nat.modulo n2 2 ->
  pe_dst last1 = pe_dst last2 ->
  map pe_src (filter plain_source (l1 ++ [last1]))
  = map pe_src (filter plain_source (l2 ++ [last2])) ->
  _paths_logically_match (l1 ++ [last1]) (l2 ++ [last2]) = Ok true.
Proof.
  intros H1 H2 Hpar Hend Hsrc. unfold _paths_logically_match.
  rewrite H1, H2. cbn [bind]. rewrite Hpar, Nat.eqb_refl. cbn [negb].
  rewrite !py_index_last. cbn [bind]. rewrite Hend, node_eqb_refl. cbn [negb].
  pose proof (match_back_same_plain_sources (l1 ++ [last1]) (l2 ++ [last2]) [] Hsrc)
    as M.
  rewrite app_nil_r in M. exact M.
Qed.

(** X27.  [_paths_logically_match] raises [IndexError] when one of the paths
    is empty.  Two paths match only if they end at the same node and hold
    an even or an odd number of negations both; they do match when, on top
    of that, the source nodes other than the operators that are skipped
    ([AND], [NOT] and implication nodes) are the same in both, in the same
    order.  So every path that is not empty matches itself. *)
Theorem _paths_logically_match_same_plain_sources (path1 path2 : Path) :
  _paths_logically_match [] path2 = Raise IndexError
  /\ _paths_logically_match path1 [] = Raise IndexError
  /\ (forall l1 last1 l2 last2 n1 n2,
        path1 = l1 ++ [last1] ->
        path2 = l2 ++ [last2] ->
        count_nots_in_path path1 = Ok n1 ->
        count_nots_in_path path2 = Ok n2 ->
        (_paths_logically_match path1 path2 = Ok true ->
         Nat.modulo n1 2 = Nat.modulo n2 2 /\ pe_dst last1 = pe_dst last2)
        /\ (Nat.modulo n1 2 = Nat.modulo n2 2 ->
            pe_dst last1 = pe_dst last2 ->
            map pe_src (filter plain_source path1)
            = map pe_src (filter plain_source path2) ->
            _paths_logically_match path1 path2 = Ok true))
  /\ (path1 <> [] -> _paths_logically_match path1 path1 = Ok true).
Proof.
  split; [reflexivity|]. split; [|split].
  - unfold _paths_logically_match, count_nots_in_path.
    destruct (rev path1); reflexivity.
  - intros l1 last1 l2 last2 n1 n2 -> -> H1 H2. split.
    + unfold _paths_logically_match. rewrite H1, H2. cbn [bind].
      destruct (Nat.eqb_spec (Nat.modulo n1 2) (Nat.modulo n2 2)) as [E|E];
        cbn [negb]; [|discriminate].
      rewrite !py_index_last. cbn [bind].
      destruct (node_eqb (pe_dst last1) (pe_dst last2)) eqn:En;
        cbn [negb]; [|discriminate].
      intros _. split; [exact E | apply node_eqb_eq; exact En].
    + apply (_paths_logically_match_sufficient l1 l2 last1 last2 n1 n2 H1 H2).
  - intros Hne. destruct (exists_last Hne) as [l [last ->]].
    destruct (count_nots_in_path_snoc l last) as [n Hn].
    apply (_paths_logically_match_sufficient l l last last n n Hn Hn);
      reflexivity.
Qed.

Lemma _paths_logically_match_same_plain_sources_witness :
  _paths_logically_match first_occurrence first_occurrence = Ok true.
Proof.
  apply (proj2 (proj2 (proj2 (_paths_logically_match_same_plain_sources
                                first_occurrence first_occurrence)))).
  discriminate.
Defined.

(** ** The timestamps an implication is built with *)

Lemma logical_implication_timestamps (g pg g' : TimedPropertyGraph)
    (t : option Timestamp) (r1 r2 : Node) :
  root_node g = Some r1 -> root_node pg = Some r2 ->
  logical_implication g pg t = Ok g' ->
  exists ta tc,
    match t with
    | Some t0 => ta = Some t0 /\ tc = Some t0
    | None =>
        get_most_recent_timestamp g = Ok ta /\ get_most_recent_timestamp pg = Ok tc
    end
    /\ graph g'
       = add_edge
           (add_edge (add_edges_from (graph g) (graph_edges (graph pg)))
              (ImplicationOperator r1 r2) r1 None
              {| timestamp := ta; implication := Some ASSUMPTION_GRAPH |})
           (ImplicationOperator r1 r2) r2 None
           {| timestamp := tc; implication := Some CONCLUSION_GRAPH |}
    /\ root_node g' = Some (ImplicationOperator r1 r2).
Proof.
  intros H1 H2 H. unfold logical_implication, get_root_node in H.
  rewrite H1, H2 in H. apply bind_ok in H. destruct H as [[ta tc] [Ht H]].
  rewrite !_add_edge_new in H. cbn [bind] in H. injection H as <-.
  exists ta, tc. split.
  - destruct t as [t0|].
    + injection Ht as <- <-. auto.
    + apply bind_ok in Ht. destruct Ht as [a [Ha Ht]].
      apply bind_ok in Ht. destruct Ht as [b [Hb Ht]]. injection Ht as <- <-. auto.
  - split; [reflexivity|]. cbn. rewrite H1, node_eqb_refl.
    destruct (node_eqb r2 (ImplicationOperator r1 r2)); reflexivity.
Qed.

(** X28.  [_get_assumption_conclusion_edges_timestamps] returns no timestamp
    on a graph whose root is not an implication operator.  On the graph that
    [logical_implication] returns (the implication node being new to both
    operands) it gives back the timestamps the implication was built with:
    the given timestamp twice or, when none was given, the most recent
    timestamp of the assumption and that of the conclusion. *)
Theorem _get_assumption_conclusion_edges_timestamps_of_implication :
  (forall g0 : TimedPropertyGraph,
     match root_node g0 with
     | Some r => is_kind IMPLIES r = false
     | None => True
     end ->
     _get_assumption_conclusion_edges_timestamps g0 = Ok (None, None))
  /\ (forall (g pg g' : TimedPropertyGraph) (t : option Timestamp) (r1 r2 : Node),
        root_node g = Some r1 -> root_node pg = Some r2 ->
        out_degree (graph g) (ImplicationOperator r1 r2) = 0%nat ->
        out_degree (graph pg) (ImplicationOperator r1 r2) = 0%nat ->
        logical_implication g pg t = Ok g' ->
        exists ta tc,
          _get_assumption_conclusion_edges_timestamps g' = Ok (ta, tc)
          /\ match t with
             | Some t0 => ta = Some t0 /\ tc = Some t0
             | None =>
                 get_most_recent_timestamp g = Ok ta
                 /\ get_most_recent_timestamp pg = Ok tc
             end).
Proof.
  split.
  - intros g0 H. unfold _get_assumption_conclusion_edges_timestamps, get_root_node.
    destruct (root_node g0) as [r|]; [rewrite H|]; reflexivity.
  - intros g pg g' t r1 r2 H1 H2 Hg Hp Himp.
    destruct (logical_implication_timestamps g pg g' t r1 r2 H1 H2 Himp)
      as [ta [tc [Ht [Hgraph Hroot]]]].
    set (n := ImplicationOperator r1 r2) in *.
    set (G := add_edges_from (graph g) (graph_edges (graph pg))) in *.
    assert (HG : out_edges G n = []).
    { unfold G. rewrite out_edges_add_edges_from.
      - apply out_degree_zero_nil. exact Hg.
      - intros e He. apply (out_edges_nil_src _ _ (out_degree_zero_nil _ _ Hp)).
        apply graph_edges_incl. exact He. }
    destruct (out_edges_two_new_exact G n r1 r2
                {| timestamp := ta; implication := Some ASSUMPTION_GRAPH |}
                {| timestamp := tc; implication := Some CONCLUSION_GRAPH |} HG)
      as [k1 [k2 [Hout _]]].
    rewrite <- Hgraph in Hout.
    assert (Hnode : has_node (graph g') n = true).
    { rewrite Hgraph. apply mem_node_In. apply In_nodes_add_edge. auto. }
    exists ta, tc. split; [|exact Ht].
    unfold _get_assumption_conclusion_edges_timestamps, get_root_node.
    rewrite Hroot. change (is_kind IMPLIES n) with true. cbv iota.
    rewrite Hnode, Hout. reflexivity.
Qed.

Lemma _get_assumption_conclusion_edges_timestamps_of_implication_witness :
  exists ta tc,
    _get_assumption_conclusion_edges_timestamps graph_A_implies_B = Ok (ta, tc)
    /\ get_most_recent_timestamp graph_A_relative = Ok ta
    /\ get_most_recent_timestamp graph_B_relative = Ok tc.
Proof.
  apply (proj2 _get_assumption_conclusion_edges_timestamps_of_implication
           graph_A_relative graph_B_relative graph_A_implies_B None
           (predicate_node "A" [var_x]) node_B);
    reflexivity.
Defined.
